(** * Eclipse / Invariant swap server: pool discovery, routing and fallback

    A shallow embedding of the routing code of the repository
    (the Express server with [findBestPoolForPair], [performTokenSwap],
    the [/api/swap] and [/api/quote] routes; the script [swap.ts]; the
    documentation-style swap of [app.ts]) together with the properties
    the specification states about it; then the read-only routes of
    the server and the swap of [app.ts] over the pools of the Ledger,
    with further properties of the code.

    Conventions.
    - A [PublicKey] is represented by its base58 text; [equals] is text
      equality (base58 is injective on 32-byte keys).
    - A [BN] is an integer of [Z]; a JavaScript number of a request body
      is a rational of [Q].
    - The Ledger (RPC node, Invariant market) is external: its calls are
      the fields of [LedgerClient], functions that take and return a
      [World].  Every call is recorded, with its outcome, in a trace.
    - An exception is [Throw msg]; [try_catch] is the [try]/[catch]. *)

From Stdlib Require Import ZArith QArith List String Ascii Bool Lia.
From Stdlib Require Import DecimalString.
From Stdlib Require Import Sorting.Sorted Sorting.Permutation.
Import ListNotations.

#[local] Open Scope string_scope.
#[local] Open Scope Z_scope.

Set Implicit Arguments.

(* ------------------------------------------------------------------ *)
(** ** Values *)

Definition PublicKey := string.

Definition equals (a b : PublicKey) : bool := String.eqb a b.

Definition BN := Z.

(** [bn.js]: a [BN] converts to a JavaScript number only below 53 bits
    ([toNumber] asserts otherwise), and is built from a number only below
    53 bits; a fractional number is truncated towards zero. *)
Definition MAX_SAFE : Z := 2 ^ 53.

Inductive Exc (A : Type) : Type :=
| Ok (a : A)
| Throw (message : string).
Arguments Ok {A} a.
Arguments Throw {A} message.

Definition BN_toNumber (b : BN) : Exc Z :=
  if Z.abs b <? MAX_SAFE then Ok b
  else Throw "Number can only safely store up to 53 bits".

(** The integer part of a number. *)
Definition trunc (q : Q) : Z := Z.quot (Qnum q) (Zpos (Qden q)).

Definition BN_ofNumber (q : Q) : Exc BN :=
  if Z.abs (trunc q) <? MAX_SAFE then Ok (trunc q)
  else Throw "Assertion failed".

(** [String.prototype.toUpperCase] on ASCII text, where it changes the
    letters a to z and nothing else.  On text with other characters
    JavaScript maps more (the sharp s, the long s, the dotless i, ...):
    the symbols of a request are taken to be ASCII text, and a theorem
    that would otherwise depend on the difference says so. *)
Definition upper_ascii (c : ascii) : ascii :=
  let n := nat_of_ascii c in
  if ((97 <=? n)%nat && (n <=? 122)%nat)%bool then ascii_of_nat (n - 32) else c.

Fixpoint toUpperCase (s : string) : string :=
  match s with
  | EmptyString => EmptyString
  | String c r => String (upper_ascii c) (toUpperCase r)
  end.

(* ------------------------------------------------------------------ *)
(** ** Token registry *)

Inductive TokenProgram := TOKEN_PROGRAM_ID | TOKEN_2022_PROGRAM_ID.

Record TokenInfo := {
  mint : PublicKey;
  symbol : string;
  name : string;
  decimals : Z;
  tokenProgram : TokenProgram
}.

Definition NATIVE_MINT : PublicKey := "So11111111111111111111111111111111111111112".

Definition TOKEN_REGISTRY : list (string * TokenInfo) :=
  [ ("ETH",  {| mint := NATIVE_MINT; symbol := "ETH";
                name := "Ethereum (Native SOL)"; decimals := 9;
                tokenProgram := TOKEN_PROGRAM_ID |});
    ("SOL",  {| mint := NATIVE_MINT; symbol := "SOL";
                name := "Solana"; decimals := 9;
                tokenProgram := TOKEN_PROGRAM_ID |});
    ("USDT", {| mint := "CEBP3CqAbW4zdZA57H2wfaSG1QNdzQ72GiQEbQXyW9Tm";
                symbol := "USDT"; name := "Tether USD"; decimals := 6;
                tokenProgram := TOKEN_2022_PROGRAM_ID |});
    ("USDC", {| mint := "AKEWE7Bgh87GPp171b4cJPSSZfmZwQ3KaqYqXoKLNAEE";
                symbol := "USDC"; name := "USD Coin"; decimals := 6;
                tokenProgram := TOKEN_2022_PROGRAM_ID |});
    ("WBTC", {| mint := "9n4nbM75f5Ui33ZbPYXn59EwSgE8CGsHtAeTH5YFeJ9E";
                symbol := "WBTC"; name := "Wrapped Bitcoin"; decimals := 8;
                tokenProgram := TOKEN_2022_PROGRAM_ID |});
    ("WETH", {| mint := "So11111111111111111111111111111111111111112";
                symbol := "WETH"; name := "Wrapped Ethereum"; decimals := 9;
                tokenProgram := TOKEN_PROGRAM_ID |});
    ("AVAX", {| mint := "KMNo3nJsBXfcpJTVhZcXLW7RmTwTt4GVFE7suUBo9sS";
                symbol := "AVAX"; name := "Avalanche"; decimals := 9;
                tokenProgram := TOKEN_2022_PROGRAM_ID |});
    ("MATIC", {| mint := "Ga2AXHpfAF6mv2ekZwcsJFqu7wB4NV331qNH7fW9Nst8";
                 symbol := "MATIC"; name := "Polygon"; decimals := 9;
                 tokenProgram := TOKEN_2022_PROGRAM_ID |}) ].

Fixpoint lookup (k : string) (m : list (string * TokenInfo)) : option TokenInfo :=
  match m with
  | [] => None
  | (k', v) :: r => if String.eqb k k' then Some v else lookup k r
  end.

Definition getTokenInfo (symbol : string) : Exc TokenInfo :=
  match lookup (toUpperCase symbol) TOKEN_REGISTRY with
  | Some token => Ok token
  | None => Throw ("Token " ++ symbol ++ " not supported")
  end.

(* ------------------------------------------------------------------ *)
(** ** Pools and pool discovery *)

(** A pool record as the market enumerates it.  [tickSpacing] may be
    absent ([pool.tickSpacing || 1] at the call sites). *)
Module Pool.
Record t := mk {
  tokenX : PublicKey;
  tokenY : PublicKey;
  fee : BN;
  tickSpacing : option Z
}.
End Pool.

(** The predicate of [allPools.filter] in [findBestPoolForPair]. *)
Definition matchesPair (tokenA tokenB : PublicKey) (pool : Pool.t) : bool :=
  (equals (Pool.tokenX pool) tokenA && equals (Pool.tokenY pool) tokenB)
  || (equals (Pool.tokenX pool) tokenB && equals (Pool.tokenY pool) tokenA).

(** [BN.prototype.cmp]: -1, 0 or 1. *)
Definition BN_cmp (a b : BN) : Z :=
  match Z.compare a b with Lt => -1 | Eq => 0 | Gt => 1 end.

(** The comparator [(a, b) => a.key.cmp(b.key)]. *)
Definition compareBy {A : Type} (key : A -> BN) (a b : A) : Z :=
  BN_cmp (key a) (key b).

(** [Array.prototype.sort(compareFn)] is a stable sort (ECMAScript 2019):
    an element moves in front of another only when [compareFn] says it is
    strictly smaller.  A stable sort has one possible result, here
    computed by insertion, last element first. *)
Section ArraySort.
Variable A : Type.
Variable compareFn : A -> A -> Z.

(** [x] stood in front of [l]: it stays in front of its equals. *)
Fixpoint sort_insert (x : A) (l : list A) : list A :=
  match l with
  | [] => [x]
  | y :: r => if compareFn x y <=? 0 then x :: y :: r else y :: sort_insert x r
  end.

Fixpoint Array_sort (l : list A) : list A :=
  match l with
  | [] => []
  | x :: r => sort_insert x (Array_sort r)
  end.
End ArraySort.

(** The value [findBestPoolForPair] returns for the enumeration
    [allPools]: [filter], then [sort((a, b) => a.fee.cmp(b.fee))]. *)
Definition relevantPools (allPools : list Pool.t) (tokenA tokenB : PublicKey)
  : list Pool.t :=
  Array_sort (compareBy Pool.fee)
             (filter (matchesPair tokenA tokenB) allPools).

(* ------------------------------------------------------------------ *)
(** ** The SDK: pairs, addresses, decimals *)

Record FeeTier := { ft_fee : BN; ft_tickSpacing : Z }.

Module Pair.
Record t := mk {
  tokenX : PublicKey;
  tokenY : PublicKey;
  feeTier : FeeTier
}.
End Pair.

Definition Decimal := Z.

(** The functions of [@invariant-labs/sdk-eclipse], [@solana/spl-token]
    and [bs58] the routing code calls and that compute without the
    network.  [key_lt] is the canonical order of [Pair];
    [getAddress pair] is [pair.getAddress(market.program.programId)];
    [Keypair_fromBase58] is [Keypair.fromSecretKey(base58.decode(_))],
    giving the public key, or nothing when either call throws. *)
Record Sdk := {
  key_lt : PublicKey -> PublicKey -> bool;
  getAddress : Pair.t -> PublicKey;
  getAssociatedTokenAddressSync : PublicKey -> PublicKey -> TokenProgram -> PublicKey;
  toDecimal : Q -> Z -> Decimal;
  Keypair_fromBase58 : string -> option PublicKey
}.

(** Modelled from the spec: the constructor of the SDK's [Pair] class,
    which is not part of the repository.  It orders the two identities
    canonically, the smaller one first (section 3, Candidate; section
    4.4). *)
Definition new_Pair (sdk : Sdk) (first second : PublicKey) (feeTier : FeeTier)
  : Pair.t :=
  if key_lt sdk first second
  then Pair.mk first second feeTier
  else Pair.mk second first feeTier.

(** Modelled from the spec: the canonical order itself, "the
    lexicographically smaller identity" first; the repository's guide
    says the same ("token order (lexicographic sorting)",
    "Pair(ETH_MINT, USDT_MINT) usually creates Pair(USDT, ETH)").  On
    base58 text this is the comparison of strings. *)
Definition lexicographic_lt (a b : PublicKey) : bool := String.ltb a b.

Module SimulationStatus.
Inductive t := Ok | Other (name : string).
Definition is_Ok (s : t) : bool := match s with Ok => true | Other _ => false end.
End SimulationStatus.

Record Simulation := {
  sim_status : SimulationStatus.t;
  priceAfterSwap : BN;
  accumulatedAmountOut : option BN;
  priceImpact : option BN
}.

(** The argument object of [market.swap]. *)
Module Swap.
Record t := mk {
  xToY : bool;
  estimatedPriceAfterSwap : BN;
  pair : Pair.t;
  amount : BN;
  slippage : Decimal;
  byAmountIn : bool;
  accountX : PublicKey;
  accountY : PublicKey;
  owner : PublicKey
}.
End Swap.

(** [createAssociatedTokenAccountInstruction(payer, address, owner, mint,
    program, ASSOCIATED_TOKEN_PROGRAM_ID)]. *)
Record Instruction := {
  ix_payer : PublicKey;
  ix_address : PublicKey;
  ix_owner : PublicKey;
  ix_mint : PublicKey;
  ix_program : TokenProgram
}.

(* ------------------------------------------------------------------ *)
(** ** The Ledger client and the trace of its calls *)

Record LedgerClient (World : Type) := {
  Market_build : World -> Exc unit * World;
  getAllPools : World -> Exc (list Pool.t) * World;
  getAccount : PublicKey -> TokenProgram -> World -> Exc BN * World;
  sendAndConfirmTransaction : list Instruction -> World -> Exc string * World;
  swapSimulation :
    bool -> bool -> BN -> Decimal -> PublicKey -> Z -> World -> Exc Simulation * World;
  market_swap : Swap.t -> World -> Exc string * World
}.

Inductive Call :=
| CMarketBuild (r : Exc unit)
| CGetAllPools (r : Exc (list Pool.t))
| CGetAccount (address : PublicKey) (program : TokenProgram) (r : Exc BN)
| CSendTransaction (instructions : list Instruction) (r : Exc string)
| CSwapSimulation (xToY byAmountIn : bool) (amount : BN) (slippage : Decimal)
    (poolAddress : PublicKey) (maxCrosses : Z) (r : Exc Simulation)
| CMarketSwap (s : Swap.t) (r : Exc string).

(** The lines [performTokenSwap] and the routes write to the console. *)
Inductive LogLine :=
| PoolSimulationFailed (poolNumber : nat) (status : SimulationStatus.t)
| PoolFailed (poolNumber : nat) (message : string)
| SwapError (message : string).

Record State (World : Type) := {
  world : World;
  calls : list Call;
  console : list LogLine
}.

Definition M (World A : Type) : Type := State World -> Exc A * State World.

Definition ret {World A} (a : A) : M World A := fun st => (Ok a, st).

Definition throw {World A} (message : string) : M World A :=
  fun st => (Throw message, st).

Definition bind {World A B} (m : M World A) (k : A -> M World B) : M World B :=
  fun st => match m st with
            | (Ok a, st') => k a st'
            | (Throw e, st') => (Throw e, st')
            end.

(** [try { m } catch (error) { handler(error.message) }]: what [m] did to
    the Ledger and wrote to the console before it threw stays done. *)
Definition try_catch {World A} (m : M World A) (handler : string -> M World A)
  : M World A :=
  fun st => match m st with
            | (Ok a, st') => (Ok a, st')
            | (Throw e, st') => handler e st'
            end.

Definition lift {World A} (x : Exc A) : M World A := fun st => (x, st).

Definition console_log {World} (line : LogLine) : M World unit :=
  fun st => (Ok tt, {| world := world st; calls := calls st;
                       console := (console st ++ [line])%list |}).

(** An [await] on the Ledger: the call runs on the current world and is
    appended, with its outcome, to the trace. *)
Definition await {World A} (op : World -> Exc A * World) (record : Exc A -> Call)
  : M World A :=
  fun st => let (r, w) := op (world st) in
            (r, {| world := w; calls := (calls st ++ [record r])%list;
                   console := console st |}).

Notation "x <- m ;; k" := (bind m (fun x => k))
  (at level 61, m at next level, right associativity).
Notation "m ;;; k" := (bind m (fun _ => k))
  (at level 61, right associativity).

(* ------------------------------------------------------------------ *)
(** ** The server: discovery, account provisioning, routing loop *)

Definition TICK_CROSSES_PER_IX_NATIVE_TOKEN : Z := 40.

Module SwapResult.
Record t := mk {
  success : bool;
  transactionHash : string;
  fromToken : string;
  toToken : string;
  fromAmount : Q;
  estimatedToAmount : option BN;     (* [None] is the text 'Unknown' *)
  poolUsed_address : PublicKey;
  poolUsed_fee : BN;
  poolUsed_feePercent : Q            (* before [toFixed(4)] *)
}.
End SwapResult.

(** What the routing loop needs from the request, fixed before it runs. *)
Record SwapContext := {
  ctx_fromToken : string;
  ctx_toToken : string;
  ctx_amount : Q;
  ctx_slippagePercent : Q;
  ctx_owner : PublicKey;
  ctx_fromTokenInfo : TokenInfo;
  ctx_toTokenInfo : TokenInfo;
  ctx_swapAmount : BN
}.

Definition NO_POOLS_MESSAGE (fromToken toToken : string) : string :=
  "No liquidity pools found for " ++ fromToken ++ "/" ++ toToken ++ " pair".

Definition ALL_FAILED_MESSAGE : string := "All available pools failed for this swap".

Section Server.
Context {World : Type}.
Variable ledger : LedgerClient World.
Variable sdk : Sdk.

Definition createKeypairFromPrivateKey (privateKey : string) : Exc PublicKey :=
  match Keypair_fromBase58 sdk privateKey with
  | Some publicKey => Ok publicKey
  | None => Throw "Invalid private key format"
  end.

Definition initializeMarket : M World unit :=
  try_catch (await (Market_build ledger) CMarketBuild)
            (fun _ => throw "Market initialization failed").

Definition createTokenAccountIfNeeded
    (mint owner : PublicKey) (tokenProgram : TokenProgram) : M World PublicKey :=
  let associatedTokenAddress :=
    getAssociatedTokenAddressSync sdk mint owner tokenProgram in
  try_catch
    (await (getAccount ledger associatedTokenAddress tokenProgram)
           (CGetAccount associatedTokenAddress tokenProgram) ;;;
     ret associatedTokenAddress)
    (fun _ =>
       let transaction :=
         [ {| ix_payer := owner; ix_address := associatedTokenAddress;
              ix_owner := owner; ix_mint := mint; ix_program := tokenProgram |} ] in
       await (sendAndConfirmTransaction ledger transaction)
             (CSendTransaction transaction) ;;;
       ret associatedTokenAddress).

Definition findBestPoolForPair (tokenA tokenB : PublicKey) : M World (list Pool.t) :=
  allPools <- await (getAllPools ledger) CGetAllPools ;;
  ret (relevantPools allPools tokenA tokenB).

(** [pool.tickSpacing || 1] *)
Definition tickSpacing_or_1 (pool : Pool.t) : Z :=
  match Pool.tickSpacing pool with
  | Some 0 | None => 1
  | Some t => t
  end.

Definition pairOf (pool : Pool.t) : Pair.t :=
  new_Pair sdk (Pool.tokenX pool) (Pool.tokenY pool)
           {| ft_fee := Pool.fee pool; ft_tickSpacing := tickSpacing_or_1 pool |}.

(** The body of the [try] block of the loop of [performTokenSwap] for
    [pools[i]]: [Some result] is the [return], [None] the [continue]
    after a simulation that is not [Ok]. *)
Definition attemptPool (ctx : SwapContext) (i : nat) (pool : Pool.t)
  : M World (option SwapResult.t) :=
  let fromTokenInfo := ctx_fromTokenInfo ctx in
  let toTokenInfo := ctx_toTokenInfo ctx in
  let pair := pairOf pool in
  let xToY := equals (Pair.tokenX pair) (mint fromTokenInfo) in
  let accountX :=
    getAssociatedTokenAddressSync sdk (Pair.tokenX pair) (ctx_owner ctx)
      (if equals (Pair.tokenX pair) (mint fromTokenInfo)
       then tokenProgram fromTokenInfo else tokenProgram toTokenInfo) in
  let accountY :=
    getAssociatedTokenAddressSync sdk (Pair.tokenY pair) (ctx_owner ctx)
      (if equals (Pair.tokenY pair) (mint fromTokenInfo)
       then tokenProgram fromTokenInfo else tokenProgram toTokenInfo) in
  let poolAddress := getAddress sdk pair in
  let slippage := toDecimal sdk (ctx_slippagePercent ctx) 2 in
  simulation <-
    await (swapSimulation ledger xToY true (ctx_swapAmount ctx) slippage
             poolAddress TICK_CROSSES_PER_IX_NATIVE_TOKEN)
          (CSwapSimulation xToY true (ctx_swapAmount ctx) slippage
             poolAddress TICK_CROSSES_PER_IX_NATIVE_TOKEN) ;;
  if negb (SimulationStatus.is_Ok (sim_status simulation)) then
    console_log (PoolSimulationFailed (i + 1) (sim_status simulation)) ;;;
    ret None
  else
    let args :=
      Swap.mk xToY (priceAfterSwap simulation) pair (ctx_swapAmount ctx)
              slippage true accountX accountY (ctx_owner ctx) in
    txHash <- await (market_swap ledger args) (CMarketSwap args) ;;
    feeNumber <- lift (BN_toNumber (Pool.fee pool)) ;;
    ret (Some
      (SwapResult.mk true txHash (ctx_fromToken ctx) (ctx_toToken ctx)
         (ctx_amount ctx)
         (option_map (fun out => Z.quot out (10 ^ decimals toTokenInfo))
                     (accumulatedAmountOut simulation))
         poolAddress (Pool.fee pool)
         (inject_Z feeNumber / inject_Z 1000000000)%Q)).

(** One turn of the loop: the [try] block and its [catch]. *)
Definition tryPool (ctx : SwapContext) (i : nat) (pool : Pool.t)
  : M World (option SwapResult.t) :=
  try_catch (attemptPool ctx i pool)
            (fun message => console_log (PoolFailed (i + 1) message) ;;; ret None).

(** [for (let i = 0; i < pools.length; i++)], from index [i] on, over
    the pools that remain. *)
Fixpoint tryPools (ctx : SwapContext) (i : nat) (pools : list Pool.t)
  : M World (option SwapResult.t) :=
  match pools with
  | [] => ret None
  | pool :: rest =>
      r <- tryPool ctx i pool ;;
      match r with
      | Some result => ret (Some result)
      | None => tryPools ctx (S i) rest
      end
  end.

(** [performTokenSwap] up to and including pool discovery: key pair,
    market, the two tokens, the quantity, the candidates. *)
Definition discover (fromToken toToken : string) (amount slippagePercent : Q)
    (privateKey : string) : M World (SwapContext * list Pool.t) :=
  publicKey <- lift (createKeypairFromPrivateKey privateKey) ;;
  initializeMarket ;;;
  fromTokenInfo <- lift (getTokenInfo fromToken) ;;
  toTokenInfo <- lift (getTokenInfo toToken) ;;
  n <- lift (BN_ofNumber amount) ;;
  let swapAmount := n * 10 ^ decimals fromTokenInfo in
  pools <- findBestPoolForPair (mint fromTokenInfo) (mint toTokenInfo) ;;
  ret ({| ctx_fromToken := fromToken; ctx_toToken := toToken;
          ctx_amount := amount; ctx_slippagePercent := slippagePercent;
          ctx_owner := publicKey; ctx_fromTokenInfo := fromTokenInfo;
          ctx_toTokenInfo := toTokenInfo; ctx_swapAmount := swapAmount |},
       pools).

(** "Create token accounts if needed": both accounts of the owner, once. *)
Definition ensureAccounts (ctx : SwapContext) : M World unit :=
  createTokenAccountIfNeeded (mint (ctx_fromTokenInfo ctx)) (ctx_owner ctx)
    (tokenProgram (ctx_fromTokenInfo ctx)) ;;;
  createTokenAccountIfNeeded (mint (ctx_toTokenInfo ctx)) (ctx_owner ctx)
    (tokenProgram (ctx_toTokenInfo ctx)) ;;;
  ret tt.

(** [performTokenSwap] after discovery, for a non-empty list of pools. *)
Definition route (ctx : SwapContext) (pools : list Pool.t) : M World SwapResult.t :=
  ensureAccounts ctx ;;;
  r <- tryPools ctx 0 pools ;;
  match r with
  | Some result => ret result
  | None => throw ALL_FAILED_MESSAGE
  end.

Definition performTokenSwap (fromToken toToken : string) (amount slippagePercent : Q)
    (privateKey : string) : M World SwapResult.t :=
  found <- discover fromToken toToken amount slippagePercent privateKey ;;
  let (ctx, pools) := found in
  match pools with
  | [] => throw (NO_POOLS_MESSAGE fromToken toToken)
  | _ :: _ => route ctx pools
  end.

End Server.

(* ------------------------------------------------------------------ *)
(** ** The routes [POST /api/swap] and [POST /api/quote] *)

(** A request body: a field is absent ([None]) or has a value of its
    documented type, a string or a number. *)
Record SwapBody := {
  body_fromToken : option string;
  body_toToken : option string;
  body_amount : option Q;
  body_slippage : option Q;
  body_privateKey : option string
}.

Record Quote := {
  quote_fromToken : string;
  quote_toToken : string;
  quote_fromAmount : Q;
  quote_estimatedToAmount : BN;
  quote_priceImpact : option BN;     (* [None] is the text 'N/A' *)
  quote_fee : Q;                     (* before [toFixed(4)] *)
  quote_slippage : Q
}.

Inductive Payload :=
| SwapPayload (result : SwapResult.t)
| QuotePayload (quote : Quote)
| ErrorPayload (error : string).     (* [{ success: false, error }] *)

Record Response := { status : Z; payload : Payload }.

Definition respond (code : Z) (error : string) : Response :=
  {| status := code; payload := ErrorPayload error |}.

(** [!s] for a string field and [!n] for a number field. *)
Definition missing_string (s : option string) : bool :=
  match s with
  | Some (String _ _) => false
  | _ => true
  end.

Definition missing_number (n : option Q) : bool :=
  match n with
  | Some q => Qeq_bool q 0
  | None => true
  end.

Definition DEFAULT_BODY_SLIPPAGE : Q := 1 # 2.

Definition slippage_of (body : SwapBody) : Q :=
  match body_slippage body with
  | Some s => s
  | None => DEFAULT_BODY_SLIPPAGE
  end.

Definition Qlt_bool (a b : Q) : bool := negb (Qle_bool b a).

Definition statusName (s : SimulationStatus.t) : string :=
  match s with
  | SimulationStatus.Ok => "SUCCESS"
  | SimulationStatus.Other name => name
  end.

(** A call [toDecimal(x, decimalPlaces)].  The SDK computes it with
    [BN.muln(x)], and bn.js (version 5, as package.json asks for)
    asserts there that the factor is below 2^26 in absolute value: from
    there on the call throws, below it returns the tolerance that
    [toDecimal sdk] stands for.  The swap route lets only a slippage
    between 0 and 50 through; the quote route checks nothing. *)
Definition MAX_FACTOR : Q := inject_Z (2 ^ 26).

Definition toDecimal_call (sdk : Sdk) (x : Q) (decimalPlaces : Z) : Exc Decimal :=
  if Qlt_bool (- MAX_FACTOR) x && Qlt_bool x MAX_FACTOR
  then Ok (toDecimal sdk x decimalPlaces)
  else Throw "Assertion failed".

Section Routes.
Context {World : Type}.
Variable ledger : LedgerClient World.
Variable sdk : Sdk.

Definition api_swap (body : SwapBody) (st : State World) : Response * State World :=
  if missing_string (body_fromToken body) || missing_string (body_toToken body)
     || missing_number (body_amount body) || missing_string (body_privateKey body)
  then (respond 400 "fromToken, toToken, amount, and privateKey are required", st)
  else
    match body_fromToken body, body_toToken body, body_amount body,
          body_privateKey body with
    | Some fromToken, Some toToken, Some amount, Some privateKey =>
        if String.eqb (toUpperCase fromToken) (toUpperCase toToken)
        then (respond 400 "Cannot swap the same token", st)
        else if Qle_bool amount 0
        then (respond 400 "Amount must be greater than 0", st)
        else if Qlt_bool (slippage_of body) 0 || Qlt_bool 50 (slippage_of body)
        then (respond 400 "Slippage must be between 0 and 50 percent", st)
        else
          match performTokenSwap ledger sdk fromToken toToken amount
                  (slippage_of body) privateKey st with
          | (Ok result, st') =>
              ({| status := 200; payload := SwapPayload result |}, st')
          | (Throw message, st') =>
              (respond 500 message,
               {| world := world st'; calls := calls st';
                  console := (console st' ++ [SwapError message])%list |})
          end
    | _, _, _, _ =>
        (respond 400 "fromToken, toToken, amount, and privateKey are required", st)
    end.

(** The [try] block of the quote route once the three fields are there. *)
Definition quote_handler (fromToken toToken : string) (amount slippage : Q)
  : M World Response :=
  fromTokenInfo <- lift (getTokenInfo fromToken) ;;
  toTokenInfo <- lift (getTokenInfo toToken) ;;
  n <- lift (BN_ofNumber amount) ;;
  let swapAmount := n * 10 ^ decimals fromTokenInfo in
  initializeMarket ledger ;;;
  pools <- findBestPoolForPair ledger (mint fromTokenInfo) (mint toTokenInfo) ;;
  match pools with
  | [] => ret (respond 400 (NO_POOLS_MESSAGE fromToken toToken))
  | pool :: _ =>
      let pair := pairOf sdk pool in
      let xToY := equals (Pair.tokenX pair) (mint fromTokenInfo) in
      let poolAddress := getAddress sdk pair in
      slippageDecimal <- lift (toDecimal_call sdk slippage 2) ;;
      simulation <-
        await (swapSimulation ledger xToY true swapAmount slippageDecimal
                 poolAddress TICK_CROSSES_PER_IX_NATIVE_TOKEN)
              (CSwapSimulation xToY true swapAmount slippageDecimal
                 poolAddress TICK_CROSSES_PER_IX_NATIVE_TOKEN) ;;
      if negb (SimulationStatus.is_Ok (sim_status simulation)) then
        ret (respond 400 ("Simulation failed: " ++ statusName (sim_status simulation)))
      else
        match accumulatedAmountOut simulation with
        | None => throw "Cannot read properties of undefined (reading 'div')"
        | Some out =>
            feeNumber <- lift (BN_toNumber (Pool.fee pool)) ;;
            ret {| status := 200;
                   payload := QuotePayload
                     {| quote_fromToken := fromToken; quote_toToken := toToken;
                        quote_fromAmount := amount;
                        quote_estimatedToAmount :=
                          Z.quot out (10 ^ decimals toTokenInfo);
                        quote_priceImpact := priceImpact simulation;
                        quote_fee := (inject_Z feeNumber / inject_Z 1000000000)%Q;
                        quote_slippage := slippage |} |}
        end
  end.

Definition api_quote (body : SwapBody) (st : State World) : Response * State World :=
  if missing_string (body_fromToken body) || missing_string (body_toToken body)
     || missing_number (body_amount body)
  then (respond 400 "fromToken, toToken, and amount are required", st)
  else
    match body_fromToken body, body_toToken body, body_amount body with
    | Some fromToken, Some toToken, Some amount =>
        match quote_handler fromToken toToken amount (slippage_of body) st with
        | (Ok response, st') => (response, st')
        | (Throw message, st') => (respond 500 message, st')
        end
    | _, _, _ => (respond 400 "fromToken, toToken, and amount are required", st)
    end.

End Routes.

(* ------------------------------------------------------------------ *)
(** ** The script [swap.ts]: class [InvariantEclipseTrader] *)

Definition LAMPORTS_PER_SOL : Q := 1000000000 # 1.

Module Trader.

Definition SOL_MINT : PublicKey := "BeRUj3h7BqkbdfFU7FBNYbodgf8GCHodzKvF9aVjNNfL".
Definition USDT_MINT : PublicKey := "CEBP3CqAbW4zdZA57H2wfaSG1QNdzQ72GiQEbQXyW9Tm".

Definition DEFAULT_SLIPPAGE : Q := 1 # 100.
Definition DEFAULT_FEE : Q := 6 # 1000.
Definition DEFAULT_TICK_SPACING : Z := 10.

Section Script.
Context {World : Type}.
Variable ledger : LedgerClient World.
Variable sdk : Sdk.
Variable wallet : PublicKey.

Definition initializeMarket : M World unit :=
  await (Market_build ledger) CMarketBuild.

Definition createInstruction (address mint : PublicKey) : Instruction :=
  {| ix_payer := wallet; ix_address := address; ix_owner := wallet;
     ix_mint := mint; ix_program := TOKEN_PROGRAM_ID |}.

(** [try { await getAccount(...) } catch { transaction.add(...) }]: the
    instructions the check adds to the transaction. *)
Definition checkAccount (address mint : PublicKey) : M World (list Instruction) :=
  try_catch
    (await (getAccount ledger address TOKEN_PROGRAM_ID)
           (CGetAccount address TOKEN_PROGRAM_ID) ;;;
     ret [])
    (fun _ => ret [createInstruction address mint]).

Definition ensureTokenAccounts : M World (PublicKey * PublicKey) :=
  let solTokenAccount :=
    getAssociatedTokenAddressSync sdk SOL_MINT wallet TOKEN_PROGRAM_ID in
  let usdtTokenAccount :=
    getAssociatedTokenAddressSync sdk USDT_MINT wallet TOKEN_PROGRAM_ID in
  forSol <- checkAccount solTokenAccount SOL_MINT ;;
  forUsdt <- checkAccount usdtTokenAccount USDT_MINT ;;
  let transaction := (forSol ++ forUsdt)%list in
  match transaction with
  | [] => ret (solTokenAccount, usdtTokenAccount)
  | _ :: _ =>
      await (sendAndConfirmTransaction ledger transaction)
            (CSendTransaction transaction) ;;;
      ret (solTokenAccount, usdtTokenAccount)
  end.

Definition swapSolToUsdt : M World string :=
  initializeMarket ;;;
  accounts <- ensureTokenAccounts ;;
  let (accountX, accountY) := accounts in
  feeBN <- lift (BN_ofNumber (DEFAULT_FEE * (1000 # 1))%Q) ;;
  let pair := new_Pair sdk SOL_MINT USDT_MINT
                {| ft_fee := feeBN; ft_tickSpacing := DEFAULT_TICK_SPACING |} in
  let xToY := true in
  let byAmountIn := true in
  swapAmount <- lift (BN_ofNumber (LAMPORTS_PER_SOL / (2 # 1))%Q) ;;
  slippageBN <- lift (BN_ofNumber (DEFAULT_SLIPPAGE * (100 # 1))%Q) ;;
  let args :=
    Swap.mk xToY 1 pair swapAmount slippageBN byAmountIn accountX accountY wallet in
  await (market_swap ledger args) (CMarketSwap args).

End Script.
End Trader.

(* ------------------------------------------------------------------ *)
(** ** The script [app.ts]: fixed-pair swaps *)

Module App.

Definition ETH_MINT : PublicKey := NATIVE_MINT.
Definition USDT_MINT : PublicKey := "CEBP3CqAbW4zdZA57H2wfaSG1QNdzQ72GiQEbQXyW9Tm".
Definition USDC_MINT : PublicKey := "AKEWE7Bgh87GPp171b4cJPSSZfmZwQ3KaqYqXoKLNAEE".

Definition programOf (token : PublicKey) : TokenProgram :=
  if equals token USDT_MINT || equals token USDC_MINT
  then TOKEN_2022_PROGRAM_ID else TOKEN_PROGRAM_ID.

Section Script.
Context {World : Type}.
Variable ledger : LedgerClient World.
Variable sdk : Sdk.
Variable keypair : PublicKey.

Definition getAvailableWrappedSolBalance : M World BN :=
  let associatedTokenAddress :=
    getAssociatedTokenAddressSync sdk ETH_MINT keypair TOKEN_PROGRAM_ID in
  try_catch
    (await (getAccount ledger associatedTokenAddress TOKEN_PROGRAM_ID)
           (CGetAccount associatedTokenAddress TOKEN_PROGRAM_ID))
    (fun _ => ret 0).

Definition checkPoolExists (pair : Pair.t) : M World bool :=
  try_catch
    (pools <- await (getAllPools ledger) CGetAllPools ;;
     ret (existsb (matchesPair (Pair.tokenX pair) (Pair.tokenY pair)) pools))
    (fun _ => ret false).

(** [wrappedSolBalance.muln(40).divn(100)] *)
Definition fortyPercent (balance : BN) : BN := Z.quot (balance * 40) 100.

(** The body of [for (const { tokenA, tokenB, name } of tokenPairs)] of
    [performDocumentationStyleSwap]; [true] is its [return]. *)
Fixpoint documentationLoop (swapAmount : BN) (feeTier : FeeTier)
    (tokenPairs : list (PublicKey * PublicKey)) : M World bool :=
  match tokenPairs with
  | [] => ret false
  | (tokenA, tokenB) :: rest =>
      let wrappedEthPair := new_Pair sdk tokenA tokenB feeTier in
      poolExists <- checkPoolExists wrappedEthPair ;;
      if negb poolExists then documentationLoop swapAmount feeTier rest
      else
        let xToY := false in
        let byAmountIn := true in
        let accountX :=
          getAssociatedTokenAddressSync sdk (Pair.tokenX wrappedEthPair) keypair
            (programOf (Pair.tokenX wrappedEthPair)) in
        let accountY :=
          getAssociatedTokenAddressSync sdk (Pair.tokenY wrappedEthPair) keypair
            (programOf (Pair.tokenY wrappedEthPair)) in
        let args :=
          Swap.mk xToY 1 wrappedEthPair swapAmount 100 byAmountIn
                  accountX accountY keypair in
        done <- try_catch
                  (await (market_swap ledger args) (CMarketSwap args) ;;; ret true)
                  (fun _ => ret false) ;;
        if done then ret true else documentationLoop swapAmount feeTier rest
  end.

Definition performDocumentationStyleSwap : M World unit :=
  wrappedSolBalance <- getAvailableWrappedSolBalance ;;
  let swapAmount := fortyPercent wrappedSolBalance in
  if swapAmount =? 0 then ret tt
  else
    try_catch
      (documentationLoop swapAmount {| ft_fee := 1000; ft_tickSpacing := 1 |}
         [(ETH_MINT, USDT_MINT); (ETH_MINT, USDC_MINT)] ;;;
       ret tt)
      (fun _ => ret tt).

(** [swapEthToUsdt]: one fixed pair, a simulation, then the swap. *)
Definition swapEthToUsdt : M World unit :=
  wrappedSolBalance <- getAvailableWrappedSolBalance ;;
  let swapAmount := fortyPercent wrappedSolBalance in
  if swapAmount =? 0 then ret tt
  else
    try_catch
      (let pair := new_Pair sdk ETH_MINT USDT_MINT
                     {| ft_fee := 1000; ft_tickSpacing := 1 |} in
       poolExists <- checkPoolExists pair ;;
       if negb poolExists then ret tt
       else
         let xToY := equals (Pair.tokenX pair) ETH_MINT in
         let accountX :=
           getAssociatedTokenAddressSync sdk (Pair.tokenX pair) keypair
             (if equals (Pair.tokenX pair) USDT_MINT
              then TOKEN_2022_PROGRAM_ID else TOKEN_PROGRAM_ID) in
         let accountY :=
           getAssociatedTokenAddressSync sdk (Pair.tokenY pair) keypair
             (if equals (Pair.tokenY pair) USDT_MINT
              then TOKEN_2022_PROGRAM_ID else TOKEN_PROGRAM_ID) in
         let slippage := toDecimal sdk 0 0 in
         let poolAddress := getAddress sdk pair in
         simulation <-
           await (swapSimulation ledger false true swapAmount slippage
                    poolAddress TICK_CROSSES_PER_IX_NATIVE_TOKEN)
                 (CSwapSimulation false true swapAmount slippage
                    poolAddress TICK_CROSSES_PER_IX_NATIVE_TOKEN) ;;
         if negb (SimulationStatus.is_Ok (sim_status simulation)) then
           throw ("Simulation failed: " ++ statusName (sim_status simulation))
         else
           let args :=
             Swap.mk xToY (priceAfterSwap simulation) pair swapAmount slippage
                     true accountX accountY keypair in
           await (market_swap ledger args) (CMarketSwap args) ;;;
           ret tt)
      (fun _ => ret tt).

End Script.
End App.

(* ------------------------------------------------------------------ *)
(** ** Reading the trace of the routing loop *)

Section Reading.
Context {World : Type}.
Variable ledger : LedgerClient World.
Variable sdk : Sdk.
Variable ctx : SwapContext.

(** The values the [try] block computes for a pool before it simulates. *)
Definition xToYOf (pool : Pool.t) : bool :=
  equals (Pair.tokenX (pairOf sdk pool)) (mint (ctx_fromTokenInfo ctx)).

Definition slippageOf : Decimal := toDecimal sdk (ctx_slippagePercent ctx) 2.

Definition poolAddressOf (pool : Pool.t) : PublicKey := getAddress sdk (pairOf sdk pool).

Definition simulate (pool : Pool.t) : World -> Exc Simulation * World :=
  swapSimulation ledger (xToYOf pool) true (ctx_swapAmount ctx) slippageOf
    (poolAddressOf pool) TICK_CROSSES_PER_IX_NATIVE_TOKEN.

Definition simulationCall (pool : Pool.t) (r : Exc Simulation) : Call :=
  CSwapSimulation (xToYOf pool) true (ctx_swapAmount ctx) slippageOf
    (poolAddressOf pool) TICK_CROSSES_PER_IX_NATIVE_TOKEN r.

Definition programFor (token : PublicKey) : TokenProgram :=
  if equals token (mint (ctx_fromTokenInfo ctx))
  then tokenProgram (ctx_fromTokenInfo ctx)
  else tokenProgram (ctx_toTokenInfo ctx).

Definition swapArgs (pool : Pool.t) (simulation : Simulation) : Swap.t :=
  let pair := pairOf sdk pool in
  Swap.mk (xToYOf pool) (priceAfterSwap simulation) pair (ctx_swapAmount ctx)
    slippageOf true
    (getAssociatedTokenAddressSync sdk (Pair.tokenX pair) (ctx_owner ctx)
       (programFor (Pair.tokenX pair)))
    (getAssociatedTokenAddressSync sdk (Pair.tokenY pair) (ctx_owner ctx)
       (programFor (Pair.tokenY pair)))
    (ctx_owner ctx).

Definition resultOf (pool : Pool.t) (simulation : Simulation) (txHash : string)
    (feeNumber : Z) : SwapResult.t :=
  SwapResult.mk true txHash (ctx_fromToken ctx) (ctx_toToken ctx) (ctx_amount ctx)
    (option_map (fun out => Z.quot out (10 ^ decimals (ctx_toTokenInfo ctx)))
                (accumulatedAmountOut simulation))
    (poolAddressOf pool) (Pool.fee pool)
    (inject_Z feeNumber / inject_Z 1000000000)%Q.

(** The calls a run of the loop over [pools] can leave: for each pool it
    reaches, its simulation alone, or its simulation with status [Ok]
    followed at once by the swap built from that simulation. *)
Inductive Attempted (pools : list Pool.t) : list Call -> Prop :=
| Attempted_nil : Attempted pools []
| Attempted_simulation pool r l :
    In pool pools -> Attempted pools l ->
    Attempted pools (simulationCall pool r :: l)
| Attempted_swap pool simulation r l :
    In pool pools -> sim_status simulation = SimulationStatus.Ok ->
    Attempted pools l ->
    Attempted pools
      (simulationCall pool (Ok simulation)
         :: CMarketSwap (swapArgs pool simulation) r :: l).

End Reading.

(** The calls of [st'] made after [st]. *)
Definition callsSince {World} (st st' : State World) : list Call :=
  skipn (List.length (calls st)) (calls st').

Definition linesSince {World} (st st' : State World) : list LogLine :=
  skipn (List.length (console st)) (console st').

Definition poolNumber (line : LogLine) : nat :=
  match line with
  | PoolSimulationFailed n _ => n
  | PoolFailed n _ => n
  | SwapError _ => 0
  end.

Definition isSimulation (c : Call) : bool :=
  match c with CSwapSimulation _ _ _ _ _ _ _ => true | _ => false end.

Definition isSwap (c : Call) : bool :=
  match c with CMarketSwap _ _ => true | _ => false end.

(** A call that is neither a simulation nor an execution. *)
Definition quiet (c : Call) : Prop := isSimulation c = false /\ isSwap c = false.

(** [m] writes nothing to the console and adds to the trace only calls
    that satisfy [P]. *)
Definition emits {World A} (P : Call -> Prop) (m : M World A) : Prop :=
  forall st : State World,
  exists new : list Call,
    calls (snd (m st)) = (calls st ++ new)%list
    /\ Forall P new
    /\ console (snd (m st)) = console st.

(* ------------------------------------------------------------------ *)
(** ** What the claims say about a call *)

(** The direction flag of a simulation or of an execution is [true]
    exactly when the canonical first token of the candidate it is made
    for is the token the request sells.  A simulation names its
    candidate by the pool address, an execution carries the pair. *)
Definition directionHolds (sdk : Sdk) (fromMint : PublicKey)
    (candidate : Pair.t -> Prop) (c : Call) : Prop :=
  match c with
  | CSwapSimulation xToY _ _ _ poolAddress _ _ =>
      exists pair, candidate pair /\ poolAddress = getAddress sdk pair
                   /\ xToY = equals (Pair.tokenX pair) fromMint
  | CMarketSwap s _ =>
      candidate (Swap.pair s)
      /\ Swap.xToY s = equals (Pair.tokenX (Swap.pair s)) fromMint
  | _ => True
  end.

(** The quantity a simulation or an execution is asked to trade. *)
Definition quantityIs (q : BN) (c : Call) : Prop :=
  match c with
  | CSwapSimulation _ _ amount _ _ _ _ => amount = q
  | CMarketSwap s _ => Swap.amount s = q
  | _ => True
  end.

(** The call is made for a pool [P] holds of. *)
Definition madeFor (sdk : Sdk) (P : Pool.t -> Prop) (c : Call) : Prop :=
  match c with
  | CSwapSimulation _ _ _ _ poolAddress _ _ =>
      exists pool, P pool /\ poolAddress = getAddress sdk (pairOf sdk pool)
  | CMarketSwap s _ =>
      exists pool, P pool /\ Swap.pair s = pairOf sdk pool
  | _ => True
  end.

(** No simulation, and an execution only with the price bound [1]. *)
Definition placeholderPrice (c : Call) : Prop :=
  match c with
  | CSwapSimulation _ _ _ _ _ _ _ => False
  | CMarketSwap s _ => Swap.estimatedPriceAfterSwap s = 1
  | _ => True
  end.

(** In a trace, every execution stands right after a simulation of the
    same pool address, direction and quantity that returned status
    [Ok], and its price bound is the price that simulation predicted. *)
Fixpoint coupled (sdk : Sdk) (previous : option Call) (l : list Call) : Prop :=
  match l with
  | [] => True
  | c :: rest =>
      match c with
      | CMarketSwap s _ =>
          match previous with
          | Some (CSwapSimulation xToY byAmountIn amount slippage poolAddress _
                    (Ok simulation)) =>
              sim_status simulation = SimulationStatus.Ok
              /\ Swap.estimatedPriceAfterSwap s = priceAfterSwap simulation
              /\ poolAddress = getAddress sdk (Swap.pair s)
              /\ Swap.xToY s = xToY /\ Swap.amount s = amount
              /\ Swap.slippage s = slippage
          | _ => False
          end
      | _ => True
      end
      /\ coupled sdk (Some c) rest
  end.

(** The pair a script builds from two fixed mints. *)
Definition fixedPair (sdk : Sdk) (tokenA tokenB : PublicKey) (pair : Pair.t) : Prop :=
  exists feeTier, pair = new_Pair sdk tokenA tokenB feeTier.

(** The pairs [performTokenSwap] resolves for a request: those of the
    pools whose two tokens are the two tokens of the request. *)
Definition resolvedFor (sdk : Sdk) (fromMint toMint : PublicKey) (pair : Pair.t)
  : Prop :=
  exists pool, matchesPair fromMint toMint pool = true /\ pair = pairOf sdk pool.

(* ------------------------------------------------------------------ *)
(** ** The read-only routes of the server *)

(** One element of [poolData] in [GET /api/pools/:fromToken/:toToken]. *)
Record PoolData := {
  data_tokenX : string;
  data_tokenY : string;
  data_fee : BN;
  data_feePercent : Q;               (* before [toFixed(4)] *)
  data_tickSpacing : option Z
}.

Definition poolDataOf (pool : Pool.t) : Exc PoolData :=
  match BN_toNumber (Pool.fee pool) with
  | Ok feeNumber =>
      Ok {| data_tokenX := Pool.tokenX pool; data_tokenY := Pool.tokenY pool;
            data_fee := Pool.fee pool;
            data_feePercent := (inject_Z feeNumber / inject_Z 1000000000)%Q;
            data_tickSpacing := Pool.tickSpacing pool |}
  | Throw e => Throw e
  end.

(** [array.map(f)] for an [f] that can throw: the first throw ends it. *)
Fixpoint mapExc {A B : Type} (f : A -> Exc B) (l : list A) : Exc (list B) :=
  match l with
  | [] => Ok []
  | x :: r =>
      match f x with
      | Ok y => match mapExc f r with
                | Ok ys => Ok (y :: ys)
                | Throw e => Throw e
                end
      | Throw e => Throw e
      end
  end.

Inductive PoolsBody :=
| PoolsFound (pair : string) (poolsFound : nat) (pools : list PoolData)
| PoolsError (error : string).

Record PoolsAnswer := { answer_status : Z; answer_body : PoolsBody }.

(** [tokenStats[k] = (tokenStats[k] || 0) + 1] on an object whose keys
    keep the order in which they were first written. *)
Fixpoint bump (k : string) (stats : list (string * nat)) : list (string * nat) :=
  match stats with
  | [] => [(k, 1%nat)]
  | (k', n) :: r =>
      if String.eqb k k' then (k', S n) :: r else (k', n) :: bump k r
  end.

(** [tokenStats[k]], 0 standing for [undefined]. *)
Fixpoint statOf (k : string) (stats : list (string * nat)) : nat :=
  match stats with
  | [] => 0%nat
  | (k', n) :: r => if String.eqb k k' then n else statOf k r
  end.

(** The [forEach] of [GET /api/market/stats] over the pools. *)
Definition countPools (allPools : list Pool.t) : list (string * nat) :=
  fold_left
    (fun tokenStats pool =>
       bump (Pool.tokenY pool) (bump (Pool.tokenX pool) tokenStats))
    allPools [].

(** The [forEach] over the entries of the registry: the symbols whose
    mint has pools, with the number of those pools. *)
Fixpoint registeredWithPools (registry : list (string * TokenInfo))
    (tokenStats : list (string * nat)) : list (string * nat) :=
  match registry with
  | [] => []
  | (symbol, info) :: r =>
      match statOf (mint info) tokenStats with
      | O => registeredWithPools r tokenStats
      | S n => (symbol, S n) :: registeredWithPools r tokenStats
      end
  end.

Record MarketStats := {
  totalPools : nat;
  registeredTokensWithPools : list (string * nat);
  allTokenStats : list (string * nat)
}.

Inductive StatsBody :=
| StatsFound (stats : MarketStats)
| StatsError (error : string).

(** [Object.entries(TOKEN_REGISTRY).find(([, token]) =>
    token.mint.equals(mint))?.[0] || 'UNKNOWN'] *)
Definition symbolOfMint (m : PublicKey) : string :=
  match find (fun entry => equals (mint (snd entry)) m) TOKEN_REGISTRY with
  | Some (key, _) => key
  | None => "UNKNOWN"
  end.

(** One element of [poolsData] in [GET /api/pools/all]. *)
Record ListedPool := {
  listed_tokenX : string;
  listed_tokenY : string;
  listed_fee : BN;
  listed_tickSpacing : option Z;
  listed_feePercent : Q;             (* before [toFixed(6)] *)
  listed_tokenXSymbol : string;
  listed_tokenYSymbol : string
}.

Definition listedPoolOf (pool : Pool.t) : Exc ListedPool :=
  match BN_toNumber (Pool.fee pool) with
  | Ok feeNumber =>
      Ok {| listed_tokenX := Pool.tokenX pool; listed_tokenY := Pool.tokenY pool;
            listed_fee := Pool.fee pool;
            listed_tickSpacing := Pool.tickSpacing pool;
            listed_feePercent := (inject_Z feeNumber / inject_Z 1000000000)%Q;
            listed_tokenXSymbol := symbolOfMint (Pool.tokenX pool);
            listed_tokenYSymbol := symbolOfMint (Pool.tokenY pool) |}
  | Throw e => Throw e
  end.

Section ReadOnlyRoutes.
Context {World : Type}.
Variable ledger : LedgerClient World.
Variable sdk : Sdk.

(** The [try] block of [GET /api/pools/:fromToken/:toToken]. *)
Definition pools_handler (fromToken toToken : string) : M World PoolsBody :=
  fromTokenInfo <- lift (getTokenInfo fromToken) ;;
  toTokenInfo <- lift (getTokenInfo toToken) ;;
  initializeMarket ledger ;;;
  pools <- findBestPoolForPair ledger (mint fromTokenInfo) (mint toTokenInfo) ;;
  poolData <- lift (mapExc poolDataOf pools) ;;
  ret (PoolsFound (fromToken ++ "/" ++ toToken) (List.length pools) poolData).

Definition api_pools (fromToken toToken : string) (st : State World)
  : PoolsAnswer * State World :=
  match pools_handler fromToken toToken st with
  | (Ok body, st') => ({| answer_status := 200; answer_body := body |}, st')
  | (Throw message, st') =>
      ({| answer_status := 400; answer_body := PoolsError message |}, st')
  end.

(** The [try] block of [GET /api/pools/all]: the number of pools and
    the list. *)
Definition all_pools_handler : M World (nat * list ListedPool) :=
  initializeMarket ledger ;;;
  allPools <- await (getAllPools ledger) CGetAllPools ;;
  poolsData <- lift (mapExc listedPoolOf allPools) ;;
  ret (List.length allPools, poolsData).

(** The [try] block of [GET /api/pool/:tokenA/:tokenB/info]: it calls
    [findPoolForTokenPair], which the server does not define.  (The
    line the [catch] of this route and of the route above writes with
    [console.error] is not among the lines of [LogLine].) *)
Definition pool_info_handler (tokenA tokenB : string) : M World PoolsBody :=
  tokenAInfo <- lift (getTokenInfo tokenA) ;;
  tokenBInfo <- lift (getTokenInfo tokenB) ;;
  initializeMarket ledger ;;;
  throw "findPoolForTokenPair is not defined".

Definition api_pool_info (tokenA tokenB : string) (st : State World)
  : PoolsAnswer * State World :=
  match pool_info_handler tokenA tokenB st with
  | (Ok body, st') => ({| answer_status := 200; answer_body := body |}, st')
  | (Throw message, st') =>
      ({| answer_status := 500; answer_body := PoolsError message |}, st')
  end.

(** The [try] block of [GET /api/market/stats]. *)
Definition market_stats_handler : M World MarketStats :=
  initializeMarket ledger ;;;
  allPools <- await (getAllPools ledger) CGetAllPools ;;
  let tokenStats := countPools allPools in
  ret {| totalPools := List.length allPools;
         registeredTokensWithPools := registeredWithPools TOKEN_REGISTRY tokenStats;
         allTokenStats := tokenStats |}.

Definition api_market_stats (st : State World) : (Z * StatsBody) * State World :=
  match market_stats_handler st with
  | (Ok stats, st') => ((200, StatsFound stats), st')
  | (Throw message, st') => ((500, StatsError message), st')
  end.

End ReadOnlyRoutes.

(* ------------------------------------------------------------------ *)
(** ** The script [app.ts]: the swap over the pools of the Ledger

    As for the other scripts, what the script prints is left out; the
    line that prints the fee stays, for its [toNumber], which can
    throw. *)

Module AppSmart.

Section Script.
Context {World : Type}.
Variable ledger : LedgerClient World.
Variable sdk : Sdk.
Variable keypair : PublicKey.

(** The matching pools, in the order of the enumeration, each with the
    address of the pair made of its tokens and fee.  ([new Pair] and
    [getAddress] are total here, so that the [catch] around them is
    never entered.) *)
Definition getPoolsForTokenPair (tokenA tokenB : PublicKey)
  : M World (list (Pool.t * PublicKey)) :=
  allPools <- await (getAllPools ledger) CGetAllPools ;;
  let matchingPools := filter (matchesPair tokenA tokenB) allPools in
  ret (map (fun pool => (pool, getAddress sdk (pairOf sdk pool))) matchingPools).

(** The inner [try] block for one pool; [true] is the [return] after a
    swap, [false] the [continue] after a simulation that is not [Ok]. *)
Definition attempt (swapAmount : BN) (pool : Pool.t) (address : PublicKey)
  : M World bool :=
  let pair := pairOf sdk pool in
  let xToY := equals (Pair.tokenX pair) App.ETH_MINT in
  let accountX :=
    getAssociatedTokenAddressSync sdk (Pair.tokenX pair) keypair
      (App.programOf (Pair.tokenX pair)) in
  let accountY :=
    getAssociatedTokenAddressSync sdk (Pair.tokenY pair) keypair
      (App.programOf (Pair.tokenY pair)) in
  let slippage := toDecimal sdk 0 0 in
  simulation <-
    await (swapSimulation ledger xToY true swapAmount slippage address
             TICK_CROSSES_PER_IX_NATIVE_TOKEN)
          (CSwapSimulation xToY true swapAmount slippage address
             TICK_CROSSES_PER_IX_NATIVE_TOKEN) ;;
  if negb (SimulationStatus.is_Ok (sim_status simulation)) then ret false
  else
    let args :=
      Swap.mk xToY (priceAfterSwap simulation) pair swapAmount slippage true
              accountX accountY keypair in
    await (market_swap ledger args) (CMarketSwap args) ;;;
    ret true.

(** [for (let i = 0; ...)] over the pools of one pair.  The line that
    prints the fee, with [pool.fee.toNumber()], stands before the inner
    [try]. *)
Fixpoint tryEach (swapAmount : BN) (poolsWithAddresses : list (Pool.t * PublicKey))
  : M World bool :=
  match poolsWithAddresses with
  | [] => ret false
  | (pool, address) :: rest =>
      lift (BN_toNumber (Pool.fee pool)) ;;;
      done <- try_catch (attempt swapAmount pool address) (fun _ => ret false) ;;
      if done then ret true else tryEach swapAmount rest
  end.

(** [for (const { tokenA, tokenB, name } of tokenPairs)] with its outer
    [try] and [catch]. *)
Fixpoint tryPairs (swapAmount : BN) (tokenPairs : list (PublicKey * PublicKey))
  : M World bool :=
  match tokenPairs with
  | [] => ret false
  | (tokenA, tokenB) :: rest =>
      done <- try_catch
                (poolsWithAddresses <- getPoolsForTokenPair tokenA tokenB ;;
                 tryEach swapAmount poolsWithAddresses)
                (fun _ => ret false) ;;
      if done then ret true else tryPairs swapAmount rest
  end.

Definition smartSwapEthToUsdt : M World unit :=
  wrappedSolBalance <- App.getAvailableWrappedSolBalance ledger sdk keypair ;;
  let swapAmount := App.fortyPercent wrappedSolBalance in
  if swapAmount =? 0 then ret tt
  else
    tryPairs swapAmount
      [(App.ETH_MINT, App.USDT_MINT); (App.ETH_MINT, App.USDC_MINT)] ;;;
    ret tt.

End Script.
End AppSmart.

(* ------------------------------------------------------------------ *)
(** ** More to say about a computation and its calls *)

(** [m] never throws. *)
Definition neverThrows {World A} (m : M World A) : Prop :=
  forall st : State World, exists a, fst (m st) = Ok a.

(** The calls [m] adds to the trace satisfy [T]. *)
Definition leaves {World A} (T : list Call -> Prop) (m : M World A) : Prop :=
  forall st : State World,
  exists new : list Call,
    calls (snd (m st)) = (calls st ++ new)%list /\ T new.

(** Whatever call came before, every execution of the trace stands
    right after its own simulation. *)
Definition selfCoupled (sdk : Sdk) (l : list Call) : Prop :=
  forall previous, coupled sdk previous l.

(** The pools the script [smartSwapEthToUsdt] looks for. *)
Definition smartPool (pool : Pool.t) : Prop :=
  matchesPair App.ETH_MINT App.USDT_MINT pool = true
  \/ matchesPair App.ETH_MINT App.USDC_MINT pool = true.

Definition isGetAccount (c : Call) : bool :=
  match c with CGetAccount _ _ _ => true | _ => false end.

Definition isSendTransaction (c : Call) : bool :=
  match c with CSendTransaction _ _ => true | _ => false end.

Definition isDiscovery (c : Call) : bool :=
  match c with CMarketBuild _ | CGetAllPools _ => true | _ => false end.

(** The pool addresses of the simulations of a trace, in order. *)
Fixpoint simulatedAddresses (l : list Call) : list PublicKey :=
  match l with
  | [] => []
  | CSwapSimulation _ _ _ _ poolAddress _ _ :: rest =>
      poolAddress :: simulatedAddresses rest
  | _ :: rest => simulatedAddresses rest
  end.

(** A call that only reads: market, enumeration or simulation. *)
Definition readsOnly (c : Call) : Prop :=
  match c with
  | CMarketBuild _ | CGetAllPools _ | CSwapSimulation _ _ _ _ _ _ _ => True
  | _ => False
  end.

(** The two accounts of an execution are the owner's accounts for the
    token sold and the token bought, in one order or the other. *)
Definition usesAccounts (accountFrom accountTo : PublicKey) (c : Call) : Prop :=
  match c with
  | CMarketSwap s _ =>
      (Swap.accountX s = accountFrom /\ Swap.accountY s = accountTo)
      \/ (Swap.accountX s = accountTo /\ Swap.accountY s = accountFrom)
  | _ => True
  end.

(** An execution the Ledger accepted. *)
Definition isAccepted (c : Call) : bool :=
  match c with CMarketSwap _ (Ok _) => true | _ => false end.

(** A balance check looks at, and a transaction creates, only accounts
    of the list. *)
Definition checksOnly (accounts : list PublicKey) (c : Call) : Prop :=
  match c with
  | CGetAccount address _ _ => In address accounts
  | CSendTransaction instructions _ =>
      Forall (fun ix => In (ix_address ix) accounts) instructions
  | _ => True
  end.

(** A fee [toNumber] can read. *)
Definition safeFee (pool : Pool.t) : Prop := Z.abs (Pool.fee pool) < MAX_SAFE.

(** Of the calls [m] adds to the trace, at most [n] satisfy [f]. *)
Definition atMost {World A} (f : Call -> bool) (n : nat) (m : M World A) : Prop :=
  forall st : State World,
  exists new : list Call,
    calls (snd (m st)) = (calls st ++ new)%list
    /\ (List.length (filter f new) <= n)%nat.

(** ASCII text: every character code is below 128.  On such text
    [toUpperCase] is what JavaScript computes. *)
Fixpoint asciiText (s : string) : bool :=
  match s with
  | EmptyString => true
  | String c r => (nat_of_ascii c <? 128)%nat && asciiText r
  end.

(** The bodies the validation of [POST /api/swap] lets through, with
    symbols of ASCII text: the four fields present and not empty, two
    different symbols, a positive amount, a slippage between 0 and 50. *)
Definition validSwapBody (body : SwapBody) (fromToken toToken : string)
    (amount : Q) (privateKey : string) : Prop :=
  body_fromToken body = Some fromToken /\ body_toToken body = Some toToken
  /\ body_amount body = Some amount /\ body_privateKey body = Some privateKey
  /\ asciiText fromToken = true /\ asciiText toToken = true
  /\ fromToken <> "" /\ toToken <> "" /\ privateKey <> ""
  /\ toUpperCase fromToken <> toUpperCase toToken
  /\ (0 < amount)%Q
  /\ (0 <= slippage_of body)%Q /\ (slippage_of body <= 50)%Q.

(** The element of [poolData] for a pool whose fee [toNumber] can read. *)
Definition poolDataFor (pool : Pool.t) : PoolData :=
  {| data_tokenX := Pool.tokenX pool; data_tokenY := Pool.tokenY pool;
     data_fee := Pool.fee pool;
     data_feePercent := (inject_Z (Pool.fee pool) / inject_Z 1000000000)%Q;
     data_tickSpacing := Pool.tickSpacing pool |}.

(** The symbol [key] stands for the mint [m]: it resolves to a token of
    that mint, or it is the text 'UNKNOWN' and no symbol resolves to a
    token of that mint. *)
Definition namesMint (m : PublicKey) (key : string) : Prop :=
  (exists token, getTokenInfo key = Ok token /\ mint token = m)
  \/ (key = "UNKNOWN"
      /\ forall s token, getTokenInfo s = Ok token -> mint token <> m).

(** The lines the loop of [performTokenSwap] writes for the calls of a
    trace, the first candidate being number [k]: for each candidate,
    the status its simulation reported, or the message its simulation
    or its execution threw; after an execution that was accepted, the
    only way on is the message of [toNumber]. *)
Fixpoint reasonsOf (k : nat) (l : list Call) : list LogLine :=
  match l with
  | [] => []
  | CSwapSimulation _ _ _ _ _ _ (Throw e) :: rest =>
      PoolFailed k e :: reasonsOf (S k) rest
  | CSwapSimulation _ _ _ _ _ _ (Ok simulation) :: rest =>
      match rest with
      | CMarketSwap _ (Throw e) :: rest' => PoolFailed k e :: reasonsOf (S k) rest'
      | CMarketSwap _ (Ok _) :: rest' =>
          PoolFailed k "Number can only safely store up to 53 bits"
            :: reasonsOf (S k) rest'
      | _ => PoolSimulationFailed k (sim_status simulation) :: reasonsOf (S k) rest
      end
  | _ :: rest => reasonsOf k rest
  end.

(** A list of calls that does not start with an execution. *)
Definition simulationFirst (l : list Call) : Prop :=
  match l with
  | CMarketSwap _ _ :: _ => False
  | _ => True
  end.

(* ------------------------------------------------------------------ *)
(** ** A scripted Ledger and sample requests *)

Module Sample.

Definition render (z : Z) : string := NilZero.string_of_int (Z.to_int z).

Definition sdk : Sdk := {|
  key_lt := lexicographic_lt;
  getAddress pair :=
    "pool:" ++ Pair.tokenX pair ++ "/" ++ Pair.tokenY pair ++ "@"
      ++ render (ft_fee (Pair.feeTier pair));
  getAssociatedTokenAddressSync token owner _ := "ata:" ++ owner ++ ":" ++ token;
  toDecimal x decimalPlaces := trunc (x * inject_Z (10 ^ (12 - decimalPlaces)))%Q;
  Keypair_fromBase58 secret :=
    match secret with
    | EmptyString => None
    | _ => Some ("pub:" ++ secret)
    end
|}.

(** The world of the scripted Ledger counts the calls it has answered. *)
Definition ledger (pools : list Pool.t) (balance : BN)
    (simulate : PublicKey -> Exc Simulation) (execute : Swap.t -> Exc string)
  : LedgerClient nat := {|
  Market_build w := (Ok tt, S w);
  getAllPools w := (Ok pools, S w);
  getAccount _ _ w := (Ok balance, S w);
  sendAndConfirmTransaction _ w := (Ok "signature", S w);
  swapSimulation _ _ _ _ poolAddress _ w := (simulate poolAddress, S w);
  market_swap s w := (execute s, S w)
|}.

Definition start : State nat := {| world := 0%nat; calls := []; console := [] |}.

Definition USDT : PublicKey := "CEBP3CqAbW4zdZA57H2wfaSG1QNdzQ72GiQEbQXyW9Tm".
Definition USDC : PublicKey := "AKEWE7Bgh87GPp171b4cJPSSZfmZwQ3KaqYqXoKLNAEE".
Definition WBTC : PublicKey := "9n4nbM75f5Ui33ZbPYXn59EwSgE8CGsHtAeTH5YFeJ9E".

Definition cheap : Pool.t := Pool.mk USDT NATIVE_MINT 100000000 (Some 1).
Definition dear : Pool.t := Pool.mk USDT NATIVE_MINT 500000000 (Some 5).
Definition foreign : Pool.t := Pool.mk USDC WBTC 100000000 (Some 1).

Definition accepted (price out : BN) : Simulation :=
  {| sim_status := SimulationStatus.Ok; priceAfterSwap := price;
     accumulatedAmountOut := Some out; priceImpact := None |}.

Definition refused (reason : string) : Simulation :=
  {| sim_status := SimulationStatus.Other reason; priceAfterSwap := 0;
     accumulatedAmountOut := None; priceImpact := None |}.

Definition ethInfo : TokenInfo :=
  {| mint := NATIVE_MINT; symbol := "ETH"; name := "Ethereum (Native SOL)";
     decimals := 9; tokenProgram := TOKEN_PROGRAM_ID |}.

Definition usdtInfo : TokenInfo :=
  {| mint := USDT; symbol := "USDT"; name := "Tether USD"; decimals := 6;
     tokenProgram := TOKEN_2022_PROGRAM_ID |}.

(** One ETH for USDT, slippage 0.5. *)
Definition ctx : SwapContext :=
  {| ctx_fromToken := "ETH"; ctx_toToken := "USDT"; ctx_amount := 1 # 1;
     ctx_slippagePercent := 1 # 2; ctx_owner := "pub:key";
     ctx_fromTokenInfo := ethInfo; ctx_toTokenInfo := usdtInfo;
     ctx_swapAmount := 1000000000 |}.

(** The cheap pool refuses the trade, the dear one takes it. *)
Definition secondOnly (poolAddress : PublicKey) : Exc Simulation :=
  if String.eqb poolAddress (getAddress sdk (pairOf sdk cheap))
  then Ok (refused "LimitReached")
  else Ok (accepted 777 2500000000).

Definition fallback : LedgerClient nat :=
  ledger [dear; cheap] 0 secondOnly (fun _ => Ok "tx-dear").

(** Every simulation is refused, or every simulation throws. *)
Definition allRefused : LedgerClient nat :=
  ledger [cheap; dear] 0 (fun _ => Ok (refused "LimitReached"))
         (fun _ => Ok "never").

Definition allThrow : LedgerClient nat :=
  ledger [cheap; dear] 0 (fun _ => Throw "Account does not exist or has no data")
         (fun _ => Ok "never").

(** Every simulation and every execution succeeds. *)
Definition willing (pools : list Pool.t) : LedgerClient nat :=
  ledger pools 5000000000 (fun _ => Ok (accepted 777 2500000000))
         (fun _ => Ok "tx").

Definition swapBody (fromToken toToken : string) (amount slippage : Q) : SwapBody :=
  {| body_fromToken := Some fromToken; body_toToken := Some toToken;
     body_amount := Some amount; body_slippage := Some slippage;
     body_privateKey := Some "key" |}.

End Sample.

(** Further scripted Ledgers: one that cannot be reached, one whose
    wallet holds two units of wrapped balance. *)
Module Scripted.

Definition offline : LedgerClient nat := {|
  Market_build w := (Throw "fetch failed", S w);
  getAllPools w := (Throw "fetch failed", S w);
  getAccount _ _ w := (Throw "fetch failed", S w);
  sendAndConfirmTransaction _ w := (Throw "fetch failed", S w);
  swapSimulation _ _ _ _ _ _ w := (Throw "fetch failed", S w);
  market_swap _ w := (Throw "fetch failed", S w)
|}.

Definition poor : LedgerClient nat :=
  Sample.ledger [Sample.cheap] 2 (fun _ => Ok (Sample.accepted 777 2500000000))
                (fun _ => Ok "tx").

End Scripted.

(* ================================================================== *)
(** * Properties *)

(* ------------------------------------------------------------------ *)
(** ** Pool discovery: order of the candidates *)

Lemma BN_cmp_le (a b : BN) : (BN_cmp a b <=? 0) = (a <=? b).
Proof.
  unfold BN_cmp. destruct (Z.compare_spec a b) as [e | l | g].
  - subst. symmetry. now apply Z.leb_le.
  - symmetry. apply Z.leb_le. lia.
  - symmetry. apply Z.leb_gt. lia.
Qed.

Section SortByKey.
Variable A : Type.
Variable key : A -> Z.

Lemma sort_insert_In (x y : A) (l : list A) :
  In y (sort_insert (compareBy key) x l) <-> y = x \/ In y l.
Proof.
  induction l as [| z r IH]; simpl.
  - intuition congruence.
  - destruct ((compareBy key) x z <=? 0); simpl.
    + intuition congruence.
    + rewrite IH. intuition congruence.
Qed.

Lemma sort_insert_perm (x : A) (l : list A) :
  Permutation (x :: l) (sort_insert (compareBy key) x l).
Proof.
  induction l as [| z r IH]; simpl.
  - apply Permutation_refl.
  - destruct ((compareBy key) x z <=? 0).
    + apply Permutation_refl.
    + eapply perm_trans; [apply perm_swap |]. now apply perm_skip.
Qed.

Lemma Array_sort_perm (l : list A) : Permutation l (Array_sort (compareBy key) l).
Proof.
  induction l as [| x r IH]; simpl.
  - apply perm_nil.
  - eapply perm_trans; [apply perm_skip, IH | apply sort_insert_perm].
Qed.

Lemma sort_insert_sorted (x : A) (l : list A) :
  StronglySorted (fun a b => key a <= key b) l ->
  StronglySorted (fun a b => key a <= key b) (sort_insert (compareBy key) x l).
Proof.
  induction 1 as [| z r Hr IH Hz]; simpl.
  - repeat constructor.
  - unfold compareBy at 1. rewrite BN_cmp_le.
    destruct (Z.leb_spec (key x) (key z)) as [le | gt].
    + constructor; [now constructor |].
      constructor; [exact le |].
      rewrite Forall_forall in *. intros y Hy. specialize (Hz y Hy). lia.
    + constructor; [exact IH |].
      rewrite Forall_forall in *. intros y Hy.
      apply sort_insert_In in Hy. destruct Hy as [-> | Hy]; [lia | auto].
Qed.

Lemma Array_sort_sorted (l : list A) :
  StronglySorted (fun a b => key a <= key b) (Array_sort (compareBy key) l).
Proof.
  induction l as [| x r IH]; simpl; [constructor | now apply sort_insert_sorted].
Qed.

(** Stability: the elements of one key stand in the order they had. *)
Lemma sort_insert_stable (k : Z) (x : A) (l : list A) :
  filter (fun a => key a =? k) (sort_insert (compareBy key) x l)
  = filter (fun a => key a =? k) (x :: l).
Proof.
  induction l as [| z r IH]; [reflexivity |].
  cbn [sort_insert]. unfold compareBy at 1. rewrite BN_cmp_le.
  destruct (Z.leb_spec (key x) (key z)) as [le | gt]; [reflexivity |].
  cbn [filter] in *. rewrite IH.
  destruct (Z.eqb_spec (key z) k), (Z.eqb_spec (key x) k); try reflexivity; lia.
Qed.

Lemma Array_sort_stable (k : Z) (l : list A) :
  filter (fun a => key a =? k) (Array_sort (compareBy key) l)
  = filter (fun a => key a =? k) l.
Proof.
  induction l as [| x r IH]; [reflexivity |].
  cbn [Array_sort]. rewrite sort_insert_stable. cbn [filter]. now rewrite IH.
Qed.

End SortByKey.

Lemma relevantPools_In (allPools : list Pool.t) (tokenA tokenB : PublicKey)
    (pool : Pool.t) :
  In pool (relevantPools allPools tokenA tokenB) <->
  In pool allPools /\ matchesPair tokenA tokenB pool = true.
Proof.
  unfold relevantPools. rewrite <- filter_In. split; intro H.
  - eapply Permutation_in; [apply Permutation_sym, Array_sort_perm with (key := Pool.fee) | exact H].
  - eapply Permutation_in; [apply Array_sort_perm with (key := Pool.fee) | exact H].
Qed.

Lemma relevantPools_sorted (allPools : list Pool.t) (tokenA tokenB : PublicKey) :
  StronglySorted (fun a b => Pool.fee a <= Pool.fee b)
                 (relevantPools allPools tokenA tokenB).
Proof. apply Array_sort_sorted with (key := Pool.fee). Qed.

(** C3.  For every pair of requested tokens and every enumeration of the
    Ledger, the candidates of pool discovery are in non-decreasing order
    of fee, they are the pools of the enumeration that match the pair,
    and the pools of one fee keep the order of the enumeration. *)
Theorem discovery_sorted_and_stable
    (allPools : list Pool.t) (tokenA tokenB : PublicKey) :
  let candidates := relevantPools allPools tokenA tokenB in
  StronglySorted (fun a b => Pool.fee a <= Pool.fee b) candidates
  /\ Permutation (filter (matchesPair tokenA tokenB) allPools) candidates
  /\ forall f : BN,
       filter (fun p => Pool.fee p =? f) candidates
       = filter (fun p => Pool.fee p =? f)
                (filter (matchesPair tokenA tokenB) allPools).
Proof.
  cbv zeta. unfold relevantPools. split; [| split].
  - apply relevantPools_sorted.
  - apply Array_sort_perm with (key := Pool.fee).
  - intro f. apply Array_sort_stable with (key := Pool.fee).
Qed.

(* ------------------------------------------------------------------ *)
(** ** The routing loop, one pool at a time *)

Lemma callsSince_app {World} (st st' : State World) (new : list Call) :
  calls st' = (calls st ++ new)%list -> callsSince st st' = new.
Proof.
  intro H. unfold callsSince. rewrite H.
  rewrite skipn_app, skipn_all, Nat.sub_diag. reflexivity.
Qed.

Lemma linesSince_app {World} (st st' : State World) (new : list LogLine) :
  console st' = (console st ++ new)%list -> linesSince st st' = new.
Proof.
  intro H. unfold linesSince. rewrite H.
  rewrite skipn_app, skipn_all, Nat.sub_diag. reflexivity.
Qed.

Section Loop.
Context {World : Type}.
Variable ledger : LedgerClient World.
Variable sdk : Sdk.
Variable ctx : SwapContext.

(** One turn of the loop, by the answers of the Ledger. *)
Lemma tryPool_cases (i : nat) (pool : Pool.t) (st : State World) :
  match simulate ledger sdk ctx pool (world st) with
  | (Throw e, w1) =>
      tryPool ledger sdk ctx i pool st =
      (Ok None,
       {| world := w1;
          calls := (calls st ++ [simulationCall sdk ctx pool (Throw e)])%list;
          console := (console st ++ [PoolFailed (i + 1) e])%list |})
  | (Ok simulation, w1) =>
      if SimulationStatus.is_Ok (sim_status simulation) then
        match market_swap ledger (swapArgs sdk ctx pool simulation) w1 with
        | (Throw e, w2) =>
            tryPool ledger sdk ctx i pool st =
            (Ok None,
             {| world := w2;
                calls := (calls st ++
                          [simulationCall sdk ctx pool (Ok simulation);
                           CMarketSwap (swapArgs sdk ctx pool simulation) (Throw e)])%list;
                console := (console st ++ [PoolFailed (i + 1) e])%list |})
        | (Ok txHash, w2) =>
            match BN_toNumber (Pool.fee pool) with
            | Throw e =>
                tryPool ledger sdk ctx i pool st =
                (Ok None,
                 {| world := w2;
                    calls := (calls st ++
                              [simulationCall sdk ctx pool (Ok simulation);
                               CMarketSwap (swapArgs sdk ctx pool simulation)
                                 (Ok txHash)])%list;
                    console := (console st ++ [PoolFailed (i + 1) e])%list |})
            | Ok feeNumber =>
                tryPool ledger sdk ctx i pool st =
                (Ok (Some (resultOf sdk ctx pool simulation txHash feeNumber)),
                 {| world := w2;
                    calls := (calls st ++
                              [simulationCall sdk ctx pool (Ok simulation);
                               CMarketSwap (swapArgs sdk ctx pool simulation)
                                 (Ok txHash)])%list;
                    console := console st |})
            end
        end
      else
        tryPool ledger sdk ctx i pool st =
        (Ok None,
         {| world := w1;
            calls := (calls st ++ [simulationCall sdk ctx pool (Ok simulation)])%list;
            console := (console st ++
                        [PoolSimulationFailed (i + 1) (sim_status simulation)])%list |})
  end.
Proof.
  unfold tryPool, attemptPool, try_catch, bind, await, simulate.
  fold (xToYOf sdk ctx pool) (slippageOf sdk ctx) (poolAddressOf sdk pool).
  cbn [world calls console].
  destruct (swapSimulation ledger _ _ _ _ _ _ (world st)) as [[simulation | e] w1];
    [| reflexivity].
  destruct (SimulationStatus.is_Ok (sim_status simulation)); cbn [negb];
    [| reflexivity].
  unfold bind, await, lift, ret. cbn [world calls console].
  change (Swap.mk _ _ _ _ _ _ _ _ _) with (swapArgs sdk ctx pool simulation).
  destruct (market_swap ledger _ w1) as [[txHash | e] w2].
  - destruct (BN_toNumber (Pool.fee pool)) as [feeNumber | e];
      unfold console_log, bind, ret; cbn [world calls console];
      rewrite <- app_assoc; reflexivity.
  - unfold console_log, bind, ret; cbn [world calls console].
    rewrite <- app_assoc. reflexivity.
Qed.

End Loop.

Section LoopFacts.
Context {World : Type}.
Variable ledger : LedgerClient World.
Variable sdk : Sdk.
Variable ctx : SwapContext.

Lemma Attempted_incl (pools pools' : list Pool.t) (l : list Call) :
  incl pools pools' -> Attempted sdk ctx pools l -> Attempted sdk ctx pools' l.
Proof.
  intros Hincl H. induction H; [constructor | constructor 2 | constructor 3]; auto.
Qed.

(** The whole of one turn: it never throws, its calls are those of the
    pool, and it writes one line exactly when it goes on to the next
    pool. *)
Lemma tryPool_turn (i : nat) (pool : Pool.t) (st : State World) :
  exists r st' new lines,
    tryPool ledger sdk ctx i pool st = (Ok r, st')
    /\ calls st' = (calls st ++ new)%list
    /\ console st' = (console st ++ lines)%list
    /\ Attempted sdk ctx [pool] new
    /\ match r with
       | None => exists line, lines = [line] /\ poolNumber line = (i + 1)%nat
       | Some result =>
           lines = []
           /\ exists simulation txHash feeNumber,
                result = resultOf sdk ctx pool simulation txHash feeNumber
                /\ In (CMarketSwap (swapArgs sdk ctx pool simulation) (Ok txHash)) new
       end.
Proof.
  pose proof (tryPool_cases ledger sdk ctx i pool st) as H.
  destruct (simulate ledger sdk ctx pool (world st)) as [[simulation | e] w1].
  - destruct (SimulationStatus.is_Ok (sim_status simulation)) eqn:Hok.
    + assert (Hst : sim_status simulation = SimulationStatus.Ok)
        by (destruct (sim_status simulation); [reflexivity | discriminate]).
      destruct (market_swap ledger _ w1) as [[txHash | e] w2].
      * destruct (BN_toNumber (Pool.fee pool)) as [feeNumber | e]; rewrite H.
        -- eexists _, _, _, []. split; [reflexivity |]. cbn [calls console].
           split; [reflexivity |]. split; [now rewrite app_nil_r |].
           split; [constructor 3; [now left | exact Hst | constructor] |].
           split; [reflexivity |].
           exists simulation, txHash, feeNumber. split; [reflexivity |].
           right. now left.
        -- do 4 eexists. split; [reflexivity |]. cbn [calls console].
           split; [reflexivity |]. split; [reflexivity |].
           split; [constructor 3; [now left | exact Hst | constructor] |].
           eexists. split; reflexivity.
      * rewrite H. do 4 eexists. split; [reflexivity |]. cbn [calls console].
        split; [reflexivity |]. split; [reflexivity |].
        split; [constructor 3; [now left | exact Hst | constructor] |].
        eexists. split; reflexivity.
    + rewrite H. do 4 eexists. split; [reflexivity |]. cbn [calls console].
      split; [reflexivity |]. split; [reflexivity |].
      split; [constructor 2; [now left | constructor] |].
      eexists. split; reflexivity.
  - rewrite H. do 4 eexists. split; [reflexivity |]. cbn [calls console].
    split; [reflexivity |]. split; [reflexivity |].
    split; [constructor 2; [now left | constructor] |].
    eexists. split; reflexivity.
Qed.

Lemma Attempted_app (pools : list Pool.t) (l1 l2 : list Call) :
  Attempted sdk ctx pools l1 -> Attempted sdk ctx pools l2 ->
  Attempted sdk ctx pools (l1 ++ l2)%list.
Proof.
  intros H1 H2. induction H1; cbn [app]; [exact H2 | constructor 2 | constructor 3]; auto.
Qed.

(** The loop: it never throws; its calls are attempts on its pools; when
    it comes to the end without a result it has written one line for
    each pool, in the order of the pools. *)
Lemma tryPools_run (pools : list Pool.t) :
  forall (i : nat) (st : State World),
  exists r st' new lines,
    tryPools ledger sdk ctx i pools st = (Ok r, st')
    /\ calls st' = (calls st ++ new)%list
    /\ console st' = (console st ++ lines)%list
    /\ Attempted sdk ctx pools new
    /\ match r with
       | None => map poolNumber lines = seq (i + 1) (List.length pools)
       | Some result =>
           exists pool simulation txHash feeNumber,
             In pool pools
             /\ result = resultOf sdk ctx pool simulation txHash feeNumber
             /\ In (CMarketSwap (swapArgs sdk ctx pool simulation) (Ok txHash)) new
       end.
Proof.
  induction pools as [| pool rest IH]; intros i st.
  - exists None, st, [], []. cbn. rewrite !app_nil_r.
    repeat split; constructor.
  - destruct (tryPool_turn i pool st) as (r & st1 & new1 & lines1 & E & Hc & Hl & Ha & Hr).
    cbn [tryPools]. unfold bind at 1. rewrite E.
    destruct r as [result |].
    + destruct Hr as (-> & simulation & txHash & feeNumber & -> & Hin).
      exists (Some (resultOf sdk ctx pool simulation txHash feeNumber)), st1, new1, [].
      split; [reflexivity |]. split; [exact Hc |]. split; [exact Hl |].
      split; [eapply Attempted_incl; [| exact Ha]; intros x [-> | []]; now left |].
      exists pool, simulation, txHash, feeNumber. repeat split; auto. now left.
    + destruct Hr as (line & -> & Hn).
      destruct (IH (S i) st1) as (r & st2 & new2 & lines2 & E2 & Hc2 & Hl2 & Ha2 & Hr2).
      exists r, st2, (new1 ++ new2)%list, (line :: lines2).
      split; [exact E2 |].
      split; [rewrite Hc2, Hc; now rewrite app_assoc |].
      split; [rewrite Hl2, Hl; now rewrite <- app_assoc |].
      split.
      * apply Attempted_app.
        -- eapply Attempted_incl; [| exact Ha]. intros x [-> | []]. now left.
        -- eapply Attempted_incl; [| exact Ha2]. intros x Hx. now right.
      * destruct r as [result |].
        -- destruct Hr2 as (p & simulation & txHash & feeNumber & Hp & -> & Hin).
           exists p, simulation, txHash, feeNumber.
           repeat split; [now right | apply in_or_app; now right].
        -- cbn [map List.length seq]. rewrite Hn.
           replace (S i + 1)%nat with (S (i + 1)) in Hr2 by lia.
           now rewrite Hr2.
Qed.

Lemma tryPools_app (pre post : list Pool.t) :
  forall (i : nat) (st : State World),
  tryPools ledger sdk ctx i (pre ++ post) st =
  match tryPools ledger sdk ctx i pre st with
  | (Ok None, st1) => tryPools ledger sdk ctx (i + List.length pre) post st1
  | other => other
  end.
Proof.
  induction pre as [| pool pre IH]; intros i st.
  - cbn. now rewrite Nat.add_0_r.
  - cbn [app tryPools List.length]. unfold bind.
    destruct (tryPool ledger sdk ctx i pool st) as [[[result |] | e] st1];
      try reflexivity.
    rewrite IH. now replace (S i + List.length pre)%nat with (i + S (List.length pre))%nat by lia.
Qed.

End LoopFacts.

(* ------------------------------------------------------------------ *)
(** ** [performTokenSwap] around the loop *)

Section Emits.
Context {World : Type}.
Variable P : Call -> Prop.

Lemma emits_ret {A} (a : A) : emits (World := World) P (ret a).
Proof. intro st. exists []. cbn. now rewrite app_nil_r. Qed.

Lemma emits_throw {A} (e : string) : emits (World := World) (A := A) P (throw e).
Proof. intro st. exists []. cbn. now rewrite app_nil_r. Qed.

Lemma emits_lift {A} (x : Exc A) : emits (World := World) P (lift x).
Proof. intro st. exists []. cbn. now rewrite app_nil_r. Qed.

Lemma emits_await {A} (op : World -> Exc A * World) (record : Exc A -> Call) :
  (forall r, P (record r)) -> emits P (await op record).
Proof.
  intros H st. unfold await. destruct (op (world st)) as [r w]. cbn.
  exists [record r]. repeat split. constructor; [apply H | constructor].
Qed.

Lemma emits_bind {A B} (m : M World A) (k : A -> M World B) :
  emits P m -> (forall a, emits P (k a)) -> emits P (bind m k).
Proof.
  intros Hm Hk st. unfold bind. destruct (Hm st) as (new1 & C1 & F1 & L1).
  destruct (m st) as [[a | e] st1]; cbn [snd] in *.
  - destruct (Hk a st1) as (new2 & C2 & F2 & L2).
    exists (new1 ++ new2)%list. rewrite C2, C1, L2, L1, app_assoc.
    repeat split. now apply Forall_app.
  - exists new1. auto.
Qed.

Lemma emits_try_catch {A} (m : M World A) (handler : string -> M World A) :
  emits P m -> (forall e, emits P (handler e)) -> emits P (try_catch m handler).
Proof.
  intros Hm Hh st. unfold try_catch. destruct (Hm st) as (new1 & C1 & F1 & L1).
  destruct (m st) as [[a | e] st1]; cbn [snd] in *.
  - exists new1. auto.
  - destruct (Hh e st1) as (new2 & C2 & F2 & L2).
    exists (new1 ++ new2)%list. rewrite C2, C1, L2, L1, app_assoc.
    repeat split. now apply Forall_app.
Qed.

End Emits.

Section Around.
Context {World : Type}.
Variable ledger : LedgerClient World.
Variable sdk : Sdk.

Ltac quietly :=
  repeat first
    [ apply emits_bind | apply emits_try_catch | apply emits_ret
    | apply emits_throw | apply emits_lift
    | apply emits_await; intro; split; reflexivity
    | intro ].

Lemma initializeMarket_quiet : emits quiet (initializeMarket ledger).
Proof. unfold initializeMarket. quietly. Qed.

Lemma createTokenAccountIfNeeded_quiet (token owner : PublicKey)
    (program : TokenProgram) :
  emits quiet (createTokenAccountIfNeeded ledger sdk token owner program).
Proof. unfold createTokenAccountIfNeeded. quietly. Qed.

Lemma ensureAccounts_quiet (ctx : SwapContext) :
  emits quiet (ensureAccounts ledger sdk ctx).
Proof.
  unfold ensureAccounts.
  apply emits_bind; [apply createTokenAccountIfNeeded_quiet | intro].
  apply emits_bind; [apply createTokenAccountIfNeeded_quiet | intro].
  apply emits_ret.
Qed.

(** [findBestPoolForPair] asks the Ledger once and returns the matching
    pools of that enumeration, sorted. *)
Lemma findBestPoolForPair_returns (tokenA tokenB : PublicKey) (st : State World)
    (allPools : list Pool.t) (w : World) :
  getAllPools ledger (world st) = (Ok allPools, w) ->
  findBestPoolForPair ledger tokenA tokenB st
  = (Ok (relevantPools allPools tokenA tokenB),
     {| world := w; calls := (calls st ++ [CGetAllPools (Ok allPools)])%list;
        console := console st |}).
Proof.
  intro H. unfold findBestPoolForPair, bind, await, ret. now rewrite H.
Qed.

Lemma findBestPoolForPair_quiet (tokenA tokenB : PublicKey) :
  emits quiet (findBestPoolForPair ledger tokenA tokenB).
Proof. unfold findBestPoolForPair. quietly. Qed.

Lemma discover_quiet (fromToken toToken : string) (amount slippagePercent : Q)
    (privateKey : string) :
  emits quiet (discover ledger sdk fromToken toToken amount slippagePercent privateKey).
Proof.
  unfold discover.
  apply emits_bind; [apply emits_lift | intro].
  apply emits_bind; [apply initializeMarket_quiet | intro].
  apply emits_bind; [apply emits_lift | intro].
  apply emits_bind; [apply emits_lift | intro].
  apply emits_bind; [apply emits_lift | intro].
  apply emits_bind; [apply findBestPoolForPair_quiet | intro].
  apply emits_ret.
Qed.

(** What discovery hands to the loop. *)
Lemma discover_result (fromToken toToken : string) (amount slippagePercent : Q)
    (privateKey : string) (st st' : State World) (ctx : SwapContext)
    (pools : list Pool.t) :
  discover ledger sdk fromToken toToken amount slippagePercent privateKey st
    = (Ok (ctx, pools), st') ->
  exists n allPools,
    getTokenInfo fromToken = Ok (ctx_fromTokenInfo ctx)
    /\ getTokenInfo toToken = Ok (ctx_toTokenInfo ctx)
    /\ BN_ofNumber amount = Ok n
    /\ ctx_swapAmount ctx = n * 10 ^ decimals (ctx_fromTokenInfo ctx)
    /\ ctx_fromToken ctx = fromToken /\ ctx_toToken ctx = toToken
    /\ ctx_amount ctx = amount /\ ctx_slippagePercent ctx = slippagePercent
    /\ In (CGetAllPools (Ok allPools)) (callsSince st st')
    /\ pools = relevantPools allPools (mint (ctx_fromTokenInfo ctx))
                 (mint (ctx_toTokenInfo ctx)).
Proof.
  unfold discover, bind at 1, lift at 1.
  destruct (createKeypairFromPrivateKey sdk privateKey) as [publicKey | e];
    [| discriminate].
  unfold bind at 1.
  destruct (initializeMarket_quiet st) as (new1 & C1 & _ & _).
  destruct (initializeMarket ledger st) as [[[] | e] st1]; [| discriminate].
  cbn [snd] in C1.
  unfold bind at 1, lift at 1.
  destruct (getTokenInfo fromToken) as [fromTokenInfo | e]; [| discriminate].
  unfold bind at 1, lift at 1.
  destruct (getTokenInfo toToken) as [toTokenInfo | e]; [| discriminate].
  unfold bind at 1, lift at 1.
  destruct (BN_ofNumber amount) as [n | e]; [| discriminate].
  unfold findBestPoolForPair, bind, await, ret. cbv beta.
  destruct (getAllPools ledger (world st1)) as [[allPools | e] w];
    cbv beta iota; [| discriminate].
  intro H. injection H as <- <- <-. cbn.
  exists n, allPools. repeat split; try reflexivity.
  erewrite callsSince_app.
  2:{ cbn [calls]. rewrite C1, <- app_assoc. reflexivity. }
  apply in_or_app. right. now left.
Qed.

End Around.

Section EndToEnd.
Context {World : Type}.
Variable ledger : LedgerClient World.
Variable sdk : Sdk.

Lemma route_unfold (ctx : SwapContext) (pools : list Pool.t) (st : State World) :
  route ledger sdk ctx pools st =
  match ensureAccounts ledger sdk ctx st with
  | (Ok _, st1) =>
      match tryPools ledger sdk ctx 0 pools st1 with
      | (Ok (Some result), st2) => (Ok result, st2)
      | (Ok None, st2) => (Throw ALL_FAILED_MESSAGE, st2)
      | (Throw e, st2) => (Throw e, st2)
      end
  | (Throw e, st1) => (Throw e, st1)
  end.
Proof.
  unfold route, bind at 1.
  destruct (ensureAccounts ledger sdk ctx st) as [[[] | e] st1]; [| reflexivity].
  unfold bind.
  destruct (tryPools ledger sdk ctx 0 pools st1) as [[[result |] | e] st2];
    reflexivity.
Qed.

Lemma performTokenSwap_unfold (fromToken toToken : string)
    (amount slippagePercent : Q) (privateKey : string) (st : State World) :
  performTokenSwap ledger sdk fromToken toToken amount slippagePercent privateKey st =
  match discover ledger sdk fromToken toToken amount slippagePercent privateKey st with
  | (Ok (ctx, []), st1) => (Throw (NO_POOLS_MESSAGE fromToken toToken), st1)
  | (Ok (ctx, pool :: rest), st1) => route ledger sdk ctx (pool :: rest) st1
  | (Throw e, st1) => (Throw e, st1)
  end.
Proof.
  unfold performTokenSwap, bind.
  destruct (discover ledger sdk fromToken toToken amount slippagePercent privateKey st)
    as [[[ctx [| pool rest]] | e] st1]; reflexivity.
Qed.

(** The trace of a whole request: calls that are neither simulations nor
    executions, then the attempts of the loop on the candidates found. *)
Lemma performTokenSwap_trace (fromToken toToken : string)
    (amount slippagePercent : Q) (privateKey : string) (st : State World) :
  exists before attempts,
    callsSince st
      (snd (performTokenSwap ledger sdk fromToken toToken amount slippagePercent
              privateKey st))
    = (before ++ attempts)%list
    /\ Forall quiet before
    /\ (attempts = []
        \/ exists ctx pools st1,
             discover ledger sdk fromToken toToken amount slippagePercent
               privateKey st = (Ok (ctx, pools), st1)
             /\ Attempted sdk ctx pools attempts).
Proof.
  rewrite performTokenSwap_unfold.
  destruct (discover_quiet ledger sdk fromToken toToken amount slippagePercent
              privateKey st) as (new1 & C1 & Q1 & _).
  destruct (discover ledger sdk fromToken toToken amount slippagePercent privateKey st)
    as [[[ctx pools] | e] st1] eqn:D; cbn [snd] in C1.
  - destruct pools as [| pool rest].
    + exists new1, []. cbn [snd]. rewrite app_nil_r.
      split; [now apply callsSince_app |]. split; [exact Q1 | now left].
    + rewrite route_unfold.
      destruct (ensureAccounts_quiet ledger sdk ctx st1) as (new2 & C2 & Q2 & _).
      destruct (ensureAccounts ledger sdk ctx st1) as [[[] | e] st2]; cbn [snd] in C2.
      * destruct (tryPools_run ledger sdk ctx (pool :: rest) 0 st2)
          as (r & st3 & new3 & lines & E & C3 & _ & A & _).
        rewrite E. exists (new1 ++ new2)%list, new3.
        split.
        -- apply callsSince_app.
           destruct r as [result |]; cbn [snd]; rewrite C3, C2, C1;
             now rewrite !app_assoc.
        -- split; [now apply Forall_app |].
           right. exists ctx, (pool :: rest), st1. split; [reflexivity | exact A].
      * exists (new1 ++ new2)%list, []. cbn [snd]. rewrite app_nil_r.
        split; [apply callsSince_app; rewrite C2, C1; now rewrite app_assoc |].
        split; [now apply Forall_app | now left].
  - exists new1, []. cbn [snd]. rewrite app_nil_r.
    split; [now apply callsSince_app |]. split; [exact Q1 | now left].
Qed.

Lemma Attempted_Forall (ctx : SwapContext) (pools : list Pool.t) (P : Call -> Prop)
    (l : list Call) :
  (forall pool r, In pool pools -> P (simulationCall sdk ctx pool r)) ->
  (forall pool simulation r, In pool pools ->
     sim_status simulation = SimulationStatus.Ok ->
     P (CMarketSwap (swapArgs sdk ctx pool simulation) r)) ->
  Attempted sdk ctx pools l -> Forall P l.
Proof.
  intros Hs Hx H. induction H; repeat constructor; auto.
Qed.

Lemma quiet_Forall (P : Call -> Prop) (l : list Call) :
  (forall c, quiet c -> P c) -> Forall quiet l -> Forall P l.
Proof. intros H F. eapply Forall_impl; eauto. Qed.

(** Every call of a request has property [P], when the quiet calls have
    it and the calls made for a discovered candidate have it. *)
Lemma performTokenSwap_Forall (P : Call -> Prop) (fromToken toToken : string)
    (amount slippagePercent : Q) (privateKey : string) (st : State World) :
  (forall c, quiet c -> P c) ->
  (forall ctx pools st1,
     discover ledger sdk fromToken toToken amount slippagePercent privateKey st
       = (Ok (ctx, pools), st1) ->
     (forall pool r, In pool pools -> P (simulationCall sdk ctx pool r))
     /\ (forall pool simulation r, In pool pools ->
           sim_status simulation = SimulationStatus.Ok ->
           P (CMarketSwap (swapArgs sdk ctx pool simulation) r))) ->
  Forall P
    (callsSince st
       (snd (performTokenSwap ledger sdk fromToken toToken amount slippagePercent
               privateKey st))).
Proof.
  intros Hq Hc.
  destruct (performTokenSwap_trace fromToken toToken amount slippagePercent
              privateKey st) as (before & attempts & -> & Q & A).
  apply Forall_app. split; [now apply quiet_Forall |].
  destruct A as [-> | (ctx & pools & st1 & D & A)]; [constructor |].
  destruct (Hc ctx pools st1 D) as [Hs Hx].
  eapply Attempted_Forall; eauto.
Qed.

End EndToEnd.

(* ------------------------------------------------------------------ *)
(** ** Direction of the trade *)

Lemma emits_since {World A} (P : Call -> Prop) (m : M World A) :
  emits P m -> forall st, Forall P (callsSince st (snd (m st))).
Proof.
  intros H st. destruct (H st) as (new & C & F & _).
  now rewrite (callsSince_app _ _ _ C).
Qed.

Lemma quiet_directionHolds (sdk : Sdk) (fromMint : PublicKey)
    (candidate : Pair.t -> Prop) (c : Call) :
  quiet c -> directionHolds sdk fromMint candidate c.
Proof. destruct c; intros [Hs Hx]; try exact I; discriminate. Qed.

Section ScriptDirections.
Context {World : Type}.
Variable ledger : LedgerClient World.
Variable sdk : Sdk.
Variable owner : PublicKey.
Hypothesis lexicographic : forall a b, key_lt sdk a b = lexicographic_lt a b.

Ltac script :=
  repeat first
    [ apply emits_ret | apply emits_throw | apply emits_lift
    | apply emits_bind | apply emits_try_catch
    | apply emits_await; intro; exact I
    | intro ].

Lemma Trader_pair (feeTier : FeeTier) :
  new_Pair sdk Trader.SOL_MINT Trader.USDT_MINT feeTier
  = Pair.mk Trader.SOL_MINT Trader.USDT_MINT feeTier.
Proof. unfold new_Pair. now rewrite lexicographic. Qed.

Lemma App_pair_USDT (feeTier : FeeTier) :
  new_Pair sdk App.ETH_MINT App.USDT_MINT feeTier
  = Pair.mk App.USDT_MINT App.ETH_MINT feeTier.
Proof. unfold new_Pair. now rewrite lexicographic. Qed.

Lemma App_pair_USDC (feeTier : FeeTier) :
  new_Pair sdk App.ETH_MINT App.USDC_MINT feeTier
  = Pair.mk App.USDC_MINT App.ETH_MINT feeTier.
Proof. unfold new_Pair. now rewrite lexicographic. Qed.

Lemma swapSolToUsdt_direction :
  emits (directionHolds sdk Trader.SOL_MINT
           (fixedPair sdk Trader.SOL_MINT Trader.USDT_MINT))
        (Trader.swapSolToUsdt ledger sdk owner).
Proof.
  unfold Trader.swapSolToUsdt, Trader.initializeMarket, Trader.ensureTokenAccounts,
    Trader.checkAccount.
  apply emits_bind; [script | intro].
  apply emits_bind.
  - apply emits_bind; [script | intro forSol].
    apply emits_bind; [script | intro forUsdt].
    destruct (forSol ++ forUsdt)%list; script.
  - intros [accountX accountY].
    apply emits_bind; [script | intro feeBN].
    apply emits_bind; [script | intro swapAmount].
    apply emits_bind; [script | intro slippageBN].
    apply emits_await. intro r. cbn [directionHolds Swap.pair Swap.xToY].
    split; [eexists; reflexivity |]. now rewrite Trader_pair.
Qed.

Lemma getAvailableWrappedSolBalance_emits (P : Call -> Prop) :
  (forall a p r, P (CGetAccount a p r)) ->
  emits P (App.getAvailableWrappedSolBalance ledger sdk owner).
Proof.
  intro H. unfold App.getAvailableWrappedSolBalance.
  apply emits_try_catch; [apply emits_await; intro; apply H | intro; apply emits_ret].
Qed.

Lemma checkPoolExists_emits (P : Call -> Prop) (pair : Pair.t) :
  (forall r, P (CGetAllPools r)) ->
  emits P (App.checkPoolExists ledger pair).
Proof.
  intro H. unfold App.checkPoolExists.
  apply emits_try_catch; [| intro; apply emits_ret].
  apply emits_bind; [apply emits_await; intro; apply H | intro; apply emits_ret].
Qed.

(** The loop of the documentation-style swap passes the literal [false]:
    the property holds for the pairs whose canonical first token is not
    the token sold. *)
Lemma documentationLoop_direction (fromMint : PublicKey)
    (candidate : Pair.t -> Prop) (swapAmount : BN)
    (feeTier : FeeTier) (tokenPairs : list (PublicKey * PublicKey)) :
  Forall (fun ab =>
            candidate (new_Pair sdk (fst ab) (snd ab) feeTier)
            /\ equals (Pair.tokenX (new_Pair sdk (fst ab) (snd ab) feeTier))
                      fromMint = false) tokenPairs ->
  emits (directionHolds sdk fromMint candidate)
        (App.documentationLoop ledger sdk owner swapAmount feeTier tokenPairs).
Proof.
  induction 1 as [| [tokenA tokenB] rest [Hcand Hhead] _ IH];
    cbn [App.documentationLoop].
  - apply emits_ret.
  - cbn [fst snd] in Hcand, Hhead.
    apply emits_bind; [apply checkPoolExists_emits; intros; exact I | intro poolExists].
    destruct poolExists; cbn [negb]; [| exact IH].
    apply emits_bind; [| intros []; [apply emits_ret | exact IH]].
    apply emits_try_catch; [| intro; apply emits_ret].
    apply emits_bind; [| intro; apply emits_ret].
    apply emits_await. intro r. cbn [directionHolds Swap.pair Swap.xToY].
    split; [exact Hcand | now rewrite Hhead].
Qed.

Lemma performDocumentationStyleSwap_direction :
  emits (directionHolds sdk App.ETH_MINT
           (fun pair => fixedPair sdk App.ETH_MINT App.USDT_MINT pair
                        \/ fixedPair sdk App.ETH_MINT App.USDC_MINT pair))
        (App.performDocumentationStyleSwap ledger sdk owner).
Proof.
  unfold App.performDocumentationStyleSwap.
  apply emits_bind;
    [apply getAvailableWrappedSolBalance_emits; intros; exact I | intro balance].
  destruct (App.fortyPercent balance =? 0); [apply emits_ret |].
  apply emits_try_catch; [| intro; apply emits_ret].
  apply emits_bind; [| intro; apply emits_ret].
  apply documentationLoop_direction.
  apply Forall_cons; [split; cbn [fst snd] |].
  - left. eexists. reflexivity.
  - now rewrite App_pair_USDT.
  - apply Forall_cons; [split; cbn [fst snd] | constructor].
    + right. eexists. reflexivity.
    + now rewrite App_pair_USDC.
Qed.

Lemma swapEthToUsdt_direction :
  emits (directionHolds sdk App.ETH_MINT
           (fixedPair sdk App.ETH_MINT App.USDT_MINT))
        (App.swapEthToUsdt ledger sdk owner).
Proof.
  unfold App.swapEthToUsdt.
  apply emits_bind;
    [apply getAvailableWrappedSolBalance_emits; intros; exact I | intro balance].
  destruct (App.fortyPercent balance =? 0); [apply emits_ret |].
  apply emits_try_catch; [| intro; apply emits_ret].
  apply emits_bind; [apply checkPoolExists_emits; intros; exact I | intro poolExists].
  destruct poolExists; cbn [negb]; [| apply emits_ret].
  apply emits_bind.
  - apply emits_await. intro r. cbn [directionHolds].
    eexists. split; [eexists; reflexivity |]. split; [reflexivity |].
    now rewrite App_pair_USDT.
  - intro simulation.
    destruct (SimulationStatus.is_Ok (sim_status simulation)); cbn [negb];
      [| apply emits_throw].
    apply emits_bind; [| intro; apply emits_ret].
    apply emits_await. intro r. cbn [directionHolds Swap.pair Swap.xToY].
    split; [eexists; reflexivity | reflexivity].
Qed.

End ScriptDirections.

(** The routing loop computes the flag from the pair it resolved,
    whatever the canonical order is. *)
Lemma performTokenSwap_direction {World} (ledger : LedgerClient World) (sdk : Sdk)
    (fromToken toToken : string) (amount slippagePercent : Q) (privateKey : string)
    (fromTokenInfo toTokenInfo : TokenInfo) (st : State World) :
  getTokenInfo fromToken = Ok fromTokenInfo ->
  getTokenInfo toToken = Ok toTokenInfo ->
  Forall (directionHolds sdk (mint fromTokenInfo)
            (resolvedFor sdk (mint fromTokenInfo) (mint toTokenInfo)))
    (callsSince st
       (snd (performTokenSwap ledger sdk fromToken toToken amount slippagePercent
               privateKey st))).
Proof.
  intros Hfrom Hto. apply performTokenSwap_Forall.
  - intros c. apply quiet_directionHolds.
  - intros ctx pools st1 D.
    apply discover_result in D.
    destruct D as (n & allPools & Ef & Et & _ & _ & _ & _ & _ & _ & _ & ->).
    rewrite Hfrom in Ef. rewrite Hto in Et.
    injection Ef as Ef. injection Et as Et. subst fromTokenInfo toTokenInfo.
    split.
    + intros pool r Hin. apply relevantPools_In in Hin. destruct Hin as [_ Hm].
      cbn. exists (pairOf sdk pool).
      split; [exists pool; split; [exact Hm | reflexivity] |].
      split; reflexivity.
    + intros pool simulation r Hin _. apply relevantPools_In in Hin.
      destruct Hin as [_ Hm]. cbn.
      split; [exists pool; split; [exact Hm | reflexivity] | reflexivity].
Qed.

(** C1.  The direction flag passed to simulation and to execution is true
    exactly when the canonical first token of the candidate is the token
    the request sells: in [performTokenSwap] for every request, every
    candidate and every canonical order of the two tokens; in the script
    [swapSolToUsdt] (SOL for USDT), in [performDocumentationStyleSwap]
    and in [swapEthToUsdt] (wrapped ETH for USDT or USDC), which trade
    fixed mints, under the lexicographic order of the SDK. *)
Theorem direction_flag_follows_canonical_token :
  (forall (World : Type) (ledger : LedgerClient World) (sdk : Sdk)
          (fromToken toToken : string) (amount slippagePercent : Q)
          (privateKey : string) (fromTokenInfo toTokenInfo : TokenInfo)
          (st : State World),
     getTokenInfo fromToken = Ok fromTokenInfo ->
     getTokenInfo toToken = Ok toTokenInfo ->
     Forall (directionHolds sdk (mint fromTokenInfo)
               (resolvedFor sdk (mint fromTokenInfo) (mint toTokenInfo)))
       (callsSince st
          (snd (performTokenSwap ledger sdk fromToken toToken amount
                  slippagePercent privateKey st))))
  /\ (forall (World : Type) (ledger : LedgerClient World) (sdk : Sdk)
             (owner : PublicKey) (st : State World),
        (forall a b, key_lt sdk a b = lexicographic_lt a b) ->
        Forall (directionHolds sdk Trader.SOL_MINT
                  (fixedPair sdk Trader.SOL_MINT Trader.USDT_MINT))
          (callsSince st (snd (Trader.swapSolToUsdt ledger sdk owner st)))
        /\ Forall (directionHolds sdk App.ETH_MINT
                     (fun pair => fixedPair sdk App.ETH_MINT App.USDT_MINT pair
                                  \/ fixedPair sdk App.ETH_MINT App.USDC_MINT pair))
             (callsSince st
                (snd (App.performDocumentationStyleSwap ledger sdk owner st)))
        /\ Forall (directionHolds sdk App.ETH_MINT
                     (fixedPair sdk App.ETH_MINT App.USDT_MINT))
             (callsSince st (snd (App.swapEthToUsdt ledger sdk owner st)))).
Proof.
  split.
  - intros. now apply performTokenSwap_direction.
  - intros World ledger sdk owner st lexicographic. repeat split; apply emits_since.
    + now apply swapSolToUsdt_direction.
    + now apply performDocumentationStyleSwap_direction.
    + now apply swapEthToUsdt_direction.
Qed.

(** The literal flags of the scripts are right only for a canonical
    order that puts the stablecoin first: under an order that puts the
    wrapped native mint first, [performDocumentationStyleSwap] would
    execute with [xToY = false] although the canonical first token is
    the token sold. *)
Lemma documentation_flag_relies_on_order (sdk : Sdk) (feeTier : FeeTier) :
  key_lt sdk App.ETH_MINT App.USDT_MINT = true ->
  equals (Pair.tokenX (new_Pair sdk App.ETH_MINT App.USDT_MINT feeTier)) App.ETH_MINT
  = true.
Proof. intro H. unfold new_Pair. now rewrite H. Qed.

(* ------------------------------------------------------------------ *)
(** ** First success wins *)

Section Outcome.
Context {World : Type}.
Variable ledger : LedgerClient World.
Variable sdk : Sdk.

Lemma BN_toNumber_safe (b : BN) : Z.abs b < MAX_SAFE -> BN_toNumber b = Ok b.
Proof. intro H. unfold BN_toNumber. now apply Z.ltb_lt in H as ->. Qed.

(** A pool whose simulation has status [Ok] and whose execution
    succeeds ends the loop, whatever pools follow it. *)
Lemma tryPools_success (ctx : SwapContext) (pre : list Pool.t) (pool : Pool.t)
    (rest : list Pool.t) (i : nat) (st st1 : State World)
    (simulation : Simulation) (w1 w2 : World) (txHash : string) :
  tryPools ledger sdk ctx i pre st = (Ok None, st1) ->
  simulate ledger sdk ctx pool (world st1) = (Ok simulation, w1) ->
  sim_status simulation = SimulationStatus.Ok ->
  market_swap ledger (swapArgs sdk ctx pool simulation) w1 = (Ok txHash, w2) ->
  Z.abs (Pool.fee pool) < MAX_SAFE ->
  tryPools ledger sdk ctx i (pre ++ pool :: rest) st =
  (Ok (Some (resultOf sdk ctx pool simulation txHash (Pool.fee pool))),
   {| world := w2;
      calls := (calls st1 ++
                [simulationCall sdk ctx pool (Ok simulation);
                 CMarketSwap (swapArgs sdk ctx pool simulation) (Ok txHash)])%list;
      console := console st1 |}).
Proof.
  intros Hpre Hsim Hok Hswap Hfee.
  rewrite tryPools_app, Hpre. cbn [tryPools]. unfold bind.
  pose proof (tryPool_cases ledger sdk ctx (i + List.length pre) pool st1) as H.
  rewrite Hsim, Hok in H. cbn [SimulationStatus.is_Ok] in H.
  rewrite Hswap, (BN_toNumber_safe _ Hfee) in H. now rewrite H.
Qed.

(** With a fee below 2^53: as soon as the execution of a candidate
    succeeds (every candidate before it having failed),
    [performTokenSwap] returns success with the transaction of that
    execution and the address and fee of that candidate's pool as
    [poolUsed]; the trace ends with that execution, so that no later
    candidate is simulated or executed. *)
Theorem first_success_returns_at_once
    (fromToken toToken : string) (amount slippagePercent : Q) (privateKey : string)
    (ctx : SwapContext) (pre : list Pool.t) (pool : Pool.t) (rest : list Pool.t)
    (st0 sta st st1 : State World)
    (simulation : Simulation) (w1 w2 : World) (txHash : string) :
  discover ledger sdk fromToken toToken amount slippagePercent privateKey st0
    = (Ok (ctx, (pre ++ pool :: rest)%list), sta) ->
  ensureAccounts ledger sdk ctx sta = (Ok tt, st) ->
  tryPools ledger sdk ctx 0 pre st = (Ok None, st1) ->
  simulate ledger sdk ctx pool (world st1) = (Ok simulation, w1) ->
  sim_status simulation = SimulationStatus.Ok ->
  market_swap ledger (swapArgs sdk ctx pool simulation) w1 = (Ok txHash, w2) ->
  Z.abs (Pool.fee pool) < MAX_SAFE ->
  exists result,
    performTokenSwap ledger sdk fromToken toToken amount slippagePercent
      privateKey st0
    = (Ok result,
       {| world := w2;
          calls := (calls st1 ++
                    [simulationCall sdk ctx pool (Ok simulation);
                     CMarketSwap (swapArgs sdk ctx pool simulation)
                       (Ok txHash)])%list;
          console := console st1 |})
    /\ SwapResult.success result = true
    /\ SwapResult.transactionHash result = txHash
    /\ SwapResult.poolUsed_address result = getAddress sdk (pairOf sdk pool)
    /\ SwapResult.poolUsed_fee result = Pool.fee pool.
Proof.
  intros D A Hpre Hsim Hok Hswap Hfee.
  exists (resultOf sdk ctx pool simulation txHash (Pool.fee pool)).
  split; [| repeat split].
  rewrite performTokenSwap_unfold, D.
  destruct (pre ++ pool :: rest)%list as [| p l] eqn:E;
    [now destruct pre |].
  rewrite route_unfold, A, <- E.
  now rewrite (tryPools_success ctx pre pool rest 0 st Hpre Hsim Hok Hswap Hfee).
Qed.

(** The scenario of the specification: the first candidate's simulation
    reports a status other than [Ok], the second candidate succeeds; the
    pool used is the second one. *)
Corollary second_candidate_used (ctx : SwapContext) (first second : Pool.t)
    (rest : list Pool.t) (st : State World)
    (refusal simulation : Simulation) (w0 w1 w2 : World) (txHash : string) :
  simulate ledger sdk ctx first (world st) = (Ok refusal, w0) ->
  SimulationStatus.is_Ok (sim_status refusal) = false ->
  simulate ledger sdk ctx second w0 = (Ok simulation, w1) ->
  sim_status simulation = SimulationStatus.Ok ->
  market_swap ledger (swapArgs sdk ctx second simulation) w1 = (Ok txHash, w2) ->
  Z.abs (Pool.fee second) < MAX_SAFE ->
  exists result st',
    tryPools ledger sdk ctx 0 (first :: second :: rest) st = (Ok (Some result), st')
    /\ SwapResult.poolUsed_address result = getAddress sdk (pairOf sdk second)
    /\ SwapResult.transactionHash result = txHash.
Proof.
  intros Hfirst Hno Hsim Hok Hswap Hfee.
  pose proof (tryPool_cases ledger sdk ctx 0 first st) as H.
  rewrite Hfirst, Hno in H.
  do 2 eexists. split.
  - change (first :: second :: rest) with ([first] ++ second :: rest)%list.
    eapply tryPools_success; try eassumption.
    + cbn [tryPools]. unfold bind. rewrite H. reflexivity.
    + exact Hsim.
  - split; reflexivity.
Qed.

(** From 2^53 on the result object cannot be built: [toNumber] throws
    inside the [try] block after the execution, and the [catch] goes on
    to the next pool. *)
Lemma unsafe_fee_goes_on (ctx : SwapContext) (i : nat) (pool : Pool.t)
    (st : State World) (simulation : Simulation) (w1 w2 : World) (txHash : string) :
  simulate ledger sdk ctx pool (world st) = (Ok simulation, w1) ->
  sim_status simulation = SimulationStatus.Ok ->
  market_swap ledger (swapArgs sdk ctx pool simulation) w1 = (Ok txHash, w2) ->
  MAX_SAFE <= Z.abs (Pool.fee pool) ->
  fst (tryPool ledger sdk ctx i pool st) = Ok None.
Proof.
  intros Hsim Hok Hswap Hfee.
  pose proof (tryPool_cases ledger sdk ctx i pool st) as H.
  rewrite Hsim, Hok in H. cbn [SimulationStatus.is_Ok] in H. rewrite Hswap in H.
  unfold BN_toNumber in H. apply Z.ltb_ge in Hfee. rewrite Hfee in H.
  now rewrite H.
Qed.

(* ------------------------------------------------------------------ *)
(** ** Every candidate fails *)

(** The lines of a loop that came to its end are the reasons of its
    calls. *)
Lemma tryPools_reasons (ctx : SwapContext) (pools : list Pool.t) :
  forall (i : nat) (st st1 : State World),
  tryPools ledger sdk ctx i pools st = (Ok None, st1) ->
  exists new,
    calls st1 = (calls st ++ new)%list
    /\ console st1 = (console st ++ reasonsOf (i + 1) new)%list
    /\ simulationFirst new.
Proof.
  induction pools as [| pool rest IH]; intros i st st1 L.
  - cbn in L. injection L as <-. exists []. cbn. now rewrite !app_nil_r.
  - cbn [tryPools] in L. unfold bind at 1 in L.
    pose proof (tryPool_cases ledger sdk ctx i pool st) as H.
    unfold simulationCall in H.
    destruct (simulate ledger sdk ctx pool (world st)) as [[simulation | e] w1].
    + destruct (SimulationStatus.is_Ok (sim_status simulation)) eqn:Hok.
      * destruct (market_swap ledger _ w1) as [[txHash | e] w2].
        -- unfold BN_toNumber in H.
           destruct (Z.abs (Pool.fee pool) <? MAX_SAFE); rewrite H in L;
             [discriminate |].
           apply IH in L. destruct L as (new & Hc & Hl & _).
           cbn [calls console] in Hc, Hl.
           eexists. split; [rewrite Hc, <- app_assoc; reflexivity |].
           split; [| exact I].
           rewrite Hl, <- app_assoc. reflexivity.
        -- rewrite H in L. apply IH in L. destruct L as (new & Hc & Hl & _).
           cbn [calls console] in Hc, Hl.
           eexists. split; [rewrite Hc, <- app_assoc; reflexivity |].
           split; [| exact I].
           rewrite Hl, <- app_assoc. reflexivity.
      * rewrite H in L. apply IH in L. destruct L as (new & Hc & Hl & Hs).
        cbn [calls console] in Hc, Hl.
        eexists. split; [rewrite Hc, <- app_assoc; reflexivity |].
        split; [| exact I].
        rewrite Hl, <- app_assoc. cbn [app reasonsOf].
        destruct new as [| [] new]; try reflexivity. destruct Hs.
    + rewrite H in L. apply IH in L. destruct L as (new & Hc & Hl & _).
      cbn [calls console] in Hc, Hl.
      eexists. split; [rewrite Hc, <- app_assoc; reflexivity |].
      split; [| exact I].
      rewrite Hl, <- app_assoc. reflexivity.
Qed.

(** C5 (as amended).  When every candidate has been tried and none has
    succeeded, [performTokenSwap] fails with one fixed message, which
    carries no reason.  The reasons of the candidates are lines of the
    console: the lines written since the loop began are the reasons of
    its calls (for each candidate its number with the status its
    simulation reported, or with the message its simulation or its
    execution threw), one line for each candidate tried, in the order
    of the candidates. *)
Theorem all_failed_fixed_message_reasons_logged
    (fromToken toToken : string) (amount slippagePercent : Q) (privateKey : string)
    (ctx : SwapContext) (pool : Pool.t) (rest : list Pool.t)
    (st0 sta st st1 : State World) :
  discover ledger sdk fromToken toToken amount slippagePercent privateKey st0
    = (Ok (ctx, pool :: rest), sta) ->
  ensureAccounts ledger sdk ctx sta = (Ok tt, st) ->
  tryPools ledger sdk ctx 0 (pool :: rest) st = (Ok None, st1) ->
  performTokenSwap ledger sdk fromToken toToken amount slippagePercent privateKey st0
    = (Throw ALL_FAILED_MESSAGE, st1)
  /\ linesSince st st1 = reasonsOf 1 (callsSince st st1)
  /\ map poolNumber (linesSince st st1) = seq 1 (List.length (pool :: rest)).
Proof.
  intros D A L. split; [| split].
  - now rewrite performTokenSwap_unfold, D, route_unfold, A, L.
  - destruct (tryPools_reasons ctx (pool :: rest) 0 st L) as (new & Hc & Hl & _).
    now rewrite (linesSince_app _ _ _ Hl), (callsSince_app _ _ _ Hc).
  - destruct (tryPools_run ledger sdk ctx (pool :: rest) 0 st)
      as (r & st' & new & lines & E & _ & Hl & _ & Hr).
    rewrite L in E. injection E as <- <-.
    now rewrite (linesSince_app _ _ _ Hl).
Qed.

(* ------------------------------------------------------------------ *)
(** ** No pool for the pair *)

Lemma NO_POOLS_MESSAGE_distinguished (fromToken toToken : string) :
  NO_POOLS_MESSAGE fromToken toToken <> ALL_FAILED_MESSAGE.
Proof. unfold NO_POOLS_MESSAGE, ALL_FAILED_MESSAGE. cbn. discriminate. Qed.

(** C7.  When pool discovery returns no candidate, the request fails
    with the message kept for that case, different from the one for
    candidates that all failed, and neither a simulation nor an
    execution is among the calls of the request. *)
Theorem no_pools_found_short_circuits
    (fromToken toToken : string) (amount slippagePercent : Q) (privateKey : string)
    (ctx : SwapContext) (st0 sta : State World) :
  discover ledger sdk fromToken toToken amount slippagePercent privateKey st0
    = (Ok (ctx, []), sta) ->
  performTokenSwap ledger sdk fromToken toToken amount slippagePercent privateKey st0
    = (Throw (NO_POOLS_MESSAGE fromToken toToken), sta)
  /\ NO_POOLS_MESSAGE fromToken toToken <> ALL_FAILED_MESSAGE
  /\ Forall quiet (callsSince st0 sta).
Proof.
  intro D. split; [now rewrite performTokenSwap_unfold, D |].
  split; [apply NO_POOLS_MESSAGE_distinguished |].
  pose proof (emits_since
                (discover_quiet ledger sdk fromToken toToken amount
                   slippagePercent privateKey) st0) as H.
  now rewrite D in H.
Qed.

End Outcome.

(* ------------------------------------------------------------------ *)
(** ** An execution the Ledger accepted, and the request goes on *)


(* ------------------------------------------------------------------ *)
(** ** Which pools are resolved, and for what quantity *)

Lemma quiet_madeFor (sdk : Sdk) (P : Pool.t -> Prop) (c : Call) :
  quiet c -> madeFor sdk P c.
Proof. destruct c; intros [Hs Hx]; try exact I; discriminate. Qed.

Lemma quiet_quantityIs (q : BN) (c : Call) : quiet c -> quantityIs q c.
Proof. destruct c; intros [Hs Hx]; try exact I; discriminate. Qed.

(** C8 (as amended).  A pool whose two tokens are not the two tokens of
    the request is never resolved into a candidate: the candidates of
    pool discovery are exactly the pools of the Ledger's enumeration
    whose two tokens are the request's two, and when there is none the
    request fails with the message kept for a pair without pools;
    every simulation and every execution of a request is made for a
    pool whose two tokens are the request's two. *)
Theorem only_matching_pools_are_attempted {World} (ledger : LedgerClient World)
    (sdk : Sdk) (fromToken toToken : string) (amount slippagePercent : Q)
    (privateKey : string) (fromTokenInfo toTokenInfo : TokenInfo)
    (st : State World) :
  getTokenInfo fromToken = Ok fromTokenInfo ->
  getTokenInfo toToken = Ok toTokenInfo ->
  (forall (ctx : SwapContext) (pools : list Pool.t) (st1 : State World),
     discover ledger sdk fromToken toToken amount slippagePercent privateKey st
       = (Ok (ctx, pools), st1) ->
     exists allPools,
       In (CGetAllPools (Ok allPools)) (callsSince st st1)
       /\ (forall pool,
             In pool pools <->
             In pool allPools
             /\ matchesPair (mint fromTokenInfo) (mint toTokenInfo) pool = true)
       /\ (pools = [] ->
           performTokenSwap ledger sdk fromToken toToken amount slippagePercent
             privateKey st
           = (Throw (NO_POOLS_MESSAGE fromToken toToken), st1)))
  /\ Forall (madeFor sdk
               (fun pool =>
                  matchesPair (mint fromTokenInfo) (mint toTokenInfo) pool = true))
       (callsSince st
          (snd (performTokenSwap ledger sdk fromToken toToken amount slippagePercent
                  privateKey st))).
Proof.
  intros Hfrom Hto. split.
  - intros ctx pools st1 D. pose proof D as R. apply discover_result in R.
    destruct R as (n & allPools & Ef & Et & _ & _ & _ & _ & _ & _ & Hin & ->).
    rewrite Hfrom in Ef. rewrite Hto in Et.
    injection Ef as Ef. injection Et as Et. subst fromTokenInfo toTokenInfo.
    exists allPools. split; [exact Hin |]. split.
    + intro pool. apply relevantPools_In.
    + intro none. rewrite performTokenSwap_unfold, D, none. reflexivity.
  - apply performTokenSwap_Forall.
    + intro c. apply quiet_madeFor.
    + intros ctx pools st1 D. apply discover_result in D.
      destruct D as (n & allPools & Ef & Et & _ & _ & _ & _ & _ & _ & _ & ->).
      rewrite Hfrom in Ef. rewrite Hto in Et.
      injection Ef as Ef. injection Et as Et. subst fromTokenInfo toTokenInfo.
      split.
      * intros pool r Hin. apply relevantPools_In in Hin. destruct Hin as [_ Hm].
        cbn. exists pool. split; [exact Hm | reflexivity].
      * intros pool simulation r Hin _. apply relevantPools_In in Hin.
        destruct Hin as [_ Hm]. cbn. exists pool. split; [exact Hm | reflexivity].
Qed.

(** A Ledger that enumerates a USDC/WBTC pool, for a request of ETH for
    USDT: neither token of the pool is a token of the request.  Next
    to an ETH/USDT pool the request succeeds on that pool, and on its
    own the request fails with the message for a pair without pools;
    no failure for the pool's tokens is returned or written, and
    nothing is simulated for the pool. *)
Lemma foreign_pool_left_out_without_failure :
  (equals (Pool.tokenX Sample.foreign) NATIVE_MINT = false
   /\ equals (Pool.tokenX Sample.foreign) Sample.USDT = false
   /\ equals (Pool.tokenY Sample.foreign) NATIVE_MINT = false
   /\ equals (Pool.tokenY Sample.foreign) Sample.USDT = false)
  /\ (exists result st',
        performTokenSwap (Sample.willing [Sample.foreign; Sample.cheap]) Sample.sdk
                         "ETH" "USDT" (1 # 1) (1 # 2) "key" Sample.start
        = (Ok result, st')
        /\ SwapResult.poolUsed_address result
           = getAddress Sample.sdk (pairOf Sample.sdk Sample.cheap)
        /\ console st' = []
        /\ simulatedAddresses (calls st')
           = [getAddress Sample.sdk (pairOf Sample.sdk Sample.cheap)])
  /\ (exists st',
        performTokenSwap (Sample.willing [Sample.foreign]) Sample.sdk
                         "ETH" "USDT" (1 # 1) (1 # 2) "key" Sample.start
        = (Throw "No liquidity pools found for ETH/USDT pair", st')
        /\ console st' = []
        /\ simulatedAddresses (calls st') = []).
Proof.
  split; [repeat split |]. split.
  - do 2 eexists. split; [vm_compute; reflexivity |]. repeat split.
  - eexists. split; [vm_compute; reflexivity |]. repeat split.
Qed.

(** The quantity of every simulation and execution of a request is the
    integer part of the amount times ten to the power of the decimals of
    the token sold. *)
Lemma quantity_is_scaled {World} (ledger : LedgerClient World)
    (sdk : Sdk) (fromToken toToken : string) (amount slippagePercent : Q)
    (privateKey : string) (fromTokenInfo : TokenInfo) (st : State World) :
  getTokenInfo fromToken = Ok fromTokenInfo ->
  Forall (quantityIs (trunc amount * 10 ^ decimals fromTokenInfo))
    (callsSince st
       (snd (performTokenSwap ledger sdk fromToken toToken amount slippagePercent
               privateKey st))).
Proof.
  intros Hfrom. apply performTokenSwap_Forall.
  - intro c. apply quiet_quantityIs.
  - intros ctx pools st1 D. apply discover_result in D.
    destruct D as (n & allPools & Ef & _ & En & Ea & _).
    rewrite Hfrom in Ef. injection Ef as Ef. subst fromTokenInfo.
    assert (n = trunc amount) as ->.
    { unfold BN_ofNumber in En.
      destruct (Z.abs (trunc amount) <? MAX_SAFE); [now injection En | discriminate]. }
    split; intros; cbn; exact Ea.
Qed.

Lemma trunc_whole (k : Z) : trunc (inject_Z k) = k.
Proof. unfold trunc, inject_Z. cbn. apply Z.quot_1_r. Qed.

(** C9 (as amended).  The amount of a request counts whole tokens: for
    a whole amount, the quantity passed to every simulation and
    execution is the amount times ten to the power of the decimals of
    the token sold. *)
Theorem quantity_is_amount_scaled_by_decimals {World} (ledger : LedgerClient World)
    (sdk : Sdk) (fromToken toToken : string) (amount : Z) (slippagePercent : Q)
    (privateKey : string) (fromTokenInfo : TokenInfo) (st : State World) :
  getTokenInfo fromToken = Ok fromTokenInfo ->
  Forall (quantityIs (amount * 10 ^ decimals fromTokenInfo))
    (callsSince st
       (snd (performTokenSwap ledger sdk fromToken toToken (inject_Z amount)
               slippagePercent privateKey st))).
Proof.
  intro Hfrom. rewrite <- (trunc_whole amount) at 1.
  now apply quantity_is_scaled.
Qed.

(** A request for the amount 1 of ETH is simulated and executed for the
    quantity 1000000000, not 1. *)
Lemma quantity_is_not_the_amount :
  let st' :=
    snd (performTokenSwap (Sample.willing [Sample.cheap]) Sample.sdk
           "ETH" "USDT" (1 # 1) (1 # 2) "key" Sample.start) in
  map isSimulation (calls st') = [false; false; false; false; true; false]
  /\ map isSwap (calls st') = [false; false; false; false; false; true]
  /\ Forall (quantityIs 1000000000) (calls st')
  /\ ~ Forall (quantityIs (trunc (1 # 1))) (calls st').
Proof.
  cbv zeta. split; [vm_compute; reflexivity |]. split; [vm_compute; reflexivity |].
  split.
  - vm_compute. repeat constructor.
  - intro H. vm_compute in H.
    do 4 apply Forall_inv_tail in H. apply Forall_inv in H. discriminate H.
Qed.

(* ------------------------------------------------------------------ *)
(** ** What the failure of a request carries *)

(** Two requests whose candidates fail for different reasons fail with
    the same value: the failure returned does not carry the reasons. *)
Lemma reasons_not_in_returned_failure :
  let refused :=
    performTokenSwap Sample.allRefused Sample.sdk "ETH" "USDT" (1 # 1) (1 # 2)
                     "key" Sample.start in
  let thrown :=
    performTokenSwap Sample.allThrow Sample.sdk "ETH" "USDT" (1 # 1) (1 # 2)
                     "key" Sample.start in
  fst refused = Throw ALL_FAILED_MESSAGE
  /\ fst thrown = fst refused
  /\ console (snd thrown) <> console (snd refused)
  /\ console (snd refused)
     = [PoolSimulationFailed 1 (SimulationStatus.Other "LimitReached");
        PoolSimulationFailed 2 (SimulationStatus.Other "LimitReached")]
  /\ console (snd thrown)
     = [PoolFailed 1 "Account does not exist or has no data";
        PoolFailed 2 "Account does not exist or has no data"].
Proof.
  cbv zeta. split; [vm_compute; reflexivity |]. split; [vm_compute; reflexivity |].
  split; [vm_compute; discriminate |]. split; vm_compute; reflexivity.
Qed.

(* ------------------------------------------------------------------ *)
(** ** The price bound of an execution *)

Section Prices.
Context {World : Type}.
Variable ledger : LedgerClient World.
Variable sdk : Sdk.

Lemma coupled_quiet (before l : list Call) :
  Forall quiet before ->
  (forall previous, coupled sdk previous l) ->
  forall previous, coupled sdk previous (before ++ l)%list.
Proof.
  intros Q H. induction Q as [| c rest [Hs Hx] _ IH]; intro previous; cbn [app].
  - apply H.
  - cbn [coupled]. split; [| apply IH].
    destruct c; try exact I; discriminate.
Qed.

Lemma Attempted_coupled (ctx : SwapContext) (pools : list Pool.t) (l : list Call) :
  Attempted sdk ctx pools l -> forall previous, coupled sdk previous l.
Proof.
  induction 1 as [| pool r l Hin _ IH | pool simulation r l Hin Hok _ IH];
    intro previous; cbn [coupled simulationCall].
  - exact I.
  - split; [exact I | apply IH].
  - split; [exact I |]. split; [| apply IH].
    cbn. repeat split. exact Hok.
Qed.

(** In [performTokenSwap] every execution follows at once the simulation
    of its own candidate, in the same request, and is bound by the price
    that simulation predicted. *)
Lemma performTokenSwap_executes_at_simulated_price
    (fromToken toToken : string) (amount slippagePercent : Q) (privateKey : string)
    (st : State World) :
  coupled sdk None
    (callsSince st
       (snd (performTokenSwap ledger sdk fromToken toToken amount slippagePercent
               privateKey st))).
Proof.
  destruct (performTokenSwap_trace ledger sdk fromToken toToken amount
              slippagePercent privateKey st) as (before & attempts & -> & Q & A).
  apply coupled_quiet; [exact Q |].
  destruct A as [-> | (ctx & pools & st1 & _ & A)].
  - intro. exact I.
  - eapply Attempted_coupled; eassumption.
Qed.

Lemma swapSolToUsdt_placeholder (wallet : PublicKey) :
  emits placeholderPrice (Trader.swapSolToUsdt ledger sdk wallet).
Proof.
  unfold Trader.swapSolToUsdt, Trader.initializeMarket, Trader.ensureTokenAccounts,
    Trader.checkAccount.
  apply emits_bind; [apply emits_await; intro; exact I | intro].
  apply emits_bind.
  - apply emits_bind.
    { apply emits_try_catch; [| intro; apply emits_ret].
      apply emits_bind; [apply emits_await; intro; exact I | intro; apply emits_ret]. }
    intro forSol. apply emits_bind.
    { apply emits_try_catch; [| intro; apply emits_ret].
      apply emits_bind; [apply emits_await; intro; exact I | intro; apply emits_ret]. }
    intro forUsdt. destruct (forSol ++ forUsdt)%list; [apply emits_ret |].
    apply emits_bind; [apply emits_await; intro; exact I | intro; apply emits_ret].
  - intros [accountX accountY].
    apply emits_bind; [apply emits_lift | intro feeBN].
    apply emits_bind; [apply emits_lift | intro swapAmount].
    apply emits_bind; [apply emits_lift | intro slippageBN].
    apply emits_await. intro r. reflexivity.
Qed.

Lemma documentationLoop_placeholder (keypair : PublicKey) (swapAmount : BN)
    (feeTier : FeeTier) (tokenPairs : list (PublicKey * PublicKey)) :
  emits placeholderPrice
        (App.documentationLoop ledger sdk keypair swapAmount feeTier tokenPairs).
Proof.
  induction tokenPairs as [| [tokenA tokenB] rest IH]; cbn [App.documentationLoop].
  - apply emits_ret.
  - apply emits_bind.
    { unfold App.checkPoolExists.
      apply emits_try_catch; [| intro; apply emits_ret].
      apply emits_bind; [apply emits_await; intro; exact I | intro; apply emits_ret]. }
    intro poolExists. destruct poolExists; cbn [negb]; [| exact IH].
    apply emits_bind; [| intros []; [apply emits_ret | exact IH]].
    apply emits_try_catch; [| intro; apply emits_ret].
    apply emits_bind; [| intro; apply emits_ret].
    apply emits_await. intro r. reflexivity.
Qed.

(** [performDocumentationStyleSwap] does the same. *)
Lemma performDocumentationStyleSwap_placeholder (keypair : PublicKey) :
  emits placeholderPrice (App.performDocumentationStyleSwap ledger sdk keypair).
Proof.
  unfold App.performDocumentationStyleSwap, App.getAvailableWrappedSolBalance.
  apply emits_bind.
  { apply emits_try_catch; [apply emits_await; intro; exact I | intro; apply emits_ret]. }
  intro balance. destruct (App.fortyPercent balance =? 0); [apply emits_ret |].
  apply emits_try_catch; [| intro; apply emits_ret].
  apply emits_bind; [apply documentationLoop_placeholder | intro; apply emits_ret].
Qed.

End Prices.

(** C2.  The script [swapSolToUsdt] never simulates, and whenever it
    executes it passes the constant 1 as the price bound; on a Ledger
    that accepts the trade the execution takes place, so that an
    execution with a placeholder price does happen.  ([performTokenSwap]
    does what the claim says, see
    [performTokenSwap_executes_at_simulated_price].) *)
Theorem swapSolToUsdt_executes_at_placeholder_price :
  (forall (World : Type) (ledger : LedgerClient World) (sdk : Sdk)
          (wallet : PublicKey) (st : State World),
     Forall placeholderPrice
       (callsSince st (snd (Trader.swapSolToUsdt ledger sdk wallet st))))
  /\ (let run :=
        Trader.swapSolToUsdt (Sample.willing []) Sample.sdk "wallet" Sample.start in
      fst run = Ok "tx"
      /\ map isSimulation (calls (snd run)) = [false; false; false; false]
      /\ map isSwap (calls (snd run)) = [false; false; false; true]).
Proof.
  split.
  - intros. apply emits_since, swapSolToUsdt_placeholder.
  - cbv zeta. repeat split; vm_compute; reflexivity.
Qed.

(* ------------------------------------------------------------------ *)
(** ** Validation of a swap request *)

Lemma Qlt_bool_true (a b : Q) : (a < b)%Q -> Qlt_bool a b = true.
Proof.
  intro H. unfold Qlt_bool. apply negb_true_iff.
  destruct (Qle_bool b a) eqn:E; [| reflexivity].
  apply Qle_bool_iff in E. exfalso. now apply (Qlt_not_le a b).
Qed.

(** C6.  A swap request whose amount is not positive, whose two tokens
    are the same symbol (whatever the case of the letters), or whose
    slippage is below 0 or above 50 is answered with status 400 and an
    error; the Ledger is not called: world, trace and console are those
    the request found. *)
Theorem invalid_swap_request_rejected_before_network {World}
    (ledger : LedgerClient World) (sdk : Sdk) (body : SwapBody) (st : State World) :
  (exists amount, body_amount body = Some amount /\ (amount <= 0)%Q)
  \/ (exists fromToken toToken,
        body_fromToken body = Some fromToken /\ body_toToken body = Some toToken
        /\ toUpperCase fromToken = toUpperCase toToken)
  \/ (slippage_of body < 0)%Q \/ (50 < slippage_of body)%Q ->
  exists error, api_swap ledger sdk body st = (respond 400 error, st).
Proof.
  intro invalid. unfold api_swap.
  destruct (missing_string (body_fromToken body) || missing_string (body_toToken body)
            || missing_number (body_amount body)
            || missing_string (body_privateKey body)) eqn:M;
    [eexists; reflexivity |].
  destruct (body_fromToken body) as [fromToken |]; [| eexists; reflexivity].
  destruct (body_toToken body) as [toToken |]; [| eexists; reflexivity].
  destruct (body_amount body) as [amount |]; [| eexists; reflexivity].
  destruct (body_privateKey body) as [privateKey |]; [| eexists; reflexivity].
  destruct (String.eqb_spec (toUpperCase fromToken) (toUpperCase toToken)) as [same | differ];
    [eexists; reflexivity |].
  destruct (Qle_bool amount 0) eqn:A; [eexists; reflexivity |].
  destruct (Qlt_bool (slippage_of body) 0 || Qlt_bool 50 (slippage_of body)) eqn:S;
    [eexists; reflexivity |].
  exfalso. apply orb_false_iff in S. destruct S as [S0 S50].
  destruct invalid as [(a & Ea & Ha) | [(f & t & Ef & Et & Hft) | [Hs | Hs]]].
  - injection Ea as <-. apply Qle_bool_iff in Ha. congruence.
  - injection Ef as <-. injection Et as <-. contradiction.
  - apply Qlt_bool_true in Hs. congruence.
  - apply Qlt_bool_true in Hs. congruence.
Qed.

(* ------------------------------------------------------------------ *)
(** ** The quote *)

Lemma present_string (s : string) : s <> "" -> missing_string (Some s) = false.
Proof. destruct s; [congruence | reflexivity]. Qed.

Lemma present_number (q : Q) : ~ (q == 0)%Q -> missing_number (Some q) = false.
Proof.
  intro H. cbn. destruct (Qeq_bool q 0) eqn:E; [| reflexivity].
  now apply Qeq_bool_iff in E.
Qed.

Lemma StronglySorted_head (A : Type) (R : A -> A -> Prop) (x : A) (l : list A) :
  StronglySorted R (x :: l) -> Forall (R x) l.
Proof. intro H. now inversion H. Qed.

(** C10.  A quote for a pair with at least one matching pool simulates
    on the first candidate only, whose fee is the lowest.  When the
    slippage of the body can be turned into a tolerance, the quote
    simulates once, on that candidate, and makes no other simulation
    and no execution; when that simulation reports a status other than
    [Ok] the quote is answered with status 400 and the status as the
    error, and when it throws, with status 500.  When the slippage is
    too large for [toDecimal], the quote is answered with status 500
    and [toDecimal]'s message, nothing having been simulated. *)
Theorem quote_simulates_first_candidate_only {World}
    (ledger : LedgerClient World) (sdk : Sdk) (body : SwapBody)
    (fromToken toToken : string) (amount : Q)
    (fromTokenInfo toTokenInfo : TokenInfo) (n : BN)
    (st st1 : State World) (allPools : list Pool.t) (w2 w3 : World)
    (pool : Pool.t) (rest : list Pool.t) (outcome : Exc Simulation) :
  body_fromToken body = Some fromToken ->
  body_toToken body = Some toToken ->
  body_amount body = Some amount ->
  fromToken <> "" -> toToken <> "" -> ~ (amount == 0)%Q ->
  getTokenInfo fromToken = Ok fromTokenInfo ->
  getTokenInfo toToken = Ok toTokenInfo ->
  BN_ofNumber amount = Ok n ->
  initializeMarket ledger st = (Ok tt, st1) ->
  getAllPools ledger (world st1) = (Ok allPools, w2) ->
  relevantPools allPools (mint fromTokenInfo) (mint toTokenInfo) = pool :: rest ->
  swapSimulation ledger
    (equals (Pair.tokenX (pairOf sdk pool)) (mint fromTokenInfo)) true
    (n * 10 ^ decimals fromTokenInfo) (toDecimal sdk (slippage_of body) 2)
    (getAddress sdk (pairOf sdk pool)) TICK_CROSSES_PER_IX_NATIVE_TOKEN w2
    = (outcome, w3) ->
  let (response, st') := api_quote ledger sdk body st in
  Forall (fun other => Pool.fee pool <= Pool.fee other) rest
  /\ match toDecimal_call sdk (slippage_of body) 2 with
     | Ok slippageDecimal =>
         callsSince st1 st'
         = [ CGetAllPools (Ok allPools);
             CSwapSimulation
               (equals (Pair.tokenX (pairOf sdk pool)) (mint fromTokenInfo)) true
               (n * 10 ^ decimals fromTokenInfo) slippageDecimal
               (getAddress sdk (pairOf sdk pool)) TICK_CROSSES_PER_IX_NATIVE_TOKEN
               outcome ]
         /\ world st' = w3
         /\ match outcome with
            | Ok simulation =>
                SimulationStatus.is_Ok (sim_status simulation) = false ->
                response = respond 400 ("Simulation failed: "
                                        ++ statusName (sim_status simulation))
            | Throw e => response = respond 500 e
            end
     | Throw e =>
         callsSince st1 st' = [ CGetAllPools (Ok allPools) ]
         /\ world st' = w2
         /\ response = respond 500 e
     end.
Proof.
  intros Ef Et Ea Mf Mt Ma Hfrom Hto Hn Hmarket Hpools Hrel Hsim.
  apply present_string in Mf, Mt. apply present_number in Ma.
  assert (cheapest : Forall (fun other => Pool.fee pool <= Pool.fee other) rest).
  { apply StronglySorted_head with (R := fun a b => Pool.fee a <= Pool.fee b).
    rewrite <- Hrel. apply relevantPools_sorted. }
  unfold api_quote. rewrite Ef, Et, Ea, Mf, Mt, Ma. cbn [orb].
  unfold quote_handler, bind at 1, lift at 1. rewrite Hfrom.
  unfold bind at 1, lift at 1. rewrite Hto.
  unfold bind at 1, lift at 1. rewrite Hn.
  unfold bind at 1. rewrite Hmarket.
  unfold bind at 1, findBestPoolForPair, bind at 1, await at 1, ret at 1.
  rewrite Hpools, Hrel. cbn [world calls console].
  unfold bind at 1, lift at 1, toDecimal_call.
  destruct (Qlt_bool (- MAX_FACTOR) (slippage_of body)
            && Qlt_bool (slippage_of body) MAX_FACTOR); cbv beta iota.
  - unfold bind at 1, await at 1. cbn [world calls console]. rewrite Hsim.
    destruct outcome as [simulation | e].
    + destruct (SimulationStatus.is_Ok (sim_status simulation)) eqn:Hok; cbn [negb].
      * destruct (accumulatedAmountOut simulation) as [out |].
        -- unfold bind, lift, ret.
           destruct (BN_toNumber (Pool.fee pool)) as [feeNumber | e];
             (split; [exact cheapest |]);
             (split; [apply callsSince_app; cbn [calls]; now rewrite <- app_assoc |]);
             (split; [reflexivity | discriminate]).
        -- unfold throw. split; [exact cheapest |].
           split; [apply callsSince_app; cbn [calls]; now rewrite <- app_assoc |].
           split; [reflexivity | discriminate].
      * unfold ret. split; [exact cheapest |].
        split; [apply callsSince_app; cbn [calls]; now rewrite <- app_assoc |].
        split; reflexivity.
    + split; [exact cheapest |].
      split; [apply callsSince_app; cbn [calls]; now rewrite <- app_assoc |].
      split; reflexivity.
  - split; [exact cheapest |].
    split; [apply callsSince_app; reflexivity |].
    split; reflexivity.
Qed.

(** A quote asked with a slippage of 100000000: the pools are there,
    and the answer is status 500 with the message of the assertion,
    before any simulation. *)
Lemma quote_with_slippage_out_of_range :
  api_quote Sample.fallback Sample.sdk
            (Sample.swapBody "ETH" "USDT" (1 # 1) (100000000 # 1)) Sample.start
  = (respond 500 "Assertion failed",
     {| world := 2%nat;
        calls := [CMarketBuild (Ok tt); CGetAllPools (Ok [Sample.dear; Sample.cheap])];
        console := [] |}).
Proof. vm_compute. reflexivity. Qed.

(* ------------------------------------------------------------------ *)
(** ** The theorems at sample requests

    One ETH for USDT on scripted Ledgers: [Sample.fallback] enumerates
    the pool of fee 500000000 before the pool of fee 100000000, refuses
    the simulation of the cheaper pool and accepts the other. *)

Lemma direction_flag_follows_canonical_token_witness :
  Forall (directionHolds Sample.sdk NATIVE_MINT
            (resolvedFor Sample.sdk NATIVE_MINT Sample.USDT))
    (callsSince Sample.start
       (snd (performTokenSwap Sample.fallback Sample.sdk "ETH" "USDT" (1 # 1)
               (1 # 2) "key" Sample.start)))
  /\ Forall (directionHolds Sample.sdk App.ETH_MINT
               (fun pair => fixedPair Sample.sdk App.ETH_MINT App.USDT_MINT pair
                            \/ fixedPair Sample.sdk App.ETH_MINT App.USDC_MINT pair))
       (callsSince Sample.start
          (snd (App.performDocumentationStyleSwap
                  (Sample.willing [Sample.cheap]) Sample.sdk "wallet" Sample.start))).
Proof.
  split.
  - apply (proj1 direction_flag_follows_canonical_token nat Sample.fallback
             Sample.sdk "ETH" "USDT" (1 # 1) (1 # 2) "key"
             Sample.ethInfo Sample.usdtInfo Sample.start);
      reflexivity.
  - apply (proj2 direction_flag_follows_canonical_token nat
             (Sample.willing [Sample.cheap]) Sample.sdk "wallet" Sample.start).
    intros a b. reflexivity.
Defined.

Lemma first_success_returns_at_once_witness :
  exists result st',
    performTokenSwap Sample.fallback Sample.sdk "ETH" "USDT" (1 # 1) (1 # 2) "key"
                     Sample.start = (Ok result, st')
    /\ SwapResult.transactionHash result = "tx-dear"
    /\ SwapResult.poolUsed_address result
       = getAddress Sample.sdk (pairOf Sample.sdk Sample.dear)
    /\ SwapResult.poolUsed_fee result = 500000000.
Proof.
  edestruct (first_success_returns_at_once Sample.fallback Sample.sdk
               "ETH" "USDT" (1 # 1) (1 # 2) "key" (ctx := Sample.ctx)
               [Sample.cheap] Sample.dear [] Sample.start)
    as (result & E & _ & Htx & Haddress & Hfee).
  - vm_compute; reflexivity.
  - vm_compute; reflexivity.
  - vm_compute; reflexivity.
  - vm_compute; reflexivity.
  - reflexivity.
  - vm_compute; reflexivity.
  - reflexivity.
  - exists result. eexists. split; [exact E |]. split; [exact Htx |].
    split; [exact Haddress | exact Hfee].
Defined.

Lemma all_failed_fixed_message_reasons_logged_witness :
  exists st st1,
    performTokenSwap Sample.allRefused Sample.sdk "ETH" "USDT" (1 # 1) (1 # 2) "key"
                     Sample.start = (Throw ALL_FAILED_MESSAGE, st1)
    /\ linesSince st st1 = reasonsOf 1 (callsSince st st1)
    /\ linesSince st st1
       = [PoolSimulationFailed 1 (SimulationStatus.Other "LimitReached");
          PoolSimulationFailed 2 (SimulationStatus.Other "LimitReached")].
Proof.
  do 2 eexists.
  edestruct (all_failed_fixed_message_reasons_logged Sample.allRefused Sample.sdk
               "ETH" "USDT" (1 # 1) (1 # 2) "key" (ctx := Sample.ctx)
               (pool := Sample.cheap) (rest := [Sample.dear]) Sample.start)
    as (E & R & _);
    [vm_compute; reflexivity | vm_compute; reflexivity | vm_compute; reflexivity |].
  split; [exact E |]. split; [exact R | vm_compute; reflexivity].
Defined.

Lemma invalid_swap_request_rejected_before_network_witness :
  (exists error,
     api_swap (Sample.willing [Sample.cheap]) Sample.sdk
              (Sample.swapBody "ETH" "USDT" (0 # 1) (1 # 2)) Sample.start
     = (respond 400 error, Sample.start))
  /\ (exists error,
        api_swap (Sample.willing [Sample.cheap]) Sample.sdk
                 (Sample.swapBody "ETH" "USDT" (-5 # 1) (1 # 2)) Sample.start
        = (respond 400 error, Sample.start))
  /\ (exists error,
        api_swap (Sample.willing [Sample.cheap]) Sample.sdk
                 (Sample.swapBody "eth" "ETH" (1 # 1) (1 # 2)) Sample.start
        = (respond 400 error, Sample.start))
  /\ (exists error,
        api_swap (Sample.willing [Sample.cheap]) Sample.sdk
                 (Sample.swapBody "ETH" "USDT" (1 # 1) (75 # 1)) Sample.start
        = (respond 400 error, Sample.start)).
Proof.
  repeat split; apply invalid_swap_request_rejected_before_network.
  - left. exists (0 # 1). split; [reflexivity | discriminate].
  - left. exists (-5 # 1). split; [reflexivity | discriminate].
  - right. left. exists "eth", "ETH". repeat split.
  - right. right. right. reflexivity.
Defined.

Lemma no_pools_found_short_circuits_witness :
  exists st',
    performTokenSwap (Sample.willing [Sample.foreign]) Sample.sdk "ETH" "USDT"
                     (1 # 1) (1 # 2) "key" Sample.start
    = (Throw "No liquidity pools found for ETH/USDT pair", st')
    /\ Forall quiet (callsSince Sample.start st').
Proof.
  eexists.
  edestruct (no_pools_found_short_circuits (Sample.willing [Sample.foreign])
               Sample.sdk "ETH" "USDT" (1 # 1) (1 # 2) "key" (ctx := Sample.ctx)
               Sample.start) as (E & _ & Q).
  - vm_compute; reflexivity.
  - split; [exact E | exact Q].
Defined.

Lemma only_matching_pools_are_attempted_witness :
  (forall pool,
     In pool [Sample.cheap; Sample.dear] <->
     In pool [Sample.foreign; Sample.dear; Sample.cheap]
     /\ matchesPair NATIVE_MINT Sample.USDT pool = true)
  /\ Forall (madeFor Sample.sdk
               (fun pool => matchesPair NATIVE_MINT Sample.USDT pool = true))
       (callsSince Sample.start
          (snd (performTokenSwap
                  (Sample.willing [Sample.foreign; Sample.dear; Sample.cheap])
                  Sample.sdk "ETH" "USDT" (1 # 1) (1 # 2) "key" Sample.start))).
Proof.
  destruct (only_matching_pools_are_attempted
              (Sample.willing [Sample.foreign; Sample.dear; Sample.cheap]) Sample.sdk
              "ETH" "USDT" (1 # 1) (1 # 2) "key" (fromTokenInfo := Sample.ethInfo)
              (toTokenInfo := Sample.usdtInfo) Sample.start eq_refl eq_refl)
    as [candidates attempts].
  split; [| exact attempts].
  destruct (candidates Sample.ctx [Sample.cheap; Sample.dear]
              {| world := 2%nat;
                 calls := [CMarketBuild (Ok tt);
                           CGetAllPools
                             (Ok [Sample.foreign; Sample.dear; Sample.cheap])];
                 console := [] |} eq_refl)
    as (allPools & enumerated & exactly & _).
  vm_compute in enumerated.
  destruct enumerated as [impossible | [enumerated | []]]; [discriminate |].
  injection enumerated as <-. exact exactly.
Defined.

Lemma quantity_is_amount_scaled_by_decimals_witness :
  Forall (quantityIs 2000000000)
    (callsSince Sample.start
       (snd (performTokenSwap (Sample.willing [Sample.cheap]) Sample.sdk
               "ETH" "USDT" (inject_Z 2) (1 # 2) "key" Sample.start))).
Proof.
  apply (quantity_is_amount_scaled_by_decimals (Sample.willing [Sample.cheap])
           Sample.sdk "ETH" "USDT" 2 (1 # 2) "key"
           (fromTokenInfo := Sample.ethInfo) Sample.start).
  reflexivity.
Defined.

Lemma quote_simulates_first_candidate_only_witness :
  let (response, st') :=
    api_quote Sample.fallback Sample.sdk
              (Sample.swapBody "ETH" "USDT" (1 # 1) (1 # 2)) Sample.start in
  response = respond 400 "Simulation failed: LimitReached"
  /\ map isSimulation (calls st') = [false; false; true]
  /\ map isSwap (calls st') = [false; false; false].
Proof.
  pose proof (quote_simulates_first_candidate_only Sample.fallback Sample.sdk
                (Sample.swapBody "ETH" "USDT" (1 # 1) (1 # 2))
                (fromToken := "ETH") (toToken := "USDT") (amount := 1 # 1)
                (fromTokenInfo := Sample.ethInfo) (toTokenInfo := Sample.usdtInfo)
                (n := 1) Sample.start
                (st1 := {| world := 1%nat; calls := [CMarketBuild (Ok tt)];
                           console := [] |})
                (allPools := [Sample.dear; Sample.cheap]) (w2 := 2%nat) (w3 := 3%nat)
                (pool := Sample.cheap) (rest := [Sample.dear])
                (outcome := Ok (Sample.refused "LimitReached"))
                eq_refl eq_refl eq_refl) as H.
  destruct (api_quote Sample.fallback Sample.sdk
              (Sample.swapBody "ETH" "USDT" (1 # 1) (1 # 2)) Sample.start)
    as [response st'] eqn:E.
  destruct H as (_ & _ & _ & H); try (vm_compute; reflexivity);
    try discriminate.
  split; [apply H; reflexivity |].
  vm_compute in E. injection E as <- <-. split; reflexivity.
Defined.

(* ================================================================== *)
(** * Further properties of the code *)

(* ------------------------------------------------------------------ *)
(** ** The registry and the symbols of a request *)

Lemma upper_ascii_idempotent (c : ascii) :
  upper_ascii (upper_ascii c) = upper_ascii c.
Proof. destruct c as [[] [] [] [] [] [] [] []]; reflexivity. Qed.

Lemma toUpperCase_idempotent (s : string) :
  toUpperCase (toUpperCase s) = toUpperCase s.
Proof.
  induction s as [| c r IH]; cbn; [reflexivity |].
  now rewrite upper_ascii_idempotent, IH.
Qed.

(** Every key of the registry is in upper case and is the symbol of its
    entry. *)
Lemma lookup_registry (k : string) (t : TokenInfo) :
  lookup k TOKEN_REGISTRY = Some t ->
  symbol t = k /\ toUpperCase k = k /\ lookup (symbol t) TOKEN_REGISTRY = Some t.
Proof.
  unfold TOKEN_REGISTRY. cbn [lookup].
  repeat match goal with
  | |- context [String.eqb k ?x] =>
      destruct (String.eqb_spec k x) as [-> | _];
      [ intro H; injection H as <-; repeat split; reflexivity |]
  end.
  discriminate.
Qed.

(** Two entries of the registry on one mint run on one token program. *)
Lemma registry_program_of_mint (a b : string) (ta tb : TokenInfo) :
  lookup a TOKEN_REGISTRY = Some ta -> lookup b TOKEN_REGISTRY = Some tb ->
  mint ta = mint tb -> tokenProgram ta = tokenProgram tb.
Proof.
  unfold TOKEN_REGISTRY. cbn [lookup].
  repeat match goal with
  | |- context [String.eqb a ?x] =>
      destruct (String.eqb_spec a x) as [-> | _]
  end;
  try discriminate;
  (intro H; injection H as <-);
  repeat match goal with
  | |- context [String.eqb b ?x] =>
      destruct (String.eqb_spec b x) as [-> | _]
  end;
  try discriminate;
  (intro H; injection H as <-); cbn; intro E; try reflexivity; discriminate E.
Qed.

Lemma getTokenInfo_lookup (s : string) (t : TokenInfo) :
  getTokenInfo s = Ok t <-> lookup (toUpperCase s) TOKEN_REGISTRY = Some t.
Proof.
  unfold getTokenInfo. destruct (lookup (toUpperCase s) TOKEN_REGISTRY).
  - split; intro H; injection H as ->; reflexivity.
  - split; discriminate.
Qed.

(** X1.  [getTokenInfo] resolves a symbol by its upper-case form: the
    token it returns carries that form as its symbol, every spelling
    with the same upper-case form resolves to the same token, and so
    does the symbol the token carries. *)
Theorem getTokenInfo_resolves_by_upper_case (s : string) (t : TokenInfo) :
  getTokenInfo s = Ok t ->
  symbol t = toUpperCase s
  /\ getTokenInfo (symbol t) = Ok t
  /\ forall s', toUpperCase s' = toUpperCase s -> getTokenInfo s' = Ok t.
Proof.
  intro H. apply getTokenInfo_lookup in H.
  destruct (lookup_registry _ H) as (Hs & Hu & Hl).
  split; [exact Hs |]. split.
  - apply getTokenInfo_lookup. rewrite Hs, toUpperCase_idempotent. exact H.
  - intros s' E. apply getTokenInfo_lookup. now rewrite E.
Qed.

Lemma getTokenInfo_resolves_by_upper_case_witness :
  symbol Sample.usdtInfo = toUpperCase "usdt"
  /\ getTokenInfo (symbol Sample.usdtInfo) = Ok Sample.usdtInfo
  /\ forall s', toUpperCase s' = toUpperCase "usdt" ->
                getTokenInfo s' = Ok Sample.usdtInfo.
Proof.
  apply (@getTokenInfo_resolves_by_upper_case "usdt" Sample.usdtInfo).
  reflexivity.
Defined.

(** X2.  The three symbols ETH, SOL and WETH are one token for the
    Ledger: whenever two symbols resolve to the same mint, the tokens
    run on the same token program and a request between them discovers
    exactly the pools whose two sides are both that mint. *)
Theorem symbols_of_one_mint (a b : string) (ta tb : TokenInfo)
    (allPools : list Pool.t) (pool : Pool.t) :
  getTokenInfo a = Ok ta -> getTokenInfo b = Ok tb -> mint ta = mint tb ->
  tokenProgram ta = tokenProgram tb
  /\ (In pool (relevantPools allPools (mint ta) (mint tb)) <->
      In pool allPools /\ Pool.tokenX pool = mint ta /\ Pool.tokenY pool = mint ta).
Proof.
  intros Ha Hb E. apply getTokenInfo_lookup in Ha, Hb. split.
  - exact (registry_program_of_mint _ _ Ha Hb E).
  - rewrite relevantPools_In, <- E. unfold matchesPair, equals.
    rewrite orb_diag, andb_true_iff, !String.eqb_eq. tauto.
Qed.

Lemma symbols_of_one_mint_witness :
  tokenProgram Sample.ethInfo = TOKEN_PROGRAM_ID
  /\ (In Sample.cheap
         (relevantPools [Sample.cheap] NATIVE_MINT NATIVE_MINT) <->
      In Sample.cheap [Sample.cheap]
      /\ Pool.tokenX Sample.cheap = NATIVE_MINT
      /\ Pool.tokenY Sample.cheap = NATIVE_MINT).
Proof.
  apply (@symbols_of_one_mint "ETH" "SOL" Sample.ethInfo
           {| mint := NATIVE_MINT; symbol := "SOL"; name := "Solana";
              decimals := 9; tokenProgram := TOKEN_PROGRAM_ID |}
           [Sample.cheap] Sample.cheap); reflexivity.
Defined.

(* ------------------------------------------------------------------ *)
(** ** Pool discovery *)

Lemma matchesPair_sym (tokenA tokenB : PublicKey) (pool : Pool.t) :
  matchesPair tokenA tokenB pool = matchesPair tokenB tokenA pool.
Proof. unfold matchesPair. apply orb_comm. Qed.

Lemma relevantPools_sym (allPools : list Pool.t) (tokenA tokenB : PublicKey) :
  relevantPools allPools tokenA tokenB = relevantPools allPools tokenB tokenA.
Proof.
  unfold relevantPools. f_equal. apply filter_ext. intro pool.
  apply matchesPair_sym.
Qed.

(** X3.  Pool discovery does not depend on which of the two tokens is
    sold: on the same Ledger state, [findBestPoolForPair] for (A, B)
    and for (B, A) returns the same candidates in the same order and
    leaves the same state. *)
Theorem discovery_ignores_token_order {World} (ledger : LedgerClient World)
    (tokenA tokenB : PublicKey) (st : State World) :
  findBestPoolForPair ledger tokenA tokenB st
  = findBestPoolForPair ledger tokenB tokenA st.
Proof.
  unfold findBestPoolForPair, bind. destruct (await _ _ st) as [[allPools | e] st'].
  - unfold ret. now rewrite relevantPools_sym.
  - reflexivity.
Qed.

(* ------------------------------------------------------------------ *)
(** ** Counting the calls of a computation *)

Section AtMost.
Context {World : Type}.
Variable f : Call -> bool.

Lemma atMost_ret {A} (a : A) : atMost (World := World) f 0 (ret a).
Proof. intro st. exists []. cbn. now rewrite app_nil_r. Qed.

Lemma atMost_throw {A} (e : string) : atMost (World := World) (A := A) f 0 (throw e).
Proof. intro st. exists []. cbn. now rewrite app_nil_r. Qed.

Lemma atMost_lift {A} (x : Exc A) : atMost (World := World) f 0 (lift x).
Proof. intro st. exists []. cbn. now rewrite app_nil_r. Qed.

Lemma atMost_await {A} (op : World -> Exc A * World) (record : Exc A -> Call) :
  atMost f 1 (await op record).
Proof.
  intro st. unfold await. destruct (op (world st)) as [r w]. cbn.
  exists [record r]. split; [reflexivity |]. cbn. destruct (f (record r)); cbn; lia.
Qed.

Lemma atMost_await_other {A} (op : World -> Exc A * World) (record : Exc A -> Call) :
  (forall r, f (record r) = false) -> atMost f 0 (await op record).
Proof.
  intros H st. unfold await. destruct (op (world st)) as [r w]. cbn.
  exists [record r]. split; [reflexivity |]. cbn. now rewrite H.
Qed.

Lemma atMost_bind {A B} (n1 n2 : nat) (m : M World A) (k : A -> M World B) :
  atMost f n1 m -> (forall a, atMost f n2 (k a)) -> atMost f (n1 + n2) (bind m k).
Proof.
  intros Hm Hk st. unfold bind. destruct (Hm st) as (new1 & C1 & L1).
  destruct (m st) as [[a | e] st1]; cbn [snd] in *.
  - destruct (Hk a st1) as (new2 & C2 & L2).
    exists (new1 ++ new2)%list. rewrite C2, C1, app_assoc. split; [reflexivity |].
    rewrite filter_app, length_app. lia.
  - exists new1. split; [exact C1 | lia].
Qed.

Lemma atMost_try_catch {A} (n1 n2 : nat) (m : M World A)
    (handler : string -> M World A) :
  atMost f n1 m -> (forall e, atMost f n2 (handler e)) ->
  atMost f (n1 + n2) (try_catch m handler).
Proof.
  intros Hm Hh st. unfold try_catch. destruct (Hm st) as (new1 & C1 & L1).
  destruct (m st) as [[a | e] st1]; cbn [snd] in *.
  - exists new1. split; [exact C1 | lia].
  - destruct (Hh e st1) as (new2 & C2 & L2).
    exists (new1 ++ new2)%list. rewrite C2, C1, app_assoc. split; [reflexivity |].
    rewrite filter_app, length_app. lia.
Qed.

Lemma atMost_le {A} (n n' : nat) (m : M World A) :
  (n <= n')%nat -> atMost f n m -> atMost f n' m.
Proof.
  intros Hle Hm st. destruct (Hm st) as (new & C & L). exists new. split; [exact C | lia].
Qed.

End AtMost.

Lemma simulatedAddresses_app (l1 l2 : list Call) :
  simulatedAddresses (l1 ++ l2)
  = (simulatedAddresses l1 ++ simulatedAddresses l2)%list.
Proof.
  induction l1 as [| c l1 IH]; [reflexivity |].
  destruct c; cbn; rewrite IH; reflexivity.
Qed.

Lemma simulatedAddresses_none (l : list Call) :
  Forall quiet l -> simulatedAddresses l = [].
Proof.
  induction 1 as [| c l [Hs _] _ IH]; [reflexivity |].
  destruct c; cbn in *; try exact IH. discriminate.
Qed.

Lemma quiet_not_accepted (l : list Call) :
  Forall quiet l -> Forall (fun c => isAccepted c = false) l.
Proof.
  apply Forall_impl. intros c [_ Hx]. destruct c; try reflexivity. discriminate.
Qed.

Lemma StronglySorted_prefix (A : Type) (R : A -> A -> Prop) (l1 l2 : list A) :
  StronglySorted R (l1 ++ l2) -> StronglySorted R l1.
Proof.
  induction l1 as [| x l1 IH]; cbn; intro H; [constructor |].
  inversion H as [| ? ? Hs Hf]; subst. constructor; [now apply IH |].
  apply Forall_app in Hf. tauto.
Qed.

(* ------------------------------------------------------------------ *)
(** ** The anatomy of [performTokenSwap] *)

Section Turns.
Context {World : Type}.
Variable ledger : LedgerClient World.
Variable sdk : Sdk.
Variable ctx : SwapContext.

(** One turn of the loop either returns, after the simulation and the
    accepted execution of its pool, or goes on to the next pool. *)
Lemma tryPool_step (i : nat) (pool : Pool.t) (st : State World) :
  (exists simulation txHash feeNumber st',
     tryPool ledger sdk ctx i pool st
     = (Ok (Some (resultOf sdk ctx pool simulation txHash feeNumber)), st')
     /\ sim_status simulation = SimulationStatus.Ok
     /\ BN_toNumber (Pool.fee pool) = Ok feeNumber
     /\ calls st' = (calls st ++
                     [simulationCall sdk ctx pool (Ok simulation);
                      CMarketSwap (swapArgs sdk ctx pool simulation) (Ok txHash)])%list)
  \/ (exists st' new,
        tryPool ledger sdk ctx i pool st = (Ok None, st')
        /\ calls st' = (calls st ++ new)%list
        /\ simulatedAddresses new = [poolAddressOf sdk pool]
        /\ (safeFee pool -> Forall (fun c => isAccepted c = false) new)).
Proof.
  pose proof (tryPool_cases ledger sdk ctx i pool st) as C.
  destruct (simulate ledger sdk ctx pool (world st)) as [[simulation | e] w1].
  - destruct (SimulationStatus.is_Ok (sim_status simulation)) eqn:Hok.
    + assert (Hs : sim_status simulation = SimulationStatus.Ok)
        by (destruct (sim_status simulation); [reflexivity | discriminate]).
      destruct (market_swap ledger (swapArgs sdk ctx pool simulation) w1)
        as [[txHash | e] w2].
      * destruct (BN_toNumber (Pool.fee pool)) as [feeNumber | e] eqn:Hfee.
        -- left. eexists _, _, _, _. split; [exact C |]. cbn. auto.
        -- right. eexists _, _. split; [exact C |]. cbn. repeat split.
           intro Hsafe. unfold safeFee in Hsafe.
           rewrite (BN_toNumber_safe _ Hsafe) in Hfee. discriminate.
      * right. eexists _, _. split; [exact C |]. cbn. repeat split.
        intros _. repeat constructor.
    + right. eexists _, _. split; [exact C |]. cbn. repeat split.
      intros _. repeat constructor.
  - right. eexists _, _. split; [exact C |]. cbn. repeat split.
    intros _. repeat constructor.
Qed.

(** The loop simulates the candidates one by one, in their order, and
    stops at the first whose execution is accepted. *)
Lemma tryPools_outcome (pools : list Pool.t) :
  forall (i : nat) (st : State World),
  (exists pre pool post simulation txHash feeNumber st' tracePre,
     pools = (pre ++ pool :: post)%list
     /\ tryPools ledger sdk ctx i pools st
        = (Ok (Some (resultOf sdk ctx pool simulation txHash feeNumber)), st')
     /\ sim_status simulation = SimulationStatus.Ok
     /\ BN_toNumber (Pool.fee pool) = Ok feeNumber
     /\ calls st' = (calls st ++ tracePre ++
                     [simulationCall sdk ctx pool (Ok simulation);
                      CMarketSwap (swapArgs sdk ctx pool simulation) (Ok txHash)])%list
     /\ simulatedAddresses tracePre = map (poolAddressOf sdk) pre
     /\ (Forall safeFee pre -> Forall (fun c => isAccepted c = false) tracePre))
  \/ (exists st' new,
        tryPools ledger sdk ctx i pools st = (Ok None, st')
        /\ calls st' = (calls st ++ new)%list
        /\ simulatedAddresses new = map (poolAddressOf sdk) pools
        /\ (Forall safeFee pools -> Forall (fun c => isAccepted c = false) new)).
Proof.
  induction pools as [| pool rest IH]; intros i st.
  - right. exists st, []. cbn. rewrite app_nil_r. auto.
  - cbn [tryPools]. unfold bind.
    destruct (tryPool_step i pool st)
      as [(simulation & txHash & feeNumber & st' & E & Hs & Hfee & C)
         | (st1 & new1 & E & C1 & A1 & N1)]; rewrite E.
    + left. exists [], pool, rest, simulation, txHash, feeNumber, st', [].
      cbn. repeat split; auto.
    + destruct (IH (S i) st1)
        as [(pre & p & post & simulation & txHash & feeNumber & st' & tracePre
             & -> & E2 & Hs & Hfee & C2 & A2 & N2)
           | (st' & new2 & E2 & C2 & A2 & N2)].
      * left.
        exists (pool :: pre), p, post, simulation, txHash, feeNumber, st',
               (new1 ++ tracePre)%list.
        split; [reflexivity |]. split; [exact E2 |]. split; [exact Hs |].
        split; [exact Hfee |].
        split; [rewrite C2, C1, <- !app_assoc; reflexivity |].
        split; [rewrite simulatedAddresses_app, A1, A2; reflexivity |].
        intro F. inversion F; subst. apply Forall_app. auto.
      * right. exists st', (new1 ++ new2)%list.
        split; [exact E2 |].
        split; [rewrite C2, C1, <- app_assoc; reflexivity |].
        split; [rewrite simulatedAddresses_app, A1, A2; reflexivity |].
        intro F. inversion F; subst. apply Forall_app. auto.
Qed.

End Turns.

Section Anatomy.
Context {World : Type}.
Variable ledger : LedgerClient World.
Variable sdk : Sdk.

Ltac emitting :=
  repeat first
    [ apply emits_bind | apply emits_try_catch | apply emits_ret
    | apply emits_throw | apply emits_lift
    | apply emits_await; intro; cbn; auto
    | intro ].

Ltac counting :=
  repeat first
    [ eapply atMost_bind | eapply atMost_try_catch | apply atMost_ret
    | apply atMost_throw | apply atMost_lift
    | apply atMost_await_other; intro; reflexivity
    | apply atMost_await
    | intro ].

Lemma emits_run {A} (P : Call -> Prop) (m : M World A) (st st' : State World)
    (r : Exc A) :
  emits P m -> m st = (r, st') ->
  calls st' = (calls st ++ callsSince st st')%list
  /\ Forall P (callsSince st st')
  /\ console st' = console st.
Proof.
  intros H E. destruct (H st) as (new & C & F & L). rewrite E in C, L. cbn in C, L.
  rewrite (callsSince_app _ _ _ C). auto.
Qed.

Lemma atMost_run {A} (f : Call -> bool) (n : nat) (m : M World A)
    (st st' : State World) (r : Exc A) :
  atMost f n m -> m st = (r, st') ->
  (List.length (filter f (callsSince st st')) <= n)%nat.
Proof.
  intros H E. destruct (H st) as (new & C & L). rewrite E in C. cbn in C.
  now rewrite (callsSince_app _ _ _ C).
Qed.

Lemma discover_discovery (fromToken toToken : string) (amount slippagePercent : Q)
    (privateKey : string) :
  emits (fun c => isDiscovery c = true)
        (discover ledger sdk fromToken toToken amount slippagePercent privateKey).
Proof. unfold discover, initializeMarket, findBestPoolForPair. emitting. Qed.

Lemma discover_two_calls (fromToken toToken : string) (amount slippagePercent : Q)
    (privateKey : string) :
  atMost (fun _ => true) 2
         (discover ledger sdk fromToken toToken amount slippagePercent privateKey).
Proof.
  unfold discover, initializeMarket, findBestPoolForPair.
  eapply atMost_le; cycle 1; [counting | cbn; lia].
Qed.

Lemma discover_owner (fromToken toToken : string) (amount slippagePercent : Q)
    (privateKey : string) (st st' : State World) (ctx : SwapContext)
    (pools : list Pool.t) :
  discover ledger sdk fromToken toToken amount slippagePercent privateKey st
    = (Ok (ctx, pools), st') ->
  createKeypairFromPrivateKey sdk privateKey = Ok (ctx_owner ctx).
Proof.
  unfold discover, bind at 1, lift at 1.
  destruct (createKeypairFromPrivateKey sdk privateKey) as [publicKey | e];
    [| discriminate].
  unfold bind at 1.
  destruct (initializeMarket ledger st) as [[[] | e] st1]; [| discriminate].
  unfold bind at 1, lift at 1.
  destruct (getTokenInfo fromToken) as [fromTokenInfo | e]; [| discriminate].
  unfold bind at 1, lift at 1.
  destruct (getTokenInfo toToken) as [toTokenInfo | e]; [| discriminate].
  unfold bind at 1, lift at 1.
  destruct (BN_ofNumber amount) as [n | e]; [| discriminate].
  unfold bind.
  destruct (findBestPoolForPair ledger (mint fromTokenInfo) (mint toTokenInfo) st1)
    as [[found | e] st2]; [| discriminate].
  unfold ret. intro H. injection H as <- <- <-. reflexivity.
Qed.

Lemma ensureAccounts_provisioning (ctx : SwapContext) :
  emits (fun c => isGetAccount c || isSendTransaction c = true)
        (ensureAccounts ledger sdk ctx).
Proof. unfold ensureAccounts, createTokenAccountIfNeeded. emitting. Qed.

Lemma ensureAccounts_two_checks (ctx : SwapContext) :
  atMost isGetAccount 2 (ensureAccounts ledger sdk ctx).
Proof.
  unfold ensureAccounts, createTokenAccountIfNeeded.
  eapply atMost_le; cycle 1; [counting | cbn; lia].
Qed.

Lemma ensureAccounts_two_transactions (ctx : SwapContext) :
  atMost isSendTransaction 2 (ensureAccounts ledger sdk ctx).
Proof.
  unfold ensureAccounts, createTokenAccountIfNeeded.
  eapply atMost_le; cycle 1; [counting | cbn; lia].
Qed.

Lemma ensureAccounts_accounts (ctx : SwapContext) :
  emits (checksOnly
           [ getAssociatedTokenAddressSync sdk (mint (ctx_fromTokenInfo ctx))
               (ctx_owner ctx) (tokenProgram (ctx_fromTokenInfo ctx));
             getAssociatedTokenAddressSync sdk (mint (ctx_toTokenInfo ctx))
               (ctx_owner ctx) (tokenProgram (ctx_toTokenInfo ctx)) ])
        (ensureAccounts ledger sdk ctx).
Proof.
  unfold ensureAccounts, createTokenAccountIfNeeded. emitting.
Qed.

(** How a request ends: in discovery, on an empty list of candidates,
    in account provisioning, or in the loop. *)
Lemma performTokenSwap_anatomy (fromToken toToken : string)
    (amount slippagePercent : Q) (privateKey : string) (st : State World) :
  let run :=
    performTokenSwap ledger sdk fromToken toToken amount slippagePercent
      privateKey st in
  let found :=
    discover ledger sdk fromToken toToken amount slippagePercent privateKey st in
  (exists m st', found = (Throw m, st') /\ run = (Throw m, st'))
  \/ (exists ctx sta,
        found = (Ok (ctx, []), sta)
        /\ run = (Throw (NO_POOLS_MESSAGE fromToken toToken), sta))
  \/ (exists ctx pool rest sta m stb,
        found = (Ok (ctx, pool :: rest), sta)
        /\ ensureAccounts ledger sdk ctx sta = (Throw m, stb)
        /\ run = (Throw m, stb))
  \/ (exists ctx pool rest sta stb st',
        found = (Ok (ctx, pool :: rest), sta)
        /\ ensureAccounts ledger sdk ctx sta = (Ok tt, stb)
        /\ tryPools ledger sdk ctx 0 (pool :: rest) stb = (Ok None, st')
        /\ run = (Throw ALL_FAILED_MESSAGE, st'))
  \/ (exists ctx pool rest sta stb st' result,
        found = (Ok (ctx, pool :: rest), sta)
        /\ ensureAccounts ledger sdk ctx sta = (Ok tt, stb)
        /\ tryPools ledger sdk ctx 0 (pool :: rest) stb = (Ok (Some result), st')
        /\ run = (Ok result, st')).
Proof.
  cbv zeta. rewrite performTokenSwap_unfold.
  destruct (discover ledger sdk fromToken toToken amount slippagePercent privateKey st)
    as [[[ctx [| pool rest]] | e] sta] eqn:D.
  - right; left. eauto.
  - rewrite route_unfold.
    destruct (ensureAccounts ledger sdk ctx sta) as [[[] | e] stb] eqn:Ea.
    + destruct (tryPools_run ledger sdk ctx (pool :: rest) 0 stb)
        as (r & st' & new & lines & E & _).
      rewrite E. destruct r as [result |].
      * do 4 right. exists ctx, pool, rest, sta, stb, st', result.
        repeat split; auto.
      * do 3 right; left. exists ctx, pool, rest, sta, stb, st'.
        repeat split; auto.
    + do 2 right; left. exists ctx, pool, rest, sta, e, stb.
      repeat split; auto.
  - left. eauto.
Qed.

Lemma Attempted_trading (ctx : SwapContext) (pools : list Pool.t) (l : list Call) :
  Attempted sdk ctx pools l -> Forall (fun c => isSimulation c || isSwap c = true) l.
Proof. apply Attempted_Forall; intros; reflexivity. Qed.

(** X4.  A request of [performTokenSwap] runs in three phases that do
    not interleave: at most two calls of discovery (market, then the
    enumeration of the pools); then account provisioning, at most two
    balance checks and at most two transactions, done once for the
    request and not once per candidate; then only simulations and
    executions. *)
Theorem request_runs_in_three_phases (fromToken toToken : string)
    (amount slippagePercent : Q) (privateKey : string) (st : State World) :
  exists discovery provisioning attempts,
    callsSince st
      (snd (performTokenSwap ledger sdk fromToken toToken amount slippagePercent
              privateKey st))
    = (discovery ++ provisioning ++ attempts)%list
    /\ Forall (fun c => isDiscovery c = true) discovery
    /\ (List.length discovery <= 2)%nat
    /\ Forall (fun c => isGetAccount c || isSendTransaction c = true) provisioning
    /\ (List.length (filter isGetAccount provisioning) <= 2)%nat
    /\ (List.length (filter isSendTransaction provisioning) <= 2)%nat
    /\ Forall (fun c => isSimulation c || isSwap c = true) attempts.
Proof.
  assert (Hall : forall l : list Call, filter (fun _ => true) l = l).
  { induction l as [| c l IH]; cbn; congruence. }
  assert (Hd : forall r sta,
            discover ledger sdk fromToken toToken amount slippagePercent
              privateKey st = (r, sta) ->
            calls sta = (calls st ++ callsSince st sta)%list
            /\ Forall (fun c => isDiscovery c = true) (callsSince st sta)
            /\ (List.length (callsSince st sta) <= 2)%nat).
  { intros r sta E.
    destruct (emits_run _ (discover_discovery _ _ _ _ _) E) as (C & F & _).
    pose proof (atMost_run _ (discover_two_calls _ _ _ _ _) E) as L.
    rewrite Hall in L. auto. }
  assert (He : forall ctx r sta stb,
            ensureAccounts ledger sdk ctx sta = (r, stb) ->
            calls stb = (calls sta ++ callsSince sta stb)%list
            /\ Forall (fun c => isGetAccount c || isSendTransaction c = true)
                      (callsSince sta stb)
            /\ (List.length (filter isGetAccount (callsSince sta stb)) <= 2)%nat
            /\ (List.length (filter isSendTransaction (callsSince sta stb)) <= 2)%nat).
  { intros ctx r sta stb E.
    destruct (emits_run _ (ensureAccounts_provisioning ctx) E) as (C & F & _).
    pose proof (atMost_run _ (ensureAccounts_two_checks ctx) E).
    pose proof (atMost_run _ (ensureAccounts_two_transactions ctx) E). auto. }
  assert (Ht : forall ctx pools r stb st',
            tryPools ledger sdk ctx 0 pools stb = (r, st') ->
            calls st' = (calls stb ++ callsSince stb st')%list
            /\ Forall (fun c => isSimulation c || isSwap c = true)
                      (callsSince stb st')).
  { intros ctx pools r stb st' E.
    destruct (tryPools_run ledger sdk ctx pools 0 stb)
      as (r' & st2 & new & lines & E' & C & _ & A & _).
    rewrite E in E'. injection E' as -> <-.
    rewrite (callsSince_app _ _ _ C). split; [exact C |].
    exact (Attempted_trading A). }
  destruct (performTokenSwap_anatomy fromToken toToken amount slippagePercent
              privateKey st)
    as [(m & st' & D & ->)
       | [(ctx & sta & D & ->)
       | [(ctx & pool & rest & sta & m & stb & D & E & ->)
       | [(ctx & pool & rest & sta & stb & st' & D & E & T & ->)
       | (ctx & pool & rest & sta & stb & st' & result & D & E & T & ->)]]]];
    cbn [snd].
  - destruct (Hd _ _ D) as (C & F & L).
    exists (callsSince st st'), [], []. rewrite !app_nil_r. cbn. repeat split; auto.
  - destruct (Hd _ _ D) as (C & F & L).
    exists (callsSince st sta), [], []. rewrite !app_nil_r. cbn. repeat split; auto.
  - destruct (Hd _ _ D) as (C & F & L). destruct (He _ _ _ _ E) as (C2 & F2 & L2 & L3).
    exists (callsSince st sta), (callsSince sta stb), []. rewrite !app_nil_r.
    split; [apply callsSince_app; rewrite C2, C, <- app_assoc; reflexivity |].
    repeat split; auto.
  - destruct (Hd _ _ D) as (C & F & L). destruct (He _ _ _ _ E) as (C2 & F2 & L2 & L3).
    destruct (Ht _ _ _ _ _ T) as (C3 & F3).
    exists (callsSince st sta), (callsSince sta stb), (callsSince stb st').
    split; [apply callsSince_app; rewrite C3, C2, C, <- !app_assoc; reflexivity |].
    repeat split; auto.
  - destruct (Hd _ _ D) as (C & F & L). destruct (He _ _ _ _ E) as (C2 & F2 & L2 & L3).
    destruct (Ht _ _ _ _ _ T) as (C3 & F3).
    exists (callsSince st sta), (callsSince sta stb), (callsSince stb st').
    split; [apply callsSince_app; rewrite C3, C2, C, <- !app_assoc; reflexivity |].
    repeat split; auto.
Qed.

End Anatomy.

Lemma BN_toNumber_Ok (b : BN) (n : Z) :
  BN_toNumber b = Ok n -> n = b /\ Z.abs b < MAX_SAFE.
Proof.
  unfold BN_toNumber. destruct (Z.abs b <? MAX_SAFE) eqn:H; [| discriminate].
  intro E. injection E as <-. split; [reflexivity | now apply Z.ltb_lt].
Qed.

Lemma pairOf_feeTier (sdk : Sdk) (pool : Pool.t) :
  ft_fee (Pair.feeTier (pairOf sdk pool)) = Pool.fee pool.
Proof. unfold pairOf, new_Pair. destruct (key_lt sdk _ _); reflexivity. Qed.

(** The pair of a pool holds the two tokens of the pool, in the
    canonical order. *)
Lemma pairOf_tokens (sdk : Sdk) (pool : Pool.t) :
  (Pair.tokenX (pairOf sdk pool) = Pool.tokenX pool
   /\ Pair.tokenY (pairOf sdk pool) = Pool.tokenY pool)
  \/ (Pair.tokenX (pairOf sdk pool) = Pool.tokenY pool
      /\ Pair.tokenY (pairOf sdk pool) = Pool.tokenX pool).
Proof. unfold pairOf, new_Pair. destruct (key_lt sdk _ _); cbn; auto. Qed.

Lemma matchesPair_tokens (tokenA tokenB : PublicKey) (pool : Pool.t) :
  matchesPair tokenA tokenB pool = true ->
  (Pool.tokenX pool = tokenA /\ Pool.tokenY pool = tokenB)
  \/ (Pool.tokenX pool = tokenB /\ Pool.tokenY pool = tokenA).
Proof.
  unfold matchesPair, equals.
  rewrite orb_true_iff, !andb_true_iff, !String.eqb_eq. tauto.
Qed.

Lemma quiet_no_simulation (l : list Call) :
  Forall quiet l -> existsb isSimulation l = false.
Proof.
  induction 1 as [| c l [Hs _] _ IH]; [reflexivity |]. cbn. now rewrite Hs, IH.
Qed.

Section Requests.
Context {World : Type}.
Variable ledger : LedgerClient World.
Variable sdk : Sdk.

Variables (fromToken toToken : string) (amount slippagePercent : Q).
Variable privateKey : string.

Lemma discovery_since (st sta : State World) (r : Exc (SwapContext * list Pool.t)) :
  discover ledger sdk fromToken toToken amount slippagePercent privateKey st
    = (r, sta) ->
  calls sta = (calls st ++ callsSince st sta)%list
  /\ Forall quiet (callsSince st sta)
  /\ Forall (fun c => isDiscovery c = true) (callsSince st sta).
Proof.
  intro E.
  destruct (emits_run _ (discover_quiet ledger sdk _ _ _ _ _) E) as (C & F & _).
  destruct (emits_run _ (discover_discovery ledger sdk _ _ _ _ _) E) as (_ & F' & _).
  auto.
Qed.

Lemma provisioning_since (ctx : SwapContext) (sta stb : State World) (r : Exc unit) :
  ensureAccounts ledger sdk ctx sta = (r, stb) ->
  calls stb = (calls sta ++ callsSince sta stb)%list
  /\ Forall quiet (callsSince sta stb)
  /\ Forall (fun c =>
               checksOnly
                 [ getAssociatedTokenAddressSync sdk (mint (ctx_fromTokenInfo ctx))
                     (ctx_owner ctx) (tokenProgram (ctx_fromTokenInfo ctx));
                   getAssociatedTokenAddressSync sdk (mint (ctx_toTokenInfo ctx))
                     (ctx_owner ctx) (tokenProgram (ctx_toTokenInfo ctx)) ] c
               /\ isGetAccount c || isSendTransaction c = true)
            (callsSince sta stb).
Proof.
  intro E.
  destruct (emits_run _ (ensureAccounts_quiet ledger sdk ctx) E) as (C & F & _).
  destruct (emits_run _ (ensureAccounts_accounts ledger sdk ctx) E) as (_ & F1 & _).
  destruct (emits_run _ (ensureAccounts_provisioning ledger sdk ctx) E) as (_ & F2 & _).
  split; [exact C |]. split; [exact F |].
  apply Forall_forall. intros c Hc. rewrite Forall_forall in F1, F2. auto.
Qed.

Lemma since_three (st sta stb st' : State World) :
  calls sta = (calls st ++ callsSince st sta)%list ->
  calls stb = (calls sta ++ callsSince sta stb)%list ->
  calls st' = (calls stb ++ callsSince stb st')%list ->
  callsSince st st'
  = (callsSince st sta ++ callsSince sta stb ++ callsSince stb st')%list.
Proof.
  intros C1 C2 C3. apply callsSince_app.
  rewrite C3, C2, C1, <- !app_assoc. reflexivity.
Qed.

Lemma since_two (st sta stb : State World) :
  calls sta = (calls st ++ callsSince st sta)%list ->
  calls stb = (calls sta ++ callsSince sta stb)%list ->
  callsSince st stb = (callsSince st sta ++ callsSince sta stb)%list.
Proof.
  intros C1 C2. apply callsSince_app. rewrite C2, C1, <- !app_assoc. reflexivity.
Qed.

(** X5.  A success is the report of an accepted execution: when
    [performTokenSwap] returns a result, the last call of the request is
    an execution the Ledger accepted, made for the owner of the private
    key; the result carries the hash the Ledger returned for it, the
    address and the fee of the pool it was made on, a fee [toNumber]
    could read, and the tokens and the amount of the request. *)
Theorem success_reports_the_accepted_execution
    (st st' : State World) (result : SwapResult.t) :
  performTokenSwap ledger sdk fromToken toToken amount slippagePercent privateKey st
  = (Ok result, st') ->
  exists before s,
    callsSince st st'
    = (before ++ [CMarketSwap s (Ok (SwapResult.transactionHash result))])%list
    /\ SwapResult.success result = true
    /\ SwapResult.poolUsed_address result = getAddress sdk (Swap.pair s)
    /\ SwapResult.poolUsed_fee result = ft_fee (Pair.feeTier (Swap.pair s))
    /\ Z.abs (SwapResult.poolUsed_fee result) < MAX_SAFE
    /\ SwapResult.poolUsed_feePercent result
       = (inject_Z (SwapResult.poolUsed_fee result) / inject_Z 1000000000)%Q
    /\ SwapResult.fromToken result = fromToken
    /\ SwapResult.toToken result = toToken
    /\ SwapResult.fromAmount result = amount
    /\ createKeypairFromPrivateKey sdk privateKey = Ok (Swap.owner s).
Proof.
  intro H.
  destruct (performTokenSwap_anatomy ledger sdk fromToken toToken amount
              slippagePercent privateKey st)
    as [(m & st1 & D & E)
       | [(ctx & sta & D & E)
       | [(ctx & pool & rest & sta & m & stb & D & Ea & E)
       | [(ctx & pool & rest & sta & stb & st1 & D & Ea & T & E)
       | (ctx & pool & rest & sta & stb & st1 & result1 & D & Ea & T & E)]]]];
    rewrite E in H; try discriminate.
  injection H as -> ->.
  destruct (discovery_since _ D) as (C1 & _ & _).
  destruct (provisioning_since _ _ Ea) as (C2 & _ & _).
  destruct (discover_result _ _ _ _ _ _ _ _ D)
    as (n & allPools & _ & _ & _ & _ & Hfrom & Hto & Hamount & _).
  pose proof (discover_owner _ _ _ _ _ _ _ _ D) as Howner.
  destruct (tryPools_outcome ledger sdk ctx (pool :: rest) 0 stb)
    as [(pre & p & post & simulation & txHash & feeNumber & st2 & tracePre
         & Hp & E2 & Hs & Hfee & C3 & _)
       | (st2 & new & E2 & _)]; rewrite T in E2; [| discriminate].
  injection E2 as -> ->.
  destruct (BN_toNumber_Ok _ Hfee) as (-> & Hsafe).
  exists (callsSince st sta ++ callsSince sta stb ++ tracePre
          ++ [simulationCall sdk ctx p (Ok simulation)])%list,
         (swapArgs sdk ctx p simulation).
  split.
  { apply callsSince_app. rewrite C3, C2, C1, <- !app_assoc. reflexivity. }
  cbn. rewrite pairOf_feeTier. repeat split; auto.
Qed.

(** X6.  Errors of trading do not escape the loop: when a request
    fails after at least one simulation was made, the failure is the
    fixed message, whatever the Ledger threw. *)
Theorem trading_errors_do_not_escape (st st' : State World) (m : string) :
  performTokenSwap ledger sdk fromToken toToken amount slippagePercent privateKey st
  = (Throw m, st') ->
  existsb isSimulation (callsSince st st') = true ->
  m = ALL_FAILED_MESSAGE.
Proof.
  intros H Hsim.
  destruct (performTokenSwap_anatomy ledger sdk fromToken toToken amount
              slippagePercent privateKey st)
    as [(m1 & st1 & D & E)
       | [(ctx & sta & D & E)
       | [(ctx & pool & rest & sta & m1 & stb & D & Ea & E)
       | [(ctx & pool & rest & sta & stb & st1 & D & Ea & T & E)
       | (ctx & pool & rest & sta & stb & st1 & result1 & D & Ea & T & E)]]]];
    rewrite E in H; try discriminate; injection H as <- <-.
  - destruct (discovery_since _ D) as (_ & Q & _).
    rewrite (quiet_no_simulation Q) in Hsim. discriminate.
  - destruct (discovery_since _ D) as (_ & Q & _).
    rewrite (quiet_no_simulation Q) in Hsim. discriminate.
  - destruct (discovery_since _ D) as (C1 & Q1 & _).
    destruct (provisioning_since _ _ Ea) as (C2 & Q2 & _).
    rewrite (since_two _ _ _ C1 C2), existsb_app, (quiet_no_simulation Q1),
      (quiet_no_simulation Q2) in Hsim. discriminate.
  - reflexivity.
Qed.

Lemma discovered_safe (st sta : State World) (ctx : SwapContext)
    (pools : list Pool.t) :
  discover ledger sdk fromToken toToken amount slippagePercent privateKey st
    = (Ok (ctx, pools), sta) ->
  (forall allPools, In (CGetAllPools (Ok allPools)) (callsSince st sta) ->
                    Forall safeFee allPools) ->
  Forall safeFee pools.
Proof.
  intros D Hsafe.
  destruct (discover_result _ _ _ _ _ _ _ _ D) as (n & allPools & _ & _ & _ & _ & _ & _ & _ & _ & Hin & ->).
  specialize (Hsafe _ Hin). rewrite Forall_forall in *. intros pool Hp.
  apply relevantPools_In in Hp. apply Hsafe. tauto.
Qed.

(** X7.  At most one execution is accepted per request, and only a
    success has one: when every pool the Ledger enumerated for the
    request has a fee below 2^53, a success ends with the only accepted
    execution of its trace and a failure has none. *)
Theorem at_most_one_accepted_execution (st : State World) :
  (forall allPools,
     In (CGetAllPools (Ok allPools)) (callsSince st (snd (performTokenSwap ledger sdk fromToken toToken amount slippagePercent
       privateKey st))) ->
     Forall safeFee allPools) ->
  match fst (performTokenSwap ledger sdk fromToken toToken amount slippagePercent
       privateKey st) with
  | Ok result =>
      exists before s,
        callsSince st (snd (performTokenSwap ledger sdk fromToken toToken amount slippagePercent
       privateKey st))
        = (before ++ [CMarketSwap s (Ok (SwapResult.transactionHash result))])%list
        /\ Forall (fun c => isAccepted c = false) before
  | Throw _ =>
      Forall (fun c => isAccepted c = false) (callsSince st (snd (performTokenSwap ledger sdk fromToken toToken amount slippagePercent
       privateKey st)))
  end.
Proof.
  destruct (performTokenSwap_anatomy ledger sdk fromToken toToken amount
              slippagePercent privateKey st)
    as [(m1 & st1 & D & E)
       | [(ctx & sta & D & E)
       | [(ctx & pool & rest & sta & m1 & stb & D & Ea & E)
       | [(ctx & pool & rest & sta & stb & st1 & D & Ea & T & E)
       | (ctx & pool & rest & sta & stb & st1 & result1 & D & Ea & T & E)]]]];
    rewrite E; cbn [fst snd]; intro Hsafe.
  - destruct (discovery_since _ D) as (_ & Q & _). now apply quiet_not_accepted.
  - destruct (discovery_since _ D) as (_ & Q & _). now apply quiet_not_accepted.
  - destruct (discovery_since _ D) as (C1 & Q1 & _).
    destruct (provisioning_since _ _ Ea) as (C2 & Q2 & _).
    rewrite (since_two _ _ _ C1 C2). apply Forall_app.
    split; now apply quiet_not_accepted.
  - destruct (discovery_since _ D) as (C1 & Q1 & _).
    destruct (provisioning_since _ _ Ea) as (C2 & Q2 & _).
    destruct (tryPools_outcome ledger sdk ctx (pool :: rest) 0 stb)
      as [(pre & p & post & simulation & txHash & feeNumber & st2 & tracePre
           & Hp & E2 & _)
         | (st2 & new & E2 & C3 & _ & N)]; rewrite T in E2; [discriminate |].
    injection E2 as <-.
    assert (C3' : calls st1 = (calls stb ++ callsSince stb st1)%list)
      by (now rewrite (callsSince_app _ _ _ C3)).
    rewrite (since_three _ _ _ _ C1 C2 C3') in *.
    rewrite (callsSince_app _ _ _ C3).
    apply Forall_app. split; [now apply quiet_not_accepted |].
    apply Forall_app. split; [now apply quiet_not_accepted |].
    apply N. apply (discovered_safe _ D). intros allPools Hin. apply Hsafe.
    apply in_or_app. now left.
  - destruct (discovery_since _ D) as (C1 & Q1 & _).
    destruct (provisioning_since _ _ Ea) as (C2 & Q2 & _).
    destruct (tryPools_outcome ledger sdk ctx (pool :: rest) 0 stb)
      as [(pre & p & post & simulation & txHash & feeNumber & st2 & tracePre
           & Hp & E2 & Hs & Hfee & C3 & _ & N)
         | (st2 & new & E2 & _)]; rewrite T in E2; [| discriminate].
    injection E2 as -> <-.
    assert (C3' : calls st1 = (calls stb ++ callsSince stb st1)%list)
      by (now rewrite (callsSince_app _ _ _ C3)).
    rewrite (since_three _ _ _ _ C1 C2 C3') in *.
    rewrite (callsSince_app _ _ _ C3).
    exists (callsSince st sta ++ callsSince sta stb ++ tracePre
            ++ [simulationCall sdk ctx p (Ok simulation)])%list,
           (swapArgs sdk ctx p simulation).
    split; [rewrite <- !app_assoc; reflexivity |].
    apply Forall_app. split; [now apply quiet_not_accepted |].
    apply Forall_app. split; [now apply quiet_not_accepted |].
    apply Forall_app. split; [| repeat constructor].
    apply N.
    assert (F : Forall safeFee (pool :: rest)).
    { apply (discovered_safe _ D). intros allPools Hin. apply Hsafe.
      apply in_or_app. now left. }
    rewrite Hp in F. apply Forall_app in F. tauto.
Qed.

(** X8.  The candidates are simulated at most once each, in the order
    of discovery, that is by fee from the lowest: the simulations of a
    request are those of a prefix of the candidates.  A success ends
    the prefix with the pool it reports; a failure either came before
    any simulation or, with the fixed message, after every candidate
    was simulated. *)
Theorem candidates_simulated_once_in_fee_order
    (st sta : State World) (ctx : SwapContext) (pools : list Pool.t) :
  discover ledger sdk fromToken toToken amount slippagePercent privateKey st
    = (Ok (ctx, pools), sta) ->
  exists tried rest,
    pools = (tried ++ rest)%list
    /\ simulatedAddresses (callsSince st (snd (performTokenSwap ledger sdk fromToken toToken amount slippagePercent
       privateKey st)))
       = map (poolAddressOf sdk) tried
    /\ StronglySorted (fun a b => Pool.fee a <= Pool.fee b) tried
    /\ match fst (performTokenSwap ledger sdk fromToken toToken amount slippagePercent
       privateKey st) with
       | Ok result =>
           exists pre pool,
             tried = (pre ++ [pool])%list
             /\ SwapResult.poolUsed_address result = poolAddressOf sdk pool
       | Throw m => tried = [] \/ (rest = [] /\ m = ALL_FAILED_MESSAGE)
       end.
Proof.
  intro D0.
  assert (Hsorted : StronglySorted (fun a b => Pool.fee a <= Pool.fee b) pools).
  { destruct (discover_result _ _ _ _ _ _ _ _ D0)
      as (n & allPools & _ & _ & _ & _ & _ & _ & _ & _ & _ & ->).
    apply relevantPools_sorted. }
  destruct (performTokenSwap_anatomy ledger sdk fromToken toToken amount
              slippagePercent privateKey st)
    as [(m1 & st1 & D & E)
       | [(ctx1 & sta1 & D & E)
       | [(ctx1 & pool & rest & sta1 & m1 & stb & D & Ea & E)
       | [(ctx1 & pool & rest & sta1 & stb & st1 & D & Ea & T & E)
       | (ctx1 & pool & rest & sta1 & stb & st1 & result1 & D & Ea & T & E)]]]];
    rewrite D0 in D; try discriminate;
    injection D as <- -> <-; rewrite E; cbn [fst snd].
  - exists [], []. destruct (discovery_since _ D0) as (_ & Q & _).
    rewrite (simulatedAddresses_none Q). repeat split; auto; try constructor.
  - exists [], (pool :: rest). destruct (discovery_since _ D0) as (C1 & Q1 & _).
    destruct (provisioning_since _ _ Ea) as (C2 & Q2 & _).
    rewrite (since_two _ _ _ C1 C2), simulatedAddresses_app,
      (simulatedAddresses_none Q1), (simulatedAddresses_none Q2).
    repeat split; auto; try constructor.
  - destruct (discovery_since _ D0) as (C1 & Q1 & _).
    destruct (provisioning_since _ _ Ea) as (C2 & Q2 & _).
    destruct (tryPools_outcome ledger sdk ctx (pool :: rest) 0 stb)
      as [(pre & p & post & simulation & txHash & feeNumber & st2 & tracePre
           & Hp & E2 & _)
         | (st2 & new & E2 & C3 & A & _)]; rewrite T in E2; [discriminate |].
    injection E2 as <-.
    exists (pool :: rest), []. rewrite app_nil_r.
    assert (C3' : calls st1 = (calls stb ++ callsSince stb st1)%list)
      by (now rewrite (callsSince_app _ _ _ C3)).
    rewrite (since_three _ _ _ _ C1 C2 C3'), (callsSince_app _ _ _ C3),
      !simulatedAddresses_app, (simulatedAddresses_none Q1),
      (simulatedAddresses_none Q2).
    repeat split; auto.
  - destruct (discovery_since _ D0) as (C1 & Q1 & _).
    destruct (provisioning_since _ _ Ea) as (C2 & Q2 & _).
    destruct (tryPools_outcome ledger sdk ctx (pool :: rest) 0 stb)
      as [(pre & p & post & simulation & txHash & feeNumber & st2 & tracePre
           & Hp & E2 & Hs & Hfee & C3 & A & _)
         | (st2 & new & E2 & _)]; rewrite T in E2; [| discriminate].
    injection E2 as -> <-.
    exists (pre ++ [p])%list, post.
    assert (C3' : calls st1 = (calls stb ++ callsSince stb st1)%list)
      by (now rewrite (callsSince_app _ _ _ C3)).
    rewrite (since_three _ _ _ _ C1 C2 C3'), (callsSince_app _ _ _ C3),
      !simulatedAddresses_app, (simulatedAddresses_none Q1),
      (simulatedAddresses_none Q2), A, map_app.
    split; [rewrite <- app_assoc; exact Hp |].
    split; [reflexivity |].
    split.
    + apply StronglySorted_prefix with (l2 := post).
      rewrite <- app_assoc. cbn. rewrite <- Hp. exact Hsorted.
    + exists pre, p. split; reflexivity.
Qed.

Lemma programFor_from (ctx : SwapContext) :
  programFor ctx (mint (ctx_fromTokenInfo ctx)) = tokenProgram (ctx_fromTokenInfo ctx).
Proof. unfold programFor, equals. now rewrite String.eqb_refl. Qed.

Lemma programFor_to (ctx : SwapContext) (a b : string) :
  getTokenInfo a = Ok (ctx_fromTokenInfo ctx) ->
  getTokenInfo b = Ok (ctx_toTokenInfo ctx) ->
  programFor ctx (mint (ctx_toTokenInfo ctx)) = tokenProgram (ctx_toTokenInfo ctx).
Proof.
  intros Ha Hb. unfold programFor, equals.
  destruct (String.eqb_spec (mint (ctx_toTokenInfo ctx)) (mint (ctx_fromTokenInfo ctx)))
    as [E |]; [| reflexivity].
  apply getTokenInfo_lookup in Ha, Hb.
  exact (registry_program_of_mint _ _ Ha Hb (eq_sym E)).
Qed.

(** X9.  The executions trade between the accounts that were
    provisioned: the balance checks and the transactions of a request
    concern only the owner's account for the token sold and the owner's
    account for the token bought, each on the token program of its
    registry entry, and the two accounts of every execution are these
    two. *)
Theorem executions_use_the_provisioned_accounts
    (fromTokenInfo toTokenInfo : TokenInfo) (owner : PublicKey) (st : State World) :
  getTokenInfo fromToken = Ok fromTokenInfo ->
  getTokenInfo toToken = Ok toTokenInfo ->
  createKeypairFromPrivateKey sdk privateKey = Ok owner ->
  let accountFrom :=
    getAssociatedTokenAddressSync sdk (mint fromTokenInfo) owner
      (tokenProgram fromTokenInfo) in
  let accountTo :=
    getAssociatedTokenAddressSync sdk (mint toTokenInfo) owner
      (tokenProgram toTokenInfo) in
  Forall (fun c => checksOnly [accountFrom; accountTo] c
                   /\ usesAccounts accountFrom accountTo c)
         (callsSince st (snd (performTokenSwap ledger sdk fromToken toToken amount slippagePercent
       privateKey st))).
Proof.
  intros Hfrom Hto Howner accountFrom accountTo.
  assert (Hd : forall l, Forall (fun c => isDiscovery c = true) l ->
               Forall (fun c => checksOnly [accountFrom; accountTo] c
                                /\ usesAccounts accountFrom accountTo c) l).
  { apply Forall_impl. intros c Hc. destruct c; try discriminate; split; exact I. }
  assert (Hctx : forall ctx pools sta,
            discover ledger sdk fromToken toToken amount slippagePercent privateKey st
    = (Ok (ctx, pools), sta) ->
            ctx_fromTokenInfo ctx = fromTokenInfo
            /\ ctx_toTokenInfo ctx = toTokenInfo /\ ctx_owner ctx = owner
            /\ forall pool, In pool pools ->
                 matchesPair (mint fromTokenInfo) (mint toTokenInfo) pool = true).
  { intros ctx pools sta D.
    destruct (discover_result _ _ _ _ _ _ _ _ D)
      as (n & allPools & Hf & Ht & _ & _ & _ & _ & _ & _ & _ & ->).
    pose proof (discover_owner _ _ _ _ _ _ _ _ D) as Ho.
    rewrite Hfrom in Hf. rewrite Hto in Ht. rewrite Howner in Ho.
    injection Hf as <-. injection Ht as <-. injection Ho as <-.
    repeat split. intros pool Hp. apply relevantPools_In in Hp. tauto. }
  assert (He : forall ctx pools sta stb r,
            discover ledger sdk fromToken toToken amount slippagePercent privateKey st
    = (Ok (ctx, pools), sta) ->
            ensureAccounts ledger sdk ctx sta = (r, stb) ->
            Forall (fun c => checksOnly [accountFrom; accountTo] c
                             /\ usesAccounts accountFrom accountTo c)
                   (callsSince sta stb)).
  { intros ctx pools sta stb r D Ea.
    destruct (Hctx _ _ _ D) as (Hf & Ht & Ho & _).
    destruct (provisioning_since _ _ Ea) as (_ & _ & F).
    rewrite Hf, Ht, Ho in F. revert F. apply Forall_impl.
    intros c [Hc Hk]. split; [exact Hc |].
    destruct c; try exact I; discriminate. }
  assert (Ha : forall ctx pools sta l,
            discover ledger sdk fromToken toToken amount slippagePercent privateKey st
    = (Ok (ctx, pools), sta) ->
            Attempted sdk ctx pools l ->
            Forall (fun c => checksOnly [accountFrom; accountTo] c
                             /\ usesAccounts accountFrom accountTo c) l).
  { intros ctx pools sta l D.
    destruct (Hctx _ _ _ D) as (Hf & Ht & Ho & Hm).
    apply Attempted_Forall.
    - intros pool r _. split; exact I.
    - intros pool simulation r Hp _. split; [exact I |].
      cbn [usesAccounts swapArgs Swap.accountX Swap.accountY].
      pose proof (programFor_from ctx) as Pf. rewrite Hf in Pf.
      pose proof (programFor_to ctx fromToken toToken) as Pt.
      rewrite Hf, Ht in Pt. specialize (Pt Hfrom Hto). rewrite Ho.
      destruct (matchesPair_tokens _ _ _ (Hm _ Hp)) as [[Hx Hy] | [Hx Hy]];
        destruct (pairOf_tokens sdk pool) as [[Px Py] | [Px Py]];
        rewrite Px, Py, Hx, Hy, Pf, Pt; auto. }
  destruct (performTokenSwap_anatomy ledger sdk fromToken toToken amount
              slippagePercent privateKey st)
    as [(m1 & st1 & D & E)
       | [(ctx & sta & D & E)
       | [(ctx & pool & rest & sta & m1 & stb & D & Ea & E)
       | [(ctx & pool & rest & sta & stb & st1 & D & Ea & T & E)
       | (ctx & pool & rest & sta & stb & st1 & result1 & D & Ea & T & E)]]]];
    rewrite E; cbn [fst snd].
  - destruct (discovery_since _ D) as (_ & _ & F). auto.
  - destruct (discovery_since _ D) as (_ & _ & F). auto.
  - destruct (discovery_since _ D) as (C1 & _ & F).
    destruct (provisioning_since _ _ Ea) as (C2 & _ & _).
    rewrite (since_two _ _ _ C1 C2). apply Forall_app. split; [auto |].
    eapply He; eauto.
  - destruct (discovery_since _ D) as (C1 & _ & F).
    destruct (provisioning_since _ _ Ea) as (C2 & _ & _).
    destruct (tryPools_run ledger sdk ctx (pool :: rest) 0 stb)
      as (r & st2 & new & lines & E2 & C3 & _ & A & _).
    rewrite T in E2. injection E2 as <- <-.
    assert (C3' : calls st1 = (calls stb ++ callsSince stb st1)%list)
      by (now rewrite (callsSince_app _ _ _ C3)).
    rewrite (since_three _ _ _ _ C1 C2 C3'), (callsSince_app _ _ _ C3).
    apply Forall_app. split; [auto |]. apply Forall_app. split.
    + eapply He; eauto.
    + eapply Ha; eauto.
  - destruct (discovery_since _ D) as (C1 & _ & F).
    destruct (provisioning_since _ _ Ea) as (C2 & _ & _).
    destruct (tryPools_run ledger sdk ctx (pool :: rest) 0 stb)
      as (r & st2 & new & lines & E2 & C3 & _ & A & _).
    rewrite T in E2. injection E2 as <- <-.
    assert (C3' : calls st1 = (calls stb ++ callsSince stb st1)%list)
      by (now rewrite (callsSince_app _ _ _ C3)).
    rewrite (since_three _ _ _ _ C1 C2 C3'), (callsSince_app _ _ _ C3).
    apply Forall_app. split; [auto |]. apply Forall_app. split.
    + eapply He; eauto.
    + eapply Ha; eauto.
Qed.

End Requests.

(* ------------------------------------------------------------------ *)
(** ** The routes *)

Lemma Qlt_bool_false (a b : Q) : (b <= a)%Q -> Qlt_bool a b = false.
Proof.
  intro H. unfold Qlt_bool. apply negb_false_iff. now apply Qle_bool_iff.
Qed.

Lemma getTokenInfo_unknown (s m : string) :
  getTokenInfo s = Throw m -> m = "Token " ++ s ++ " not supported".
Proof.
  unfold getTokenInfo. destruct (lookup (toUpperCase s) TOKEN_REGISTRY);
    [discriminate | congruence].
Qed.

Section RouteFacts.
Context {World : Type}.
Variable ledger : LedgerClient World.
Variable sdk : Sdk.

Ltac emitting :=
  repeat first
    [ apply emits_bind | apply emits_try_catch | apply emits_ret
    | apply emits_throw | apply emits_lift
    | apply emits_await; intro; cbn; auto
    | intro ].

Ltac counting :=
  repeat first
    [ eapply atMost_bind | eapply atMost_try_catch | apply atMost_ret
    | apply atMost_throw | apply atMost_lift
    | apply atMost_await_other; intro; reflexivity
    | apply atMost_await
    | intro ].

(** A body that passes the validation is handed to [performTokenSwap]:
    200 with its result, or 500 with its message, written to the
    console as well. *)
Lemma api_swap_valid (body : SwapBody) (fromToken toToken : string) (amount : Q)
    (privateKey : string) (st : State World) :
  validSwapBody body fromToken toToken amount privateKey ->
  api_swap ledger sdk body st =
  match performTokenSwap ledger sdk fromToken toToken amount (slippage_of body)
          privateKey st with
  | (Ok result, st') => ({| status := 200; payload := SwapPayload result |}, st')
  | (Throw message, st') =>
      (respond 500 message,
       {| world := world st'; calls := calls st';
          console := (console st' ++ [SwapError message])%list |})
  end.
Proof.
  intros (Ef & Et & Ea & Ek & _ & _ & Hf & Ht & Hk & Hd & Hpos & Hs0 & Hs50).
  unfold api_swap. rewrite Ef, Et, Ea, Ek.
  rewrite (present_string Hf), (present_string Ht), (present_string Hk).
  rewrite present_number.
  2:{ intro E. rewrite E in Hpos. now apply Qlt_irrefl in Hpos. }
  cbn [orb].
  destruct (String.eqb_spec (toUpperCase fromToken) (toUpperCase toToken));
    [contradiction |].
  destruct (Qle_bool amount 0) eqn:A.
  { apply Qle_bool_iff in A. exfalso. now apply (Qlt_not_le 0 amount). }
  rewrite (Qlt_bool_false Hs0), (Qlt_bool_false Hs50). reflexivity.
Qed.

(** X10.  The two read routes that take symbols answer an unknown
    symbol, the first or the second of the request, without any call
    to the Ledger, and with different status codes: the pools route
    with 400, the quote route with 500; the message names the symbol
    as it was typed.  The symbols are ASCII text. *)
Theorem read_routes_refuse_unknown_symbol_before_the_ledger
    (body : SwapBody) (fromToken toToken : string) (amount : Q)
    (unknown m : string) (st : State World) :
  body_fromToken body = Some fromToken ->
  body_toToken body = Some toToken ->
  body_amount body = Some amount ->
  fromToken <> "" -> toToken <> "" -> ~ (amount == 0)%Q ->
  asciiText fromToken = true -> asciiText toToken = true ->
  (unknown = fromToken /\ getTokenInfo fromToken = Throw m)
  \/ (unknown = toToken /\ (exists info, getTokenInfo fromToken = Ok info)
      /\ getTokenInfo toToken = Throw m) ->
  m = "Token " ++ unknown ++ " not supported"
  /\ api_pools ledger fromToken toToken st
     = ({| answer_status := 400; answer_body := PoolsError m |}, st)
  /\ api_quote ledger sdk body st = (respond 500 m, st).
Proof.
  intros Ef Et Ea Hf Ht Ha _ _ [[-> Hu] | (-> & [info Hi] & Hu)];
    (split; [exact (getTokenInfo_unknown _ Hu) |]); split.
  - unfold api_pools, pools_handler, bind at 1, lift at 1. now rewrite Hu.
  - unfold api_quote. rewrite Ef, Et, Ea.
    rewrite (present_string Hf), (present_string Ht), (present_number Ha).
    cbn [orb]. unfold quote_handler, bind at 1, lift at 1. now rewrite Hu.
  - unfold api_pools, pools_handler, bind at 1, lift at 1. rewrite Hi.
    unfold bind at 1, lift at 1. now rewrite Hu.
  - unfold api_quote. rewrite Ef, Et, Ea.
    rewrite (present_string Hf), (present_string Ht), (present_number Ha).
    cbn [orb]. unfold quote_handler, bind at 1, lift at 1. rewrite Hi.
    unfold bind at 1, lift at 1. now rewrite Hu.
Qed.

(** X11.  The swap route looks the symbols up only after it has built
    the market: a body that passes the validation, with a private key
    that decodes and an unknown symbol, the first or the second, costs
    one call to the Ledger, [Market.build], and is answered with 500,
    not 400: with the message of the lookup when the market was built,
    with the fixed text of [initializeMarket] when it was not. *)
Theorem swap_route_builds_the_market_before_the_lookup
    (body : SwapBody) (fromToken toToken : string) (amount : Q)
    (privateKey owner m : string) (st : State World) :
  validSwapBody body fromToken toToken amount privateKey ->
  Keypair_fromBase58 sdk privateKey = Some owner ->
  getTokenInfo fromToken = Throw m
  \/ ((exists info, getTokenInfo fromToken = Ok info)
      /\ getTokenInfo toToken = Throw m) ->
  let (built, w) := Market_build ledger (world st) in
  let (response, st') := api_swap ledger sdk body st in
  callsSince st st' = [CMarketBuild built]
  /\ world st' = w
  /\ response
     = respond 500 (match built with
                    | Ok _ => m
                    | Throw _ => "Market initialization failed"
                    end).
Proof.
  intros Hv Hk Hu. rewrite (api_swap_valid _ Hv).
  unfold performTokenSwap, discover, createKeypairFromPrivateKey.
  rewrite Hk. unfold initializeMarket, bind, try_catch, await, lift, throw.
  destruct (Market_build ledger (world st)) as [[[] | e] w].
  - destruct Hu as [Hu | ([info Hi] & Hu)].
    + rewrite Hu. cbn. repeat split. apply callsSince_app. reflexivity.
    + rewrite Hi, Hu. cbn. repeat split. apply callsSince_app. reflexivity.
  - cbn. repeat split. apply callsSince_app. reflexivity.
Qed.

(** X12.  A private key that does not decode ends the request before
    any call to the Ledger; a failure of [Market.build] ends it after
    that one call, and the message of the Ledger is replaced by the
    fixed text. *)
Theorem request_fails_early_without_key_or_market
    (fromToken toToken : string) (amount slippagePercent : Q)
    (privateKey : string) (st : State World) :
  (Keypair_fromBase58 sdk privateKey = None ->
   performTokenSwap ledger sdk fromToken toToken amount slippagePercent
     privateKey st
   = (Throw "Invalid private key format", st))
  /\ (forall owner e w,
        Keypair_fromBase58 sdk privateKey = Some owner ->
        Market_build ledger (world st) = (Throw e, w) ->
        let run :=
          performTokenSwap ledger sdk fromToken toToken amount slippagePercent
            privateKey st in
        fst run = Throw "Market initialization failed"
        /\ callsSince st (snd run) = [CMarketBuild (Throw e)]
        /\ world (snd run) = w).
Proof.
  split.
  - intro Hk. unfold performTokenSwap, discover, createKeypairFromPrivateKey.
    rewrite Hk. reflexivity.
  - intros owner e w Hk Hb.
    unfold performTokenSwap, discover, createKeypairFromPrivateKey.
    rewrite Hk. unfold initializeMarket, bind, try_catch, await, lift, throw.
    rewrite Hb. cbn. repeat split.
    apply callsSince_app. reflexivity.
Qed.

Lemma trunc_fraction (q : Q) : (0 < q)%Q -> (q < 1)%Q -> trunc q = 0.
Proof.
  destruct q as [n d]. unfold Qlt, trunc. cbn. intros H0 H1.
  apply Z.quot_small. lia.
Qed.

(** X13.  An amount strictly between 0 and 1, in a body with symbols
    of ASCII text, passes the validation of the swap route and is then
    traded as the quantity 0: the fraction is dropped before the
    amount is scaled by the decimals. *)
Theorem fractional_amount_is_traded_as_zero
    (body : SwapBody) (fromToken toToken : string) (amount : Q)
    (privateKey : string) (fromTokenInfo : TokenInfo) (st : State World) :
  validSwapBody body fromToken toToken amount privateKey ->
  (amount < 1)%Q ->
  getTokenInfo fromToken = Ok fromTokenInfo ->
  (status (fst (api_swap ledger sdk body st)) = 200
   \/ status (fst (api_swap ledger sdk body st)) = 500)
  /\ Forall (quantityIs 0) (callsSince st (snd (api_swap ledger sdk body st))).
Proof.
  intros Hv H1 Hf. rewrite (api_swap_valid _ Hv).
  pose proof (quantity_is_scaled ledger sdk fromToken toToken amount
                (slippage_of body) privateKey st Hf) as Q.
  destruct Hv as (_ & _ & _ & _ & _ & _ & _ & _ & _ & _ & H0 & _).
  rewrite (trunc_fraction H0 H1), Z.mul_0_l in Q.
  destruct (performTokenSwap ledger sdk fromToken toToken amount (slippage_of body)
              privateKey st) as [[result | message] st']; cbn in *; auto.
Qed.

End RouteFacts.

Lemma poolDataOf_safe (pool : Pool.t) :
  safeFee pool -> poolDataOf pool = Ok (poolDataFor pool).
Proof.
  intro H. unfold poolDataOf, safeFee in *. now rewrite (BN_toNumber_safe _ H).
Qed.

Lemma poolDataOf_unsafe (pool : Pool.t) :
  ~ safeFee pool ->
  poolDataOf pool = Throw "Number can only safely store up to 53 bits".
Proof.
  intro H. unfold poolDataOf, BN_toNumber, safeFee in *.
  destruct (Z.ltb_spec (Z.abs (Pool.fee pool)) MAX_SAFE); [contradiction | reflexivity].
Qed.

Lemma safeFee_dec (pool : Pool.t) : {safeFee pool} + {~ safeFee pool}.
Proof. unfold safeFee. apply Z_lt_dec. Qed.

(** [pools.map(...)] of the pools route: every element, or the error
    of the first fee [toNumber] cannot read. *)
Lemma mapExc_poolDataOf (pools : list Pool.t) :
  (Forall safeFee pools /\ mapExc poolDataOf pools = Ok (map poolDataFor pools))
  \/ (~ Forall safeFee pools
      /\ mapExc poolDataOf pools
         = Throw "Number can only safely store up to 53 bits").
Proof.
  induction pools as [| pool rest IH]; [left; split; [constructor | reflexivity] |].
  cbn [mapExc map]. destruct (safeFee_dec pool) as [Hs | Hu].
  - rewrite (poolDataOf_safe Hs). destruct IH as [[F E] | [F E]]; rewrite E.
    + left. split; [now constructor | reflexivity].
    + right. split; [| reflexivity]. intro H. inversion H; contradiction.
  - rewrite (poolDataOf_unsafe Hu). right. split; [| reflexivity].
    intro H. inversion H; contradiction.
Qed.

Lemma relevantPools_length (allPools : list Pool.t) (tokenA tokenB : PublicKey) :
  List.length (relevantPools allPools tokenA tokenB)
  = List.length (filter (matchesPair tokenA tokenB) allPools).
Proof.
  unfold relevantPools. symmetry. apply Permutation_length.
  apply Array_sort_perm.
Qed.

Lemma StronglySorted_fees (pools : list Pool.t) :
  StronglySorted (fun a b => Pool.fee a <= Pool.fee b) pools ->
  StronglySorted Z.le (map Pool.fee pools).
Proof.
  induction 1 as [| p l _ IH Hall]; cbn; [constructor |].
  constructor; [exact IH |]. rewrite Forall_map. exact Hall.
Qed.

Section ReadRoutes.
Context {World : Type}.
Variable ledger : LedgerClient World.
Variable sdk : Sdk.

Ltac emitting :=
  repeat first
    [ apply emits_bind | apply emits_try_catch | apply emits_ret
    | apply emits_throw | apply emits_lift
    | apply emits_await; intro; cbn; auto
    | intro ].

Ltac counting :=
  repeat first
    [ eapply atMost_bind | eapply atMost_try_catch | apply atMost_ret
    | apply atMost_throw | apply atMost_lift
    | apply atMost_await_other; intro; reflexivity
    | apply atMost_await
    | intro ].

(** X14.  The pools route answers with the candidates of discovery:
    once both symbols resolve and the Ledger has answered, the route
    reports as [poolsFound] the number of enumerated pools that hold
    exactly the two tokens, and lists them by fee from the lowest, each
    with its fee divided by 10^9; it makes no further call.  If one of
    these pools has a fee [toNumber] cannot read, the answer is the
    status 400 with the error of [toNumber]. *)
Theorem pools_route_lists_the_candidates
    (fromToken toToken : string) (fromTokenInfo toTokenInfo : TokenInfo)
    (st st1 : State World) (allPools : list Pool.t) (w : World) :
  getTokenInfo fromToken = Ok fromTokenInfo ->
  getTokenInfo toToken = Ok toTokenInfo ->
  initializeMarket ledger st = (Ok tt, st1) ->
  getAllPools ledger (world st1) = (Ok allPools, w) ->
  let candidates :=
    relevantPools allPools (mint fromTokenInfo) (mint toTokenInfo) in
  let st' :=
    {| world := w; calls := (calls st1 ++ [CGetAllPools (Ok allPools)])%list;
       console := console st1 |} in
  (Forall safeFee candidates ->
   api_pools ledger fromToken toToken st
   = ({| answer_status := 200;
         answer_body :=
           PoolsFound (fromToken ++ "/" ++ toToken)
             (List.length
                (filter (matchesPair (mint fromTokenInfo) (mint toTokenInfo))
                        allPools))
             (map poolDataFor candidates) |}, st')
   /\ StronglySorted Z.le (map data_fee (map poolDataFor candidates)))
  /\ (~ Forall safeFee candidates ->
      api_pools ledger fromToken toToken st
      = ({| answer_status := 400;
            answer_body :=
              PoolsError "Number can only safely store up to 53 bits" |}, st')).
Proof.
  intros Hf Ht Hm Hp candidates st'.
  assert (E : pools_handler ledger fromToken toToken st
              = match mapExc poolDataOf candidates with
                | Ok poolData =>
                    (Ok (PoolsFound (fromToken ++ "/" ++ toToken)
                           (List.length candidates) poolData), st')
                | Throw e => (Throw e, st')
                end).
  { unfold pools_handler, bind at 1, lift at 1. rewrite Hf.
    unfold bind at 1, lift at 1. rewrite Ht.
    unfold bind at 1. rewrite Hm.
    unfold bind at 1. rewrite (findBestPoolForPair_returns _ _ _ _ Hp).
    fold candidates. fold st'. unfold bind, lift, ret.
    destruct (mapExc poolDataOf candidates); reflexivity. }
  unfold api_pools. rewrite E.
  destruct (mapExc_poolDataOf candidates) as [[F M] | [F M]]; rewrite M.
  - split; [| intro; contradiction]. intros _. split.
    + unfold candidates at 1. now rewrite relevantPools_length.
    + rewrite map_map. cbn. apply StronglySorted_fees.
      apply relevantPools_sorted.
  - split; [intro; contradiction | reflexivity].
Qed.

Lemma pools_handler_discovery (fromToken toToken : string) :
  emits (fun c => isDiscovery c = true) (pools_handler ledger fromToken toToken).
Proof. unfold pools_handler, initializeMarket, findBestPoolForPair. emitting. Qed.

Lemma pool_info_handler_discovery (tokenA tokenB : string) :
  emits (fun c => isDiscovery c = true) (pool_info_handler ledger tokenA tokenB).
Proof. unfold pool_info_handler, initializeMarket. emitting. Qed.

Lemma market_stats_handler_discovery :
  emits (fun c => isDiscovery c = true) (market_stats_handler ledger).
Proof. unfold market_stats_handler, initializeMarket. emitting. Qed.

Lemma quote_handler_reads (fromToken toToken : string) (amount slippage : Q) :
  emits readsOnly (quote_handler ledger sdk fromToken toToken amount slippage).
Proof.
  unfold quote_handler, initializeMarket, findBestPoolForPair.
  do 4 (apply emits_bind; [emitting | intro]).
  apply emits_bind; [emitting | intros [| pool rest]]; [apply emits_ret |].
  apply emits_bind; [apply emits_lift | intro slippageDecimal].
  apply emits_bind; [emitting | intro simulation].
  destruct (negb _); [apply emits_ret |].
  destruct (accumulatedAmountOut simulation); emitting.
Qed.

Lemma quote_handler_one_simulation (fromToken toToken : string)
    (amount slippage : Q) :
  atMost isSimulation 1 (quote_handler ledger sdk fromToken toToken amount slippage).
Proof.
  unfold quote_handler, initializeMarket, findBestPoolForPair.
  apply atMost_bind with (n1 := 0%nat) (n2 := 1%nat); [counting | intro].
  apply atMost_bind with (n1 := 0%nat) (n2 := 1%nat); [counting | intro].
  apply atMost_bind with (n1 := 0%nat) (n2 := 1%nat); [counting | intro].
  apply atMost_bind with (n1 := 0%nat) (n2 := 1%nat).
  { apply atMost_try_catch with (n1 := 0%nat) (n2 := 0%nat); counting. }
  intro.
  apply atMost_bind with (n1 := 0%nat) (n2 := 1%nat).
  { apply atMost_bind with (n1 := 0%nat) (n2 := 0%nat); counting. }
  intros [| pool rest]; [apply atMost_le with (n := 0%nat); [lia | counting] |].
  apply atMost_bind with (n1 := 0%nat) (n2 := 1%nat); [apply atMost_lift |].
  intro slippageDecimal.
  apply atMost_bind with (n1 := 1%nat) (n2 := 0%nat); [apply atMost_await |].
  intro simulation. destruct (negb _); [counting |].
  destruct (accumulatedAmountOut simulation); [| counting].
  apply atMost_bind with (n1 := 0%nat) (n2 := 0%nat); counting.
Qed.

(** X15.  The read routes only read: whatever the request and the
    answers of the Ledger, the quote route makes no call but
    [Market.build], the enumeration of the pools and at most one
    simulation, and the routes for the pools of a pair, for the pool
    information and for the market statistics make no call but the
    first two; none executes a swap, or checks or creates an account. *)
Theorem read_routes_only_read (st : State World) :
  (forall body,
     Forall readsOnly (callsSince st (snd (api_quote ledger sdk body st)))
     /\ (List.length
           (filter isSimulation (callsSince st (snd (api_quote ledger sdk body st))))
         <= 1)%nat)
  /\ (forall fromToken toToken,
        Forall (fun c => isDiscovery c = true)
               (callsSince st (snd (api_pools ledger fromToken toToken st))))
  /\ (forall tokenA tokenB,
        Forall (fun c => isDiscovery c = true)
               (callsSince st (snd (api_pool_info ledger tokenA tokenB st))))
  /\ Forall (fun c => isDiscovery c = true)
            (callsSince st (snd (api_market_stats ledger st))).
Proof.
  assert (Hnone : callsSince st st = []).
  { apply callsSince_app. now rewrite app_nil_r. }
  split; [| split; [| split]].
  - intro body. unfold api_quote.
    destruct (missing_string (body_fromToken body)
              || missing_string (body_toToken body)
              || missing_number (body_amount body));
      [cbn [snd]; rewrite Hnone; repeat split; auto; constructor |].
    destruct (body_fromToken body) as [fromToken |];
      [| cbn [snd]; rewrite Hnone; repeat split; auto; constructor].
    destruct (body_toToken body) as [toToken |];
      [| cbn [snd]; rewrite Hnone; repeat split; auto; constructor].
    destruct (body_amount body) as [amount |];
      [| cbn [snd]; rewrite Hnone; repeat split; auto; constructor].
    destruct (quote_handler ledger sdk fromToken toToken amount (slippage_of body) st)
      as [[response | message] st'] eqn:E; cbn [snd];
      destruct (emits_run _ (quote_handler_reads _ _ _ _) E) as (_ & F & L);
      pose proof (atMost_run _ (quote_handler_one_simulation _ _ _ _) E);
      auto.
  - intros fromToken toToken. unfold api_pools.
    destruct (pools_handler ledger fromToken toToken st)
      as [[body | message] st'] eqn:E; cbn [snd];
      destruct (emits_run _ (pools_handler_discovery _ _) E) as (_ & F & L); auto.
  - intros tokenA tokenB. unfold api_pool_info.
    destruct (pool_info_handler ledger tokenA tokenB st)
      as [[body | message] st'] eqn:E; cbn [snd];
      destruct (emits_run _ (pool_info_handler_discovery _ _) E) as (_ & F & L); auto.
  - unfold api_market_stats.
    destruct (market_stats_handler ledger st) as [[stats | message] st'] eqn:E;
      cbn [snd];
      destruct (emits_run _ market_stats_handler_discovery E) as (_ & F & L); auto.
Qed.

(** X16.  The route for the pool information of a pair never answers
    with pools: it calls [findPoolForTokenPair], a function that no
    file of the server defines, so that every request ends in its
    [catch] with status 500, after at most one call to the Ledger. *)
Theorem pool_info_route_always_fails (tokenA tokenB : string) (st : State World) :
  exists error,
    fst (api_pool_info ledger tokenA tokenB st)
    = {| answer_status := 500; answer_body := PoolsError error |}
    /\ (List.length (callsSince st (snd (api_pool_info ledger tokenA tokenB st)))
        <= 1)%nat
    /\ (forall tokenAInfo tokenBInfo w,
          getTokenInfo tokenA = Ok tokenAInfo ->
          getTokenInfo tokenB = Ok tokenBInfo ->
          Market_build ledger (world st) = (Ok tt, w) ->
          error = "findPoolForTokenPair is not defined").
Proof.
  assert (Hnone : callsSince st st = []).
  { apply callsSince_app. now rewrite app_nil_r. }
  destruct (api_pool_info ledger tokenA tokenB st) as [answer st'] eqn:E.
  cbn [fst snd]. revert E.
  unfold api_pool_info, pool_info_handler, bind at 1, lift at 1.
  destruct (getTokenInfo tokenA) as [tokenAInfo | e].
  2:{ intro E. injection E as <- <-. exists e. rewrite Hnone. cbn.
      repeat split; [lia | discriminate]. }
  unfold bind at 1, lift at 1.
  destruct (getTokenInfo tokenB) as [tokenBInfo | e].
  2:{ intro E. injection E as <- <-. exists e. rewrite Hnone. cbn.
      repeat split; [lia | discriminate]. }
  unfold initializeMarket, bind, try_catch, await, throw.
  destruct (Market_build ledger (world st)) as [[[] | e] w0]; cbn;
    intro E; injection E as <- <-; eexists; (split; [reflexivity |]);
    (erewrite callsSince_app; [| cbn; reflexivity]); cbn; (split; [lia |]).
  - reflexivity.
  - intros ? ? ? _ _ H. discriminate H.
Qed.

End ReadRoutes.

(* ------------------------------------------------------------------ *)
(** ** The statistics of the market *)

Lemma statOf_bump (k k' : string) (stats : list (string * nat)) :
  statOf k (bump k' stats)
  = ((if String.eqb k k' then 1 else 0) + statOf k stats)%nat.
Proof.
  induction stats as [| [k0 n] r IH]; cbn.
  - destruct (String.eqb k k'); reflexivity.
  - destruct (String.eqb_spec k' k0) as [-> | Hne]; cbn.
    + destruct (String.eqb k k0); reflexivity.
    + destruct (String.eqb_spec k k0) as [-> | Hk].
      * destruct (String.eqb_spec k0 k'); [congruence | reflexivity].
      * exact IH.
Qed.

Lemma sum_bump (k : string) (stats : list (string * nat)) :
  list_sum (map snd (bump k stats)) = S (list_sum (map snd stats)).
Proof.
  unfold list_sum. induction stats as [| [k0 n] r IH]; cbn; [reflexivity |].
  destruct (String.eqb k k0); cbn; [reflexivity |]. rewrite IH. lia.
Qed.

Lemma keys_bump (k x : string) (stats : list (string * nat)) :
  In x (map fst (bump k stats)) <-> x = k \/ In x (map fst stats).
Proof.
  induction stats as [| [k0 n] r IH]; cbn; [intuition congruence |].
  destruct (String.eqb_spec k k0) as [-> | Hne]; cbn.
  - intuition congruence.
  - rewrite IH. intuition congruence.
Qed.

Lemma NoDup_bump (k : string) (stats : list (string * nat)) :
  NoDup (map fst stats) -> NoDup (map fst (bump k stats)).
Proof.
  induction stats as [| [k0 n] r IH]; cbn; intro H.
  - constructor; [intros [] | constructor].
  - inversion H as [| ? ? Hin Hr]; subst.
    destruct (String.eqb_spec k k0) as [-> | Hne]; cbn.
    + now constructor.
    + constructor; [| now apply IH].
      rewrite keys_bump. intros [-> | Hin']; [congruence | contradiction].
Qed.

(** The sides of the pools that hold a token. *)
Lemma countPools_from (token : string) (allPools : list Pool.t) :
  forall acc : list (string * nat),
  let counted :=
    fold_left
      (fun tokenStats pool =>
         bump (Pool.tokenY pool) (bump (Pool.tokenX pool) tokenStats))
      allPools acc in
  statOf token counted
  = (statOf token acc
     + List.length (filter (fun pool => String.eqb token (Pool.tokenX pool)) allPools)
     + List.length (filter (fun pool => String.eqb token (Pool.tokenY pool)) allPools))%nat
  /\ list_sum (map snd counted)
     = (list_sum (map snd acc) + 2 * List.length allPools)%nat
  /\ (NoDup (map fst acc) -> NoDup (map fst counted)).
Proof.
  induction allPools as [| pool rest IH]; intro acc; cbn zeta.
  - cbn. repeat split; auto; lia.
  - cbn [fold_left filter List.length].
    destruct (IH (bump (Pool.tokenY pool) (bump (Pool.tokenX pool) acc)))
      as (Hs & Ht & Hn).
    rewrite Hs, Ht, !statOf_bump, !sum_bump. repeat split.
    + destruct (String.eqb token (Pool.tokenX pool)),
               (String.eqb token (Pool.tokenY pool)); cbn; lia.
    + lia.
    + intro H. apply Hn. now do 2 apply NoDup_bump.
Qed.

Lemma registeredWithPools_In (registry : list (string * TokenInfo))
    (tokenStats : list (string * nat)) (key : string) (n : nat) :
  In (key, n) (registeredWithPools registry tokenStats) <->
  (0 < n)%nat
  /\ exists info, In (key, info) registry /\ n = statOf (mint info) tokenStats.
Proof.
  induction registry as [| [k info] r IH]; cbn.
  - split; [intros [] | intros (_ & info & [] & _)].
  - destruct (statOf (mint info) tokenStats) as [| c] eqn:E; cbn; rewrite IH.
    + split.
      * intros (Hn & i & Hi & ->). split; [exact Hn |]. exists i. auto.
      * intros (Hn & i & [Hi | Hi] & ->); [| split; [exact Hn | eauto]].
        injection Hi as <- <-. rewrite E in Hn. lia.
    + split.
      * intros [H | (Hn & i & Hi & ->)].
        -- injection H as <- <-. split; [lia |]. exists info. auto.
        -- split; [exact Hn |]. exists i. auto.
      * intros (Hn & i & [Hi | Hi] & ->).
        -- injection Hi as <- <-. left. now rewrite E.
        -- right. split; [exact Hn | eauto].
Qed.

(** X17.  The statistics count the sides of the pools: when the route
    answers, [totalPools] is the number of pools the Ledger enumerated,
    the count of a token is the number of pools that hold it as their
    first token plus the number that hold it as their second, no token
    is listed twice, the counts add up to twice the number of pools,
    and a symbol of the registry is reported exactly when its mint has
    a pool, with the count of that mint (so that symbols sharing a mint
    report the same pools). *)
Theorem market_stats_count_the_sides_of_the_pools {World}
    (ledger : LedgerClient World) (st st' : State World) (stats : MarketStats) :
  market_stats_handler ledger st = (Ok stats, st') ->
  exists allPools,
    In (CGetAllPools (Ok allPools)) (callsSince st st')
    /\ totalPools stats = List.length allPools
    /\ (forall token,
          statOf token (allTokenStats stats)
          = (List.length
               (filter (fun pool => String.eqb token (Pool.tokenX pool)) allPools)
             + List.length
                 (filter (fun pool => String.eqb token (Pool.tokenY pool)) allPools))%nat)
    /\ NoDup (map fst (allTokenStats stats))
    /\ list_sum (map snd (allTokenStats stats)) = (2 * totalPools stats)%nat
    /\ (forall key n,
          In (key, n) (registeredTokensWithPools stats) <->
          (0 < n)%nat
          /\ exists info,
               In (key, info) TOKEN_REGISTRY
               /\ n = statOf (mint info) (allTokenStats stats)).
Proof.
  unfold market_stats_handler, bind at 1.
  destruct (initializeMarket_quiet ledger st) as (new1 & C1 & _ & _).
  destruct (initializeMarket ledger st) as [[[] | e] st1]; [| discriminate].
  cbn [snd] in C1. unfold bind, await, ret.
  destruct (getAllPools ledger (world st1)) as [[allPools | e] w]; [| discriminate].
  intro H. injection H as <- <-. exists allPools.
  cbn [totalPools allTokenStats registeredTokensWithPools].
  split.
  { erewrite callsSince_app.
    2:{ cbn [calls]. rewrite C1, <- app_assoc. reflexivity. }
    apply in_or_app. right. now left. }
  split; [reflexivity |].
  unfold countPools.
  split.
  { intro token. destruct (countPools_from token allPools []) as (Hs & _). exact Hs. }
  split.
  { destruct (countPools_from "" allPools []) as (_ & _ & Hn). apply Hn. constructor. }
  split.
  { destruct (countPools_from "" allPools []) as (_ & Ht & _). rewrite Ht. cbn. lia. }
  intros key n. exact (registeredWithPools_In TOKEN_REGISTRY _ key n).
Qed.

(* ------------------------------------------------------------------ *)
(** ** The scripts *)

Section Leaves.
Context {World : Type}.
Variable T : list Call -> Prop.
Hypothesis T_nil : T [].
Hypothesis T_app : forall l1 l2, T l1 -> T l2 -> T (l1 ++ l2)%list.

Lemma leaves_ret {A} (a : A) : leaves (World := World) T (ret a).
Proof. intro st. exists []. cbn. now rewrite app_nil_r. Qed.

Lemma leaves_throw {A} (e : string) : leaves (World := World) (A := A) T (throw e).
Proof. intro st. exists []. cbn. now rewrite app_nil_r. Qed.

Lemma leaves_lift {A} (x : Exc A) : leaves (World := World) T (lift x).
Proof. intro st. exists []. cbn. now rewrite app_nil_r. Qed.

Lemma leaves_await {A} (op : World -> Exc A * World) (record : Exc A -> Call) :
  (forall r, T [record r]) -> leaves T (await op record).
Proof.
  intros H st. unfold await. destruct (op (world st)) as [r w]. cbn.
  exists [record r]. auto.
Qed.

Lemma leaves_bind_post {A B} (Q : A -> Prop) (m : M World A) (k : A -> M World B) :
  (forall st a st', m st = (Ok a, st') -> Q a) ->
  leaves T m -> (forall a, Q a -> leaves T (k a)) -> leaves T (bind m k).
Proof.
  intros HQ Hm Hk st. unfold bind. destruct (Hm st) as (new1 & C1 & T1).
  destruct (m st) as [[a | e] st1] eqn:E; cbn [snd] in *.
  - destruct (Hk a (HQ _ _ _ E) st1) as (new2 & C2 & T2).
    exists (new1 ++ new2)%list. rewrite C2, C1, app_assoc. auto.
  - exists new1. auto.
Qed.

Lemma leaves_bind {A B} (m : M World A) (k : A -> M World B) :
  leaves T m -> (forall a, leaves T (k a)) -> leaves T (bind m k).
Proof.
  intros Hm Hk. apply leaves_bind_post with (Q := fun _ => True); auto.
Qed.

Lemma leaves_try_catch {A} (m : M World A) (handler : string -> M World A) :
  leaves T m -> (forall e, leaves T (handler e)) -> leaves T (try_catch m handler).
Proof.
  intros Hm Hh st. unfold try_catch. destruct (Hm st) as (new1 & C1 & T1).
  destruct (m st) as [[a | e] st1]; cbn [snd] in *.
  - exists new1. auto.
  - destruct (Hh e st1) as (new2 & C2 & T2).
    exists (new1 ++ new2)%list. rewrite C2, C1, app_assoc. auto.
Qed.

Lemma leaves_since {A} (m : M World A) (st : State World) :
  leaves T m -> T (callsSince st (snd (m st))).
Proof.
  intro H. destruct (H st) as (new & C & Tn). now rewrite (callsSince_app _ _ _ C).
Qed.

End Leaves.

Lemma coupled_app (sdk : Sdk) (l1 l2 : list Call) :
  selfCoupled sdk l2 ->
  forall previous, coupled sdk previous l1 -> coupled sdk previous (l1 ++ l2)%list.
Proof.
  intro H2. induction l1 as [| c l1 IH]; intros previous H1; cbn; [apply H2 |].
  cbn in H1. destruct H1 as [Hc Hr]. split; [exact Hc | now apply IH].
Qed.

Lemma selfCoupled_app (sdk : Sdk) (l1 l2 : list Call) :
  selfCoupled sdk l1 -> selfCoupled sdk l2 -> selfCoupled sdk (l1 ++ l2)%list.
Proof. intros H1 H2 previous. apply coupled_app; auto. Qed.

Lemma selfCoupled_one (sdk : Sdk) (c : Call) :
  isSwap c = false -> selfCoupled sdk [c].
Proof. intros H previous. destruct c; try discriminate; cbn; auto. Qed.

Lemma removelast_not_accepted (l : list Call) :
  Forall (fun c => isAccepted c = false) l ->
  Forall (fun c => isAccepted c = false) (removelast l).
Proof.
  induction 1 as [| c l Hc Hl IH]; [constructor |].
  cbn. destruct l; [constructor |]. constructor; assumption.
Qed.

Lemma removelast_after (l1 l2 : list Call) :
  Forall (fun c => isAccepted c = false) l1 ->
  Forall (fun c => isAccepted c = false) (removelast l2) ->
  Forall (fun c => isAccepted c = false) (removelast (l1 ++ l2)).
Proof.
  intros H1 H2. destruct l2 as [| c l2].
  - rewrite app_nil_r. now apply removelast_not_accepted.
  - rewrite removelast_app by discriminate. apply Forall_app. auto.
Qed.

Section NeverThrows.
Context {World : Type}.

Lemma neverThrows_ret {A} (a : A) : neverThrows (World := World) (ret a).
Proof. intro st. exists a. reflexivity. Qed.

Lemma neverThrows_bind {A B} (m : M World A) (k : A -> M World B) :
  neverThrows m -> (forall a, neverThrows (k a)) -> neverThrows (bind m k).
Proof.
  intros Hm Hk st. unfold bind. destruct (Hm st) as (a & E).
  destruct (m st) as [[a' | e] st1]; cbn in E; [| discriminate].
  apply Hk.
Qed.

Lemma neverThrows_try_catch {A} (m : M World A) (handler : string -> M World A) :
  (forall e, neverThrows (handler e)) -> neverThrows (try_catch m handler).
Proof.
  intros Hh st. unfold try_catch. destruct (m st) as [[a | e] st1].
  - exists a. reflexivity.
  - apply Hh.
Qed.

End NeverThrows.

Section Scripts.
Context {World : Type}.
Variable ledger : LedgerClient World.
Variable sdk : Sdk.
Variable keypair : PublicKey.

(** X18.  [ensureTokenAccounts] of the script [swap.ts] checks the two
    accounts of the wallet, then sends one transaction that creates
    exactly the accounts whose check failed, or none when both checks
    passed; it returns the two addresses unless that transaction
    fails. *)
Theorem ensureTokenAccounts_creates_the_missing_accounts_at_once
    (st : State World) :
  let solTokenAccount :=
    getAssociatedTokenAddressSync sdk Trader.SOL_MINT keypair TOKEN_PROGRAM_ID in
  let usdtTokenAccount :=
    getAssociatedTokenAddressSync sdk Trader.USDT_MINT keypair TOKEN_PROGRAM_ID in
  let run := Trader.ensureTokenAccounts ledger sdk keypair st in
  exists forSol forUsdt sent,
    callsSince st (snd run)
    = (CGetAccount solTokenAccount TOKEN_PROGRAM_ID forSol
       :: CGetAccount usdtTokenAccount TOKEN_PROGRAM_ID forUsdt :: sent)
    /\ let missing :=
         ((match forSol with
           | Ok _ => []
           | Throw _ =>
               [Trader.createInstruction keypair solTokenAccount Trader.SOL_MINT]
           end)
          ++ (match forUsdt with
              | Ok _ => []
              | Throw _ =>
                  [Trader.createInstruction keypair usdtTokenAccount
                     Trader.USDT_MINT]
              end))%list in
       match missing with
       | [] => sent = [] /\ fst run = Ok (solTokenAccount, usdtTokenAccount)
       | _ :: _ =>
           exists r,
             sent = [CSendTransaction missing r]
             /\ fst run = match r with
                          | Ok _ => Ok (solTokenAccount, usdtTokenAccount)
                          | Throw e => Throw e
                          end
       end.
Proof.
  cbv zeta.
  unfold Trader.ensureTokenAccounts, Trader.checkAccount, bind, try_catch, await, ret.
  destruct (getAccount ledger
              (getAssociatedTokenAddressSync sdk Trader.SOL_MINT keypair
                 TOKEN_PROGRAM_ID) TOKEN_PROGRAM_ID (world st))
    as [[b1 | e1] w1]; cbn;
  destruct (getAccount ledger
              (getAssociatedTokenAddressSync sdk Trader.USDT_MINT keypair
                 TOKEN_PROGRAM_ID) TOKEN_PROGRAM_ID w1)
    as [[b2 | e2] w2]; cbn;
  try (match goal with
       | |- context [sendAndConfirmTransaction ledger ?t ?w] =>
           destruct (sendAndConfirmTransaction ledger t w) as [[h | e3] w3]
       end; cbn);
  do 3 eexists;
  (split; [apply callsSince_app; cbn; rewrite <- ?app_assoc; reflexivity |]);
  cbn; try (split; reflexivity); eexists; split; reflexivity.
Qed.

Lemma documentationLoop_never_throws (swapAmount : BN) (feeTier : FeeTier)
    (tokenPairs : list (PublicKey * PublicKey)) :
  neverThrows (App.documentationLoop ledger sdk keypair swapAmount feeTier tokenPairs).
Proof.
  induction tokenPairs as [| [tokenA tokenB] rest IH]; cbn [App.documentationLoop].
  - apply neverThrows_ret.
  - apply neverThrows_bind.
    + unfold App.checkPoolExists. apply neverThrows_try_catch. intro.
      apply neverThrows_ret.
    + intro poolExists. destruct (negb poolExists); [exact IH |].
      apply neverThrows_bind.
      * apply neverThrows_try_catch. intro. apply neverThrows_ret.
      * intros []; [apply neverThrows_ret | exact IH].
Qed.

Lemma tryPairs_never_throws (swapAmount : BN)
    (tokenPairs : list (PublicKey * PublicKey)) :
  neverThrows (AppSmart.tryPairs ledger sdk keypair swapAmount tokenPairs).
Proof.
  induction tokenPairs as [| [tokenA tokenB] rest IH]; cbn [AppSmart.tryPairs].
  - apply neverThrows_ret.
  - apply neverThrows_bind.
    + apply neverThrows_try_catch. intro. apply neverThrows_ret.
    + intros []; [apply neverThrows_ret | exact IH].
Qed.

Lemma getAvailableWrappedSolBalance_never_throws :
  neverThrows (App.getAvailableWrappedSolBalance ledger sdk keypair).
Proof.
  unfold App.getAvailableWrappedSolBalance. apply neverThrows_try_catch.
  intro. apply neverThrows_ret.
Qed.

(** X19.  The swaps of the script [app.ts] never throw: whatever the
    Ledger answers or throws, [swapEthToUsdt],
    [performDocumentationStyleSwap] and [smartSwapEthToUsdt] return
    normally, every error ending in a [catch] that only logs. *)
Theorem app_swaps_never_throw :
  neverThrows (App.swapEthToUsdt ledger sdk keypair)
  /\ neverThrows (App.performDocumentationStyleSwap ledger sdk keypair)
  /\ neverThrows (AppSmart.smartSwapEthToUsdt ledger sdk keypair).
Proof.
  split; [| split].
  - unfold App.swapEthToUsdt. apply neverThrows_bind.
    + apply getAvailableWrappedSolBalance_never_throws.
    + intro balance. destruct (_ =? 0); [apply neverThrows_ret |].
      apply neverThrows_try_catch. intro. apply neverThrows_ret.
  - unfold App.performDocumentationStyleSwap. apply neverThrows_bind.
    + apply getAvailableWrappedSolBalance_never_throws.
    + intro balance. destruct (_ =? 0); [apply neverThrows_ret |].
      apply neverThrows_try_catch. intro. apply neverThrows_ret.
  - unfold AppSmart.smartSwapEthToUsdt. apply neverThrows_bind.
    + apply getAvailableWrappedSolBalance_never_throws.
    + intro balance. destruct (_ =? 0); [apply neverThrows_ret |].
      apply neverThrows_bind; [apply tryPairs_never_throws |].
      intro. apply neverThrows_ret.
Qed.

(** X20.  With less than three units of wrapped balance, or when the
    balance cannot be read, the swaps of [app.ts] stop after the
    balance check: 40 percent of the balance is 0, and no pool is
    looked up, simulated or traded. *)
Theorem app_swaps_stop_on_an_empty_balance
    (st : State World) (r : Exc BN) (w : World) :
  let account :=
    getAssociatedTokenAddressSync sdk App.ETH_MINT keypair TOKEN_PROGRAM_ID in
  getAccount ledger account TOKEN_PROGRAM_ID (world st) = (r, w) ->
  match r with Ok balance => 0 <= balance < 3 | Throw _ => True end ->
  let stopped (run : Exc unit * State World) :=
    fst run = Ok tt
    /\ callsSince st (snd run) = [CGetAccount account TOKEN_PROGRAM_ID r]
    /\ world (snd run) = w in
  stopped (App.swapEthToUsdt ledger sdk keypair st)
  /\ stopped (App.performDocumentationStyleSwap ledger sdk keypair st)
  /\ stopped (AppSmart.smartSwapEthToUsdt ledger sdk keypair st).
Proof.
  intros account Hr Hb stopped.
  assert (E : exists balance,
            App.getAvailableWrappedSolBalance ledger sdk keypair st
            = (Ok balance,
               {| world := w;
                  calls := (calls st ++ [CGetAccount account TOKEN_PROGRAM_ID r])%list;
                  console := console st |})
            /\ App.fortyPercent balance = 0).
  { unfold App.getAvailableWrappedSolBalance, try_catch, await. fold account.
    rewrite Hr. destruct r as [balance | e].
    - exists balance. split; [reflexivity |].
      unfold App.fortyPercent. apply Z.quot_small. lia.
    - exists 0. split; reflexivity. }
  destruct E as (balance & E & Hz).
  unfold stopped, App.swapEthToUsdt, App.performDocumentationStyleSwap,
    AppSmart.smartSwapEthToUsdt, bind.
  rewrite E, Hz. cbn.
  assert (C : callsSince st
                {| world := w;
                   calls := (calls st ++ [CGetAccount account TOKEN_PROGRAM_ID r])%list;
                   console := console st |}
              = [CGetAccount account TOKEN_PROGRAM_ID r])
    by (apply callsSince_app; reflexivity).
  rewrite C. repeat split.
Qed.

End Scripts.

Section SmartSwap.
Context {World : Type}.
Variable ledger : LedgerClient World.
Variable sdk : Sdk.
Variable keypair : PublicKey.

(** What [getPoolsForTokenPair] returns: matching pools, each with the
    address of its own pair. *)
Lemma getPoolsForTokenPair_returns (tokenA tokenB : PublicKey)
    (st st' : State World) (found : list (Pool.t * PublicKey)) :
  AppSmart.getPoolsForTokenPair ledger sdk tokenA tokenB st = (Ok found, st') ->
  Forall (fun entry =>
            matchesPair tokenA tokenB (fst entry) = true
            /\ snd entry = getAddress sdk (pairOf sdk (fst entry))) found.
Proof.
  unfold AppSmart.getPoolsForTokenPair, bind, await, ret.
  destruct (getAllPools ledger (world st)) as [[allPools | e] w]; [| discriminate].
  intro H. injection H as <- _. apply Forall_forall. intros entry Hin.
  apply in_map_iff in Hin. destruct Hin as (pool & <- & Hp).
  apply filter_In in Hp. cbn. tauto.
Qed.

Section Generic.
Variable T : list Call -> Prop.
Hypothesis T_nil : T [].
Hypothesis T_app : forall l1 l2, T l1 -> T l2 -> T (l1 ++ l2)%list.
Hypothesis T_pools : forall r, T [CGetAllPools r].
Hypothesis T_account : forall address program r, T [CGetAccount address program r].
Variable wanted : Pool.t -> Prop.
Hypothesis T_attempt :
  forall swapAmount pool,
    wanted pool ->
    leaves T (AppSmart.attempt ledger sdk keypair swapAmount pool
                (getAddress sdk (pairOf sdk pool))).

Lemma tryEach_leaves (swapAmount : BN) (found : list (Pool.t * PublicKey)) :
  Forall (fun entry =>
            wanted (fst entry)
            /\ snd entry = getAddress sdk (pairOf sdk (fst entry))) found ->
  leaves T (AppSmart.tryEach ledger sdk keypair swapAmount found).
Proof.
  induction 1 as [| [pool address] rest [Hw Ha] _ IH]; cbn [AppSmart.tryEach].
  - now apply leaves_ret.
  - cbn in Hw, Ha. subst address.
    apply leaves_bind; auto using leaves_lift. intros _.
    apply leaves_bind; auto.
    + apply leaves_try_catch; auto. intro. now apply leaves_ret.
    + intros []; [now apply leaves_ret | exact IH].
Qed.

Lemma tryPairs_leaves (swapAmount : BN) (tokenPairs : list (PublicKey * PublicKey)) :
  Forall (fun tokens =>
            forall pool, matchesPair (fst tokens) (snd tokens) pool = true ->
                         wanted pool) tokenPairs ->
  leaves T (AppSmart.tryPairs ledger sdk keypair swapAmount tokenPairs).
Proof.
  induction 1 as [| [tokenA tokenB] rest Hw _ IH]; cbn [AppSmart.tryPairs].
  - now apply leaves_ret.
  - cbn in Hw. apply leaves_bind; auto.
    + apply leaves_try_catch; auto; [| intro; now apply leaves_ret].
      apply leaves_bind_post
        with (Q := Forall (fun entry =>
                             matchesPair tokenA tokenB (fst entry) = true
                             /\ snd entry = getAddress sdk (pairOf sdk (fst entry))));
        auto.
      * intros st found st'. apply getPoolsForTokenPair_returns.
      * unfold AppSmart.getPoolsForTokenPair. apply leaves_bind; auto.
        -- now apply leaves_await.
        -- intro. now apply leaves_ret.
      * intros found F. apply tryEach_leaves. revert F. apply Forall_impl.
        intros entry [Hm Ha]. auto.
    + intros []; [now apply leaves_ret | exact IH].
Qed.

Lemma smartSwapEthToUsdt_leaves :
  (forall pool, smartPool pool -> wanted pool) ->
  leaves T (AppSmart.smartSwapEthToUsdt ledger sdk keypair).
Proof.
  intro Hw. unfold AppSmart.smartSwapEthToUsdt. apply leaves_bind; auto.
  - unfold App.getAvailableWrappedSolBalance. apply leaves_try_catch; auto.
    + now apply leaves_await.
    + intro. now apply leaves_ret.
  - intro balance. destruct (_ =? 0); [now apply leaves_ret |].
    apply leaves_bind; auto; [| intro; now apply leaves_ret].
    apply tryPairs_leaves. repeat constructor; cbn; intros pool Hm; apply Hw.
    + now left.
    + now right.
Qed.

End Generic.

(** X21.  [smartSwapEthToUsdt] executes what it simulated: every
    execution of a run stands right after a simulation of the same
    pool, direction, quantity and slippage that returned the status
    [Ok], and its price bound is the price that simulation predicted. *)
Theorem smart_swap_executes_what_it_simulated (st : State World) :
  coupled sdk None
    (callsSince st (snd (AppSmart.smartSwapEthToUsdt ledger sdk keypair st))).
Proof.
  apply (leaves_since (T := selfCoupled sdk)).
  apply smartSwapEthToUsdt_leaves with (wanted := fun _ => True); auto.
  - intro. exact I.
  - apply selfCoupled_app.
  - intro. now apply selfCoupled_one.
  - intros. now apply selfCoupled_one.
  - intros swapAmount pool _ st0. unfold AppSmart.attempt, bind, await, ret.
    match goal with
    | |- context [swapSimulation ledger ?a ?b ?c ?d ?e ?f ?g] =>
        destruct (swapSimulation ledger a b c d e f g) as [[simulation | e0] w1]
    end; cbn.
    + destruct (sim_status simulation) eqn:Hs; cbn.
      * match goal with
        | |- context [market_swap ledger ?a ?w] =>
            destruct (market_swap ledger a w) as [[txHash | e1] w2]
        end; cbn;
        (eexists; split; [rewrite <- app_assoc; reflexivity |]);
        intro previous; cbn; rewrite Hs; repeat split.
      * eexists. split; [reflexivity |]. intro previous. cbn. auto.
    + eexists. split; [reflexivity |]. intro previous. cbn. auto.
Qed.

(** X22.  [smartSwapEthToUsdt] computes the direction from the pair:
    for whatever canonical order the SDK gives a pair, the flag of
    every simulation and of every execution is [true] exactly when the
    first token of the pair of the pool is the native mint, and the
    pool holds the native mint and USDT, or the native mint and USDC. *)
Theorem smart_swap_direction_follows_the_pair (st : State World) :
  Forall (directionHolds sdk App.ETH_MINT
            (fun pair => exists pool, smartPool pool /\ pair = pairOf sdk pool))
    (callsSince st (snd (AppSmart.smartSwapEthToUsdt ledger sdk keypair st))).
Proof.
  apply (leaves_since
           (T := Forall (directionHolds sdk App.ETH_MINT
                   (fun pair => exists pool, smartPool pool /\ pair = pairOf sdk pool)))).
  apply smartSwapEthToUsdt_leaves with (wanted := smartPool); auto.
  - intros l1 l2 H1 H2. apply Forall_app. auto.
  - intro. repeat constructor.
  - intros. repeat constructor.
  - intros swapAmount pool Hw. unfold AppSmart.attempt.
    apply leaves_bind; [intros l1 l2 H1 H2; apply Forall_app; auto | |].
    + apply leaves_await. intro r. constructor; [| constructor].
      cbn. exists (pairOf sdk pool). eauto.
    + intro simulation. destruct (negb _); [apply leaves_ret; constructor |].
      apply leaves_bind; [intros l1 l2 H1 H2; apply Forall_app; auto | |].
      * apply leaves_await. intro r. constructor; [| constructor].
        cbn. eauto.
      * intro. apply leaves_ret. constructor.
Qed.

Lemma attempt_once (swapAmount : BN) (pool : Pool.t) (address : PublicKey)
    (st st' : State World) (r : Exc bool) :
  AppSmart.attempt ledger sdk keypair swapAmount pool address st = (r, st') ->
  exists new,
    calls st' = (calls st ++ new)%list
    /\ match r with
       | Ok true =>
           exists before c,
             new = (before ++ [c])%list
             /\ Forall (fun c => isAccepted c = false) before
       | _ => Forall (fun c => isAccepted c = false) new
       end.
Proof.
  unfold AppSmart.attempt, bind, await, ret.
  match goal with
  | |- context [swapSimulation ledger ?a ?b ?c ?d ?e ?f ?g] =>
      destruct (swapSimulation ledger a b c d e f g) as [[simulation | e0] w1]
  end; cbn.
  - destruct (SimulationStatus.is_Ok (sim_status simulation)); cbn.
    + match goal with
      | |- context [market_swap ledger ?a ?w] =>
          destruct (market_swap ledger a w) as [[txHash | e1] w2]
      end; cbn; intro H; injection H as <- <-; cbn;
      (eexists; split; [rewrite <- app_assoc; reflexivity |]).
      * eexists [_], _. split; [reflexivity |]. repeat constructor.
      * repeat constructor.
    + intro H; injection H as <- <-; cbn.
      eexists. split; [reflexivity |]. repeat constructor.
  - intro H; injection H as <- <-; cbn.
    eexists. split; [reflexivity |]. repeat constructor.
Qed.

(** After a turn that did not trade, the calls that follow keep the
    shape. *)
Lemma once_after (new1 new2 : list Call) (r : Exc bool) :
  Forall (fun c => isAccepted c = false) new1 ->
  match r with
  | Ok true =>
      exists before c,
        new2 = (before ++ [c])%list
        /\ Forall (fun c => isAccepted c = false) before
  | _ => Forall (fun c => isAccepted c = false) new2
  end ->
  match r with
  | Ok true =>
      exists before c,
        (new1 ++ new2)%list = (before ++ [c])%list
        /\ Forall (fun c => isAccepted c = false) before
  | _ => Forall (fun c => isAccepted c = false) (new1 ++ new2)%list
  end.
Proof.
  intros F1 S2. destruct r as [[|] | e].
  - destruct S2 as (before & c & -> & F). exists (new1 ++ before)%list, c.
    rewrite app_assoc. split; [reflexivity |]. apply Forall_app. auto.
  - apply Forall_app. auto.
  - apply Forall_app. auto.
Qed.

Lemma tryEach_once (swapAmount : BN) (found : list (Pool.t * PublicKey)) :
  forall (st st' : State World) (r : Exc bool),
  AppSmart.tryEach ledger sdk keypair swapAmount found st = (r, st') ->
  exists new,
    calls st' = (calls st ++ new)%list
    /\ match r with
       | Ok true =>
           exists before c,
             new = (before ++ [c])%list
             /\ Forall (fun c => isAccepted c = false) before
       | _ => Forall (fun c => isAccepted c = false) new
       end.
Proof.
  induction found as [| [pool address] rest IH]; intros st st' r;
    cbn [AppSmart.tryEach].
  - intro H. injection H as <- <-. exists []. rewrite app_nil_r. auto.
  - unfold bind at 1, lift at 1.
    destruct (BN_toNumber (Pool.fee pool)) as [feeNumber | e].
    2:{ intro H. injection H as <- <-. exists []. rewrite app_nil_r. auto. }
    unfold bind, try_catch.
    destruct (AppSmart.attempt ledger sdk keypair swapAmount pool address st)
      as [[[|] | e] st1] eqn:E;
      destruct (attempt_once _ _ _ _ E) as (new1 & C1 & S1).
    + intro H. injection H as <- <-. exists new1. auto.
    + intro H. destruct (IH _ _ _ H) as (new2 & C2 & S2).
      exists (new1 ++ new2)%list. rewrite C2, C1, app_assoc. split; [reflexivity |].
      now apply once_after.
    + unfold ret. intro H. destruct (IH _ _ _ H) as (new2 & C2 & S2).
      exists (new1 ++ new2)%list. rewrite C2, C1, app_assoc. split; [reflexivity |].
      now apply once_after.
Qed.

Lemma tryPairs_once (swapAmount : BN) (tokenPairs : list (PublicKey * PublicKey)) :
  forall (st st' : State World) (r : Exc bool),
  AppSmart.tryPairs ledger sdk keypair swapAmount tokenPairs st = (r, st') ->
  exists new,
    calls st' = (calls st ++ new)%list
    /\ match r with
       | Ok true =>
           exists before c,
             new = (before ++ [c])%list
             /\ Forall (fun c => isAccepted c = false) before
       | _ => Forall (fun c => isAccepted c = false) new
       end.
Proof.
  induction tokenPairs as [| [tokenA tokenB] rest IH]; intros st st' r;
    cbn [AppSmart.tryPairs].
  - intro H. injection H as <- <-. exists []. rewrite app_nil_r. auto.
  - unfold bind at 1, try_catch, bind at 1, AppSmart.getPoolsForTokenPair,
      bind at 1, await, ret.
    destruct (getAllPools ledger (world st)) as [[allPools | e] w]; cbv beta iota.
    + match goal with
      | |- context [AppSmart.tryEach ledger sdk keypair swapAmount ?l ?s] =>
          destruct (AppSmart.tryEach ledger sdk keypair swapAmount l s)
            as [[[|] | e] st1] eqn:E;
          destruct (tryEach_once _ _ _ E) as (new1 & C1 & S1)
      end; cbn [calls] in C1.
      * intro H. injection H as <- <-. eexists.
        split; [rewrite C1, <- app_assoc; reflexivity |].
        cbn. destruct S1 as (before & c & -> & F).
        exists (CGetAllPools (Ok allPools) :: before), c.
        split; [reflexivity |]. constructor; auto.
      * intro H. destruct (IH _ _ _ H) as (new2 & C2 & S2). eexists.
        split; [rewrite C2, C1, <- !app_assoc; reflexivity |].
        apply (once_after (new1 := CGetAllPools (Ok allPools) :: new1));
          [constructor; auto | exact S2].
      * intro H. destruct (IH _ _ _ H) as (new2 & C2 & S2). eexists.
        split; [rewrite C2, C1, <- !app_assoc; reflexivity |].
        apply (once_after (new1 := CGetAllPools (Ok allPools) :: new1));
          [constructor; auto | exact S2].
    + intro H. destruct (IH _ _ _ H) as (new2 & C2 & S2). eexists.
      split; [rewrite C2; cbn [calls]; rewrite <- !app_assoc; reflexivity |].
      apply (once_after (new1 := [CGetAllPools (Throw e)]));
        [repeat constructor | exact S2].
Qed.

(** X23.  [smartSwapEthToUsdt] trades at most once: no call of a run
    but the last one is an execution the Ledger accepted, so that the
    script makes no further call after an accepted execution. *)
Theorem smart_swap_trades_at_most_once (st : State World) :
  Forall (fun c => isAccepted c = false)
    (removelast
       (callsSince st (snd (AppSmart.smartSwapEthToUsdt ledger sdk keypair st)))).
Proof.
  unfold AppSmart.smartSwapEthToUsdt, bind at 1,
    App.getAvailableWrappedSolBalance, try_catch, await, ret.
  match goal with
  | |- context [getAccount ledger ?a ?p ?w] =>
      destruct (getAccount ledger a p w) as [[balance | e] w1]
  end; cbv beta iota.
  - destruct (App.fortyPercent balance =? 0).
    + cbn. erewrite callsSince_app; [| cbn; reflexivity]. constructor.
    + unfold bind.
      match goal with
      | |- context [AppSmart.tryPairs ledger sdk keypair ?a ?l ?s] =>
          destruct (AppSmart.tryPairs ledger sdk keypair a l s)
            as [r st1] eqn:E;
          destruct (tryPairs_once _ _ _ E) as (new & C & S)
      end; cbn [calls] in C.
      assert (C' : calls (snd (match r with
                               | Ok _ => (Ok tt, st1)
                               | Throw e => (Throw e, st1)
                               end))
                   = (calls st ++ (CGetAccount
                        (getAssociatedTokenAddressSync sdk App.ETH_MINT keypair
                           TOKEN_PROGRAM_ID) TOKEN_PROGRAM_ID (Ok balance)
                        :: new))%list).
      { destruct r; cbn; rewrite C, <- app_assoc; reflexivity. }
      rewrite (callsSince_app _ _ _ C').
      apply removelast_after with (l1 := [_]); [repeat constructor |].
      destruct r as [[|] | e].
      * destruct S as (before & c & -> & F). now rewrite removelast_last.
      * now apply removelast_not_accepted.
      * now apply removelast_not_accepted.
  - cbn. erewrite callsSince_app; [| cbn; reflexivity]. constructor.
Qed.

(** X24.  [swapEthToUsdt] executes what it simulated when the SDK puts
    USDT before the native mint, as the lexicographic order does: the
    simulation is asked with the literal direction [false], the
    execution with the direction computed from the pair, and under
    that order the two agree, on the same pool, quantity and
    slippage, at the price the simulation predicted. *)
Theorem swapEthToUsdt_executes_what_it_simulated (st : State World) :
  key_lt sdk App.ETH_MINT App.USDT_MINT = false ->
  coupled sdk None
    (callsSince st (snd (App.swapEthToUsdt ledger sdk keypair st))).
Proof.
  intro Horder.
  apply (leaves_since (T := selfCoupled sdk)).
  unfold App.swapEthToUsdt.
  apply leaves_bind; try apply selfCoupled_app; try (intro; exact I).
  - unfold App.getAvailableWrappedSolBalance.
    apply leaves_try_catch; try apply selfCoupled_app; try (intro; exact I).
    + apply leaves_await. intro. now apply selfCoupled_one.
    + intro. apply leaves_ret. intro; exact I.
  - intro balance. destruct (_ =? 0); [apply leaves_ret; intro; exact I |].
    apply leaves_try_catch; try apply selfCoupled_app; try (intro; exact I).
    2:{ intro. apply leaves_ret. intro; exact I. }
    apply leaves_bind; try apply selfCoupled_app; try (intro; exact I).
    + unfold App.checkPoolExists.
      apply leaves_try_catch; try apply selfCoupled_app; try (intro; exact I).
      * apply leaves_bind; try apply selfCoupled_app; try (intro; exact I).
        -- apply leaves_await. intro. now apply selfCoupled_one.
        -- intro. apply leaves_ret. intro; exact I.
      * intro. apply leaves_ret. intro; exact I.
    + intros poolExists. destruct (negb poolExists);
        [apply leaves_ret; intro; exact I |].
      intro st0. unfold bind, await, ret, throw.
      match goal with
      | |- context [swapSimulation ledger ?a ?b ?c ?d ?e ?f ?g] =>
          destruct (swapSimulation ledger a b c d e f g) as [[simulation | e0] w1]
      end; cbn.
      * destruct (sim_status simulation) eqn:Hs; cbn.
        -- match goal with
           | |- context [market_swap ledger ?a ?w] =>
               destruct (market_swap ledger a w) as [[txHash | e1] w2]
           end; cbn;
           (eexists; split; [rewrite <- app_assoc; reflexivity |]);
           intro previous; cbn; rewrite Hs; unfold new_Pair; rewrite Horder;
           repeat split.
        -- eexists. split; [reflexivity |]. intro previous. cbn. auto.
      * eexists. split; [reflexivity |]. intro previous. cbn. auto.
Qed.

End SmartSwap.

(* ------------------------------------------------------------------ *)
(** ** The list of all pools and the content of a quote *)

Lemma symbolOfMint_names (m : PublicKey) : namesMint m (symbolOfMint m).
Proof.
  unfold namesMint, symbolOfMint, TOKEN_REGISTRY.
  cbn [find snd mint]. unfold equals, NATIVE_MINT.
  repeat match goal with
  | |- context [String.eqb ?x m] =>
      destruct (String.eqb_spec x m) as [<- | ?];
      [left; eexists; split; reflexivity |]
  end.
  right. split; [reflexivity |]. intros s token H.
  apply getTokenInfo_lookup in H. revert H.
  generalize (toUpperCase s). intro k.
  unfold TOKEN_REGISTRY. cbn [lookup].
  repeat match goal with
  | |- context [String.eqb k ?x] =>
      destruct (String.eqb_spec k x) as [-> | _];
      [intro H; injection H as <-; cbn; unfold NATIVE_MINT in *; congruence |]
  end.
  discriminate.
Qed.

Lemma mapExc_listedPoolOf (pools : list Pool.t) (data : list ListedPool) :
  mapExc listedPoolOf pools = Ok data ->
  Forall safeFee pools
  /\ Forall2 (fun pool listed =>
                listed_tokenX listed = Pool.tokenX pool
                /\ listed_tokenY listed = Pool.tokenY pool
                /\ listed_fee listed = Pool.fee pool
                /\ namesMint (Pool.tokenX pool) (listed_tokenXSymbol listed)
                /\ namesMint (Pool.tokenY pool) (listed_tokenYSymbol listed))
             pools data.
Proof.
  revert data. induction pools as [| pool rest IH]; intro data; cbn [mapExc].
  - intro H. injection H as <-. split; constructor.
  - unfold listedPoolOf at 1.
    destruct (BN_toNumber (Pool.fee pool)) as [feeNumber | e] eqn:Hfee;
      [| discriminate].
    destruct (mapExc listedPoolOf rest) as [others | e]; [| discriminate].
    intro H. injection H as <-. destruct (IH others eq_refl) as (F & F2).
    destruct (BN_toNumber_Ok _ Hfee) as (_ & Hsafe).
    split; constructor; auto. cbn.
    repeat split; apply symbolOfMint_names.
Qed.

(** X25.  The list of all pools names the tokens by the registry:
    when the route answers, it lists every pool the Ledger enumerated,
    in that order, all with a fee [toNumber] can read, and the symbol
    it gives for each token resolves to a token of that very mint, or
    is 'UNKNOWN' when no symbol of the registry does. *)
Theorem all_pools_route_names_the_tokens {World} (ledger : LedgerClient World)
    (st st' : State World) (total : nat) (poolsData : list ListedPool) :
  all_pools_handler ledger st = (Ok (total, poolsData), st') ->
  exists allPools,
    In (CGetAllPools (Ok allPools)) (callsSince st st')
    /\ total = List.length allPools
    /\ Forall safeFee allPools
    /\ Forall2 (fun pool listed =>
                  listed_tokenX listed = Pool.tokenX pool
                  /\ listed_tokenY listed = Pool.tokenY pool
                  /\ listed_fee listed = Pool.fee pool
                  /\ namesMint (Pool.tokenX pool) (listed_tokenXSymbol listed)
                  /\ namesMint (Pool.tokenY pool) (listed_tokenYSymbol listed))
               allPools poolsData.
Proof.
  unfold all_pools_handler, bind at 1.
  destruct (initializeMarket_quiet ledger st) as (new1 & C1 & _ & _).
  destruct (initializeMarket ledger st) as [[[] | e] st1]; [| discriminate].
  cbn [snd] in C1. unfold bind at 1, await.
  destruct (getAllPools ledger (world st1)) as [[allPools | e] w]; [| discriminate].
  unfold bind, lift, ret.
  destruct (mapExc listedPoolOf allPools) as [data | e] eqn:M; [| discriminate].
  intro H. injection H as <- <- <-. exists allPools.
  destruct (mapExc_listedPoolOf _ M) as (F & F2).
  split.
  { erewrite callsSince_app.
    2:{ cbn [calls]. rewrite C1, <- app_assoc. reflexivity. }
    apply in_or_app. right. now left. }
  auto.
Qed.

(** X26.  A quote is assembled from the simulation of the first
    candidate: after a simulation with status [Ok] the answer is 200
    with the amount the simulation predicts, divided by 10 to the
    decimals of the token bought and rounded towards zero, the price
    impact of the simulation, and the fee of the pool divided by 10^9;
    it is 500 when the simulation carries no amount, or when
    [toNumber] cannot read the fee.  All this for a slippage that
    [toDecimal] takes; for any other the answer is 500 with the
    message of [toDecimal]. *)
Theorem quote_is_assembled_from_the_simulation {World}
    (ledger : LedgerClient World) (sdk : Sdk) (body : SwapBody)
    (fromToken toToken : string) (amount : Q)
    (fromTokenInfo toTokenInfo : TokenInfo) (n : BN)
    (st st1 : State World) (allPools : list Pool.t) (w2 w3 : World)
    (pool : Pool.t) (rest : list Pool.t) (simulation : Simulation) :
  body_fromToken body = Some fromToken ->
  body_toToken body = Some toToken ->
  body_amount body = Some amount ->
  fromToken <> "" -> toToken <> "" -> ~ (amount == 0)%Q ->
  getTokenInfo fromToken = Ok fromTokenInfo ->
  getTokenInfo toToken = Ok toTokenInfo ->
  BN_ofNumber amount = Ok n ->
  initializeMarket ledger st = (Ok tt, st1) ->
  getAllPools ledger (world st1) = (Ok allPools, w2) ->
  relevantPools allPools (mint fromTokenInfo) (mint toTokenInfo) = pool :: rest ->
  swapSimulation ledger
    (equals (Pair.tokenX (pairOf sdk pool)) (mint fromTokenInfo)) true
    (n * 10 ^ decimals fromTokenInfo) (toDecimal sdk (slippage_of body) 2)
    (getAddress sdk (pairOf sdk pool)) TICK_CROSSES_PER_IX_NATIVE_TOKEN w2
    = (Ok simulation, w3) ->
  sim_status simulation = SimulationStatus.Ok ->
  fst (api_quote ledger sdk body st)
  = match toDecimal_call sdk (slippage_of body) 2 with
    | Throw e => respond 500 e
    | Ok _ =>
        match accumulatedAmountOut simulation with
        | None => respond 500 "Cannot read properties of undefined (reading 'div')"
        | Some out =>
            if Z.abs (Pool.fee pool) <? MAX_SAFE
            then {| status := 200;
                    payload := QuotePayload
                      {| quote_fromToken := fromToken; quote_toToken := toToken;
                         quote_fromAmount := amount;
                         quote_estimatedToAmount :=
                           Z.quot out (10 ^ decimals toTokenInfo);
                         quote_priceImpact := priceImpact simulation;
                         quote_fee :=
                           (inject_Z (Pool.fee pool) / inject_Z 1000000000)%Q;
                         quote_slippage := slippage_of body |} |}
            else respond 500 "Number can only safely store up to 53 bits"
        end
    end.
Proof.
  intros Ef Et Ea Mf Mt Ma Hfrom Hto Hn Hmarket Hpools Hrel Hsim Hok.
  apply present_string in Mf, Mt. apply present_number in Ma.
  unfold api_quote. rewrite Ef, Et, Ea, Mf, Mt, Ma. cbn [orb].
  unfold quote_handler, bind at 1, lift at 1. rewrite Hfrom.
  unfold bind at 1, lift at 1. rewrite Hto.
  unfold bind at 1, lift at 1. rewrite Hn.
  unfold bind at 1. rewrite Hmarket.
  unfold bind at 1, findBestPoolForPair, bind at 1, await at 1, ret at 1.
  rewrite Hpools, Hrel. cbn [world calls console].
  unfold bind at 1, lift at 1, toDecimal_call.
  destruct (Qlt_bool (- MAX_FACTOR) (slippage_of body)
            && Qlt_bool (slippage_of body) MAX_FACTOR); cbv beta iota;
    [| reflexivity].
  unfold bind at 1, await at 1. cbn [world calls console]. rewrite Hsim.
  rewrite Hok. cbn [SimulationStatus.is_Ok negb].
  destruct (accumulatedAmountOut simulation) as [out |]; [| reflexivity].
  unfold bind, lift, ret, BN_toNumber.
  destruct (Z.abs (Pool.fee pool) <? MAX_SAFE); reflexivity.
Qed.

(* ------------------------------------------------------------------ *)
(** ** The further properties at sample requests *)

Lemma success_reports_the_accepted_execution_witness :
  exists before s,
    callsSince Sample.start
      (snd (performTokenSwap Sample.fallback Sample.sdk "ETH" "USDT" (1 # 1)
              (1 # 2) "key" Sample.start))
    = (before ++ [CMarketSwap s (Ok "tx-dear")])%list
    /\ Swap.owner s = "pub:key".
Proof.
  edestruct (success_reports_the_accepted_execution Sample.fallback Sample.sdk
               "ETH" "USDT" (1 # 1) (1 # 2) "key" Sample.start)
    as (before & s & C & _ & _ & _ & _ & _ & _ & _ & _ & Ho).
  - vm_compute; reflexivity.
  - exists before, s. split; [exact C |].
    cbn in Ho. injection Ho as Ho. symmetry. exact Ho.
Defined.

Lemma trading_errors_do_not_escape_witness :
  exists m st',
    performTokenSwap Sample.allThrow Sample.sdk "ETH" "USDT" (1 # 1) (1 # 2) "key"
                     Sample.start = (Throw m, st')
    /\ m = ALL_FAILED_MESSAGE.
Proof.
  do 2 eexists. split; [vm_compute; reflexivity |].
  eapply (trading_errors_do_not_escape Sample.allThrow Sample.sdk
            "ETH" "USDT" (1 # 1) (1 # 2) "key" Sample.start);
    vm_compute; reflexivity.
Defined.

Lemma at_most_one_accepted_execution_witness :
  match
    fst (performTokenSwap Sample.fallback Sample.sdk "ETH" "USDT" (1 # 1) (1 # 2)
           "key" Sample.start)
  with
  | Ok result =>
      exists before s,
        callsSince Sample.start
          (snd (performTokenSwap Sample.fallback Sample.sdk "ETH" "USDT" (1 # 1)
                  (1 # 2) "key" Sample.start))
        = (before ++ [CMarketSwap s (Ok (SwapResult.transactionHash result))])%list
        /\ Forall (fun c => isAccepted c = false) before
  | Throw _ =>
      Forall (fun c => isAccepted c = false)
        (callsSince Sample.start
           (snd (performTokenSwap Sample.fallback Sample.sdk "ETH" "USDT" (1 # 1)
                   (1 # 2) "key" Sample.start)))
  end.
Proof.
  apply (at_most_one_accepted_execution Sample.fallback Sample.sdk
           "ETH" "USDT" (1 # 1) (1 # 2) "key" Sample.start).
  intros allPools Hin. vm_compute in Hin.
  repeat (destruct Hin as [Hin | Hin]; try discriminate Hin); [| contradiction].
  injection Hin as <-.
  repeat constructor.
Defined.

Lemma candidates_simulated_once_in_fee_order_witness :
  exists tried rest,
    relevantPools [Sample.dear; Sample.cheap] NATIVE_MINT Sample.USDT
    = (tried ++ rest)%list
    /\ simulatedAddresses
         (callsSince Sample.start
            (snd (performTokenSwap Sample.fallback Sample.sdk "ETH" "USDT" (1 # 1)
                    (1 # 2) "key" Sample.start)))
       = map (poolAddressOf Sample.sdk) tried.
Proof.
  edestruct (candidates_simulated_once_in_fee_order Sample.fallback Sample.sdk
               "ETH" "USDT" (1 # 1) (1 # 2) "key" Sample.start)
    as (tried & rest & Hp & Hs & _).
  - vm_compute; reflexivity.
  - exists tried, rest. split; [exact Hp | exact Hs].
Defined.

Lemma executions_use_the_provisioned_accounts_witness :
  Forall (fun c => checksOnly ["ata:pub:key:" ++ NATIVE_MINT;
                               "ata:pub:key:" ++ Sample.USDT] c
                   /\ usesAccounts ("ata:pub:key:" ++ NATIVE_MINT)
                                   ("ata:pub:key:" ++ Sample.USDT) c)
    (callsSince Sample.start
       (snd (performTokenSwap Sample.fallback Sample.sdk "ETH" "USDT" (1 # 1)
               (1 # 2) "key" Sample.start))).
Proof.
  apply (executions_use_the_provisioned_accounts Sample.fallback Sample.sdk
           "ETH" "USDT" (1 # 1) (1 # 2) "key"
           (fromTokenInfo := Sample.ethInfo) (toTokenInfo := Sample.usdtInfo)
           (owner := "pub:key") Sample.start);
    reflexivity.
Defined.

Lemma read_routes_refuse_unknown_symbol_before_the_ledger_witness :
  (api_pools (Sample.willing [Sample.cheap]) "DOGE" "USDT" Sample.start
   = ({| answer_status := 400;
         answer_body := PoolsError "Token DOGE not supported" |}, Sample.start)
   /\ api_quote (Sample.willing [Sample.cheap]) Sample.sdk
        (Sample.swapBody "DOGE" "USDT" (1 # 1) (1 # 2)) Sample.start
      = (respond 500 "Token DOGE not supported", Sample.start))
  /\ (api_pools (Sample.willing [Sample.cheap]) "ETH" "doge" Sample.start
      = ({| answer_status := 400;
            answer_body := PoolsError "Token doge not supported" |}, Sample.start)
      /\ api_quote (Sample.willing [Sample.cheap]) Sample.sdk
           (Sample.swapBody "ETH" "doge" (1 # 1) (1 # 2)) Sample.start
         = (respond 500 "Token doge not supported", Sample.start)).
Proof.
  split.
  - edestruct (read_routes_refuse_unknown_symbol_before_the_ledger
                 (Sample.willing [Sample.cheap]) Sample.sdk
                 (Sample.swapBody "DOGE" "USDT" (1 # 1) (1 # 2))
                 (fromToken := "DOGE") (toToken := "USDT") (amount := 1 # 1)
                 (unknown := "DOGE") (m := "Token DOGE not supported")
                 Sample.start)
      as (_ & Hp & Hq);
      try reflexivity; try discriminate.
    + left. split; reflexivity.
    + split; [exact Hp | exact Hq].
  - edestruct (read_routes_refuse_unknown_symbol_before_the_ledger
                 (Sample.willing [Sample.cheap]) Sample.sdk
                 (Sample.swapBody "ETH" "doge" (1 # 1) (1 # 2))
                 (fromToken := "ETH") (toToken := "doge") (amount := 1 # 1)
                 (unknown := "doge") (m := "Token doge not supported")
                 Sample.start)
      as (_ & Hp & Hq);
      try reflexivity; try discriminate.
    + right. split; [reflexivity |]. split; [| reflexivity].
      exists Sample.ethInfo. reflexivity.
    + split; [exact Hp | exact Hq].
Defined.

Lemma swap_route_builds_the_market_before_the_lookup_witness :
  (let (response, st') :=
     api_swap (Sample.willing [Sample.cheap]) Sample.sdk
       (Sample.swapBody "ETH" "DOGE" (1 # 1) (1 # 2)) Sample.start in
   callsSince Sample.start st' = [CMarketBuild (Ok tt)]
   /\ world st' = 1%nat
   /\ response = respond 500 "Token DOGE not supported")
  /\ (let (response, st') :=
        api_swap Scripted.offline Sample.sdk
          (Sample.swapBody "DOGE" "USDT" (1 # 1) (1 # 2)) Sample.start in
      callsSince Sample.start st' = [CMarketBuild (Throw "fetch failed")]
      /\ world st' = 1%nat
      /\ response = respond 500 "Market initialization failed").
Proof.
  split.
  - apply (swap_route_builds_the_market_before_the_lookup
             (Sample.willing [Sample.cheap]) Sample.sdk
             (body := Sample.swapBody "ETH" "DOGE" (1 # 1) (1 # 2))
             (fromToken := "ETH") (toToken := "DOGE") (amount := 1 # 1)
             (privateKey := "key") (owner := "pub:key")
             (m := "Token DOGE not supported") Sample.start).
    + unfold validSwapBody. cbn. repeat split; discriminate.
    + reflexivity.
    + right. split; [exists Sample.ethInfo |]; reflexivity.
  - apply (swap_route_builds_the_market_before_the_lookup
             Scripted.offline Sample.sdk
             (body := Sample.swapBody "DOGE" "USDT" (1 # 1) (1 # 2))
             (fromToken := "DOGE") (toToken := "USDT") (amount := 1 # 1)
             (privateKey := "key") (owner := "pub:key")
             (m := "Token DOGE not supported") Sample.start).
    + unfold validSwapBody. cbn. repeat split; discriminate.
    + reflexivity.
    + left. reflexivity.
Defined.

Lemma request_fails_early_without_key_or_market_witness :
  performTokenSwap (Sample.willing [Sample.cheap]) Sample.sdk "ETH" "USDT" (1 # 1)
    (1 # 2) "" Sample.start
  = (Throw "Invalid private key format", Sample.start)
  /\ fst (performTokenSwap Scripted.offline Sample.sdk "ETH" "USDT" (1 # 1) (1 # 2)
            "key" Sample.start)
     = Throw "Market initialization failed".
Proof.
  split.
  - apply (proj1 (request_fails_early_without_key_or_market
                    (Sample.willing [Sample.cheap]) Sample.sdk "ETH" "USDT"
                    (1 # 1) (1 # 2) "" Sample.start)).
    reflexivity.
  - apply (proj2 (request_fails_early_without_key_or_market
                    Scripted.offline Sample.sdk "ETH" "USDT"
                    (1 # 1) (1 # 2) "key" Sample.start) "pub:key" "fetch failed"
                 1%nat); reflexivity.
Defined.

Lemma fractional_amount_is_traded_as_zero_witness :
  Forall (quantityIs 0)
    (callsSince Sample.start
       (snd (api_swap (Sample.willing [Sample.cheap]) Sample.sdk
               (Sample.swapBody "ETH" "USDT" (1 # 10) (1 # 2)) Sample.start))).
Proof.
  apply (fractional_amount_is_traded_as_zero
           (Sample.willing [Sample.cheap]) Sample.sdk
           (body := Sample.swapBody "ETH" "USDT" (1 # 10) (1 # 2))
           (fromToken := "ETH") (toToken := "USDT") (amount := 1 # 10)
           (privateKey := "key") (fromTokenInfo := Sample.ethInfo) Sample.start).
  - unfold validSwapBody. cbn. repeat split; discriminate.
  - reflexivity.
  - reflexivity.
Defined.

Lemma pools_route_lists_the_candidates_witness :
  api_pools (Sample.willing [Sample.foreign; Sample.dear; Sample.cheap])
    "eth" "usdt" Sample.start
  = ({| answer_status := 200;
        answer_body :=
          PoolsFound "eth/usdt" 2
            [poolDataFor Sample.cheap; poolDataFor Sample.dear] |},
     {| world := 2%nat;
        calls := [CMarketBuild (Ok tt);
                  CGetAllPools (Ok [Sample.foreign; Sample.dear; Sample.cheap])];
        console := [] |}).
Proof.
  apply (pools_route_lists_the_candidates
           (Sample.willing [Sample.foreign; Sample.dear; Sample.cheap])
           "eth" "usdt" (fromTokenInfo := Sample.ethInfo)
           (toTokenInfo := Sample.usdtInfo) Sample.start
           (st1 := {| world := 1%nat; calls := [CMarketBuild (Ok tt)];
                      console := [] |})
           (allPools := [Sample.foreign; Sample.dear; Sample.cheap])
           (w := 2%nat) eq_refl eq_refl eq_refl eq_refl).
  repeat constructor.
Defined.

Lemma pool_info_route_always_fails_witness :
  fst (api_pool_info (Sample.willing [Sample.cheap]) "ETH" "USDT" Sample.start)
  = {| answer_status := 500;
       answer_body := PoolsError "findPoolForTokenPair is not defined" |}.
Proof.
  destruct (pool_info_route_always_fails (Sample.willing [Sample.cheap])
              "ETH" "USDT" Sample.start) as (error & E & _ & H).
  rewrite E. f_equal. f_equal.
  apply (H Sample.ethInfo Sample.usdtInfo 1%nat); reflexivity.
Defined.

Lemma market_stats_count_the_sides_of_the_pools_witness :
  exists stats st',
    market_stats_handler
      (Sample.willing [Sample.foreign; Sample.dear; Sample.cheap]) Sample.start
    = (Ok stats, st')
    /\ totalPools stats = 3%nat
    /\ list_sum (map snd (allTokenStats stats)) = (2 * totalPools stats)%nat.
Proof.
  edestruct (market_stats_count_the_sides_of_the_pools
               (Sample.willing [Sample.foreign; Sample.dear; Sample.cheap])
               Sample.start)
    as (allPools & _ & _ & _ & _ & Hsum & _).
  - vm_compute; reflexivity.
  - do 2 eexists. split; [vm_compute; reflexivity |].
    split; [reflexivity | exact Hsum].
Defined.

Lemma app_swaps_stop_on_an_empty_balance_witness :
  callsSince Sample.start
    (snd (AppSmart.smartSwapEthToUsdt Scripted.poor Sample.sdk "wallet"
            Sample.start))
  = [CGetAccount ("ata:wallet:" ++ NATIVE_MINT) TOKEN_PROGRAM_ID (Ok 2)].
Proof.
  apply (app_swaps_stop_on_an_empty_balance Scripted.poor Sample.sdk "wallet"
           Sample.start (r := Ok 2) (w := 1%nat)).
  - reflexivity.
  - cbn. lia.
Defined.

Lemma swapEthToUsdt_executes_what_it_simulated_witness :
  coupled Sample.sdk None
    (callsSince Sample.start
       (snd (App.swapEthToUsdt (Sample.willing [Sample.cheap]) Sample.sdk "wallet"
               Sample.start))).
Proof.
  apply (swapEthToUsdt_executes_what_it_simulated
           (Sample.willing [Sample.cheap]) Sample.sdk "wallet" Sample.start).
  reflexivity.
Defined.

Lemma all_pools_route_names_the_tokens_witness :
  exists total poolsData st',
    all_pools_handler (Sample.willing [Sample.foreign; Sample.cheap]) Sample.start
    = (Ok (total, poolsData), st')
    /\ total = 2%nat
    /\ map listed_tokenYSymbol poolsData = ["WBTC"; "ETH"].
Proof.
  edestruct (all_pools_route_names_the_tokens
               (Sample.willing [Sample.foreign; Sample.cheap]) Sample.start)
    as (allPools & _ & _ & _ & _).
  - vm_compute; reflexivity.
  - do 3 eexists. split; [vm_compute; reflexivity |]. split; reflexivity.
Defined.

Lemma quote_is_assembled_from_the_simulation_witness :
  fst (api_quote (Sample.willing [Sample.dear; Sample.cheap]) Sample.sdk
         (Sample.swapBody "ETH" "USDT" (1 # 1) (1 # 2)) Sample.start)
  = {| status := 200;
       payload := QuotePayload
         {| quote_fromToken := "ETH"; quote_toToken := "USDT";
            quote_fromAmount := 1 # 1; quote_estimatedToAmount := 2500;
            quote_priceImpact := None;
            quote_fee := (inject_Z 100000000 / inject_Z 1000000000)%Q;
            quote_slippage := 1 # 2 |} |}.
Proof.
  apply quote_is_assembled_from_the_simulation
    with (fromToken := "ETH") (toToken := "USDT") (amount := 1 # 1)
         (fromTokenInfo := Sample.ethInfo) (toTokenInfo := Sample.usdtInfo)
         (n := 1)
         (st1 := {| world := 1%nat; calls := [CMarketBuild (Ok tt)];
                    console := [] |})
         (allPools := [Sample.dear; Sample.cheap]) (w2 := 2%nat) (w3 := 3%nat)
         (pool := Sample.cheap) (rest := [Sample.dear])
         (simulation := Sample.accepted 777 2500000000);
    try reflexivity; try discriminate.
Defined.
